(** * Order-and-promotions engine of the e-commerce platform

    A shallow embedding of the transactional part of the server:
    - [src/utils/database.js]   the in-memory store ([database]);
    - [src/middleware/auth.js]  [verifyToken];
    - [src/routes/orders.js]    order creation, status update, payment;
    - [src/routes/marketing.js] flash-sale purchase and group-buying join.

    Modelling conventions.
    - The store is one record [Database]; every route handler is a function
      [Database -> Database * Response _].  The store is returned on failure
      as well, because a handler that answers 4xx/5xx may already have
      mutated it.
    - Express runs each of these handlers to completion before the next
      request is served (none of them awaits), so a run of the server is a
      list of requests folded over the store.
    - JS objects held in a [Map] are shared references; every read in the
      model goes back through the map of the current store, so an update
      made through one alias is seen through the others.
    - Numbers.  Quantities, stock counters, sizes, points and instants are
      integers ([Z]); prices, amounts, coupon values and wallets are exact
      rationals ([Q]).  IEEE-754 rounding of the JS doubles is not modelled.
    - [uuidv4()] is a supply of fresh identifiers: the counter [nextId].
    - Presentation-only fields (names, images, messages, descriptions) are
      left out of the records. *)

From Stdlib Require Import ZArith QArith Qround Qminmax Lia Lqa.
From stdpp Require Import gmap strings list.

Local Open Scope Z_scope.

(** ** Data model *)

Record Inventory := mkInventory {
  inv_total : Z;
  inv_available : Z;
  inv_reserved : Z;
  inv_threshold : Z
}.

Record Price := mkPrice {
  price_original : Q;
  price_selling : Q;
  price_distributor : Q;
  price_retailer : Q
}.

Record Product := mkProduct {
  p_id : string;
  p_price : Price;
  p_inventory : Inventory;
  p_supplierId : string
}.

Record Profile := mkProfile {
  points : Z;
  wallet : Q;
  referrerId : option string
}.

Record User := mkUser {
  u_id : string;
  u_username : string;
  u_role : string;
  u_profile : Profile
}.

Record Coupon := mkCoupon {
  c_id : string;
  c_code : string;
  c_type : string;
  c_value : Q;
  c_minAmount : Q;
  c_maxDiscount : option Q;
  c_maxUsage : Z;
  c_usageCount : Z;
  c_status : string
}.

Record OrderItem := mkOrderItem {
  oi_productId : string;
  oi_price : Q;
  oi_quantity : Z;
  oi_total : Q
}.

Record Amount := mkAmount {
  amt_subtotal : Q;
  amt_discount : Q;
  amt_total : Q
}.

Record AppliedCoupon := mkAppliedCoupon {
  ac_id : string;
  ac_code : string;
  ac_discount : Q
}.

Record TimelineEntry := mkTimelineEntry {
  tl_status : string;
  tl_timestamp : Z
}.

Record Payment := mkPayment {
  pay_method : string;
  pay_paidAt : Z;
  pay_amount : Q
}.

(** An order.  [o_timeline] is [None] for the orders built by the marketing
    routes, whose object literal has no [timeline] property. *)
Record Order := mkOrder {
  o_id : nat;
  o_userId : string;
  o_items : list OrderItem;
  o_amount : Amount;
  o_coupon : option AppliedCoupon;
  o_orderType : string;
  o_storeId : option string;
  o_promotionId : option string;   (* groupBuyingId / flashSaleId *)
  o_groupId : option nat;
  o_status : string;
  o_paymentStatus : string;
  o_shippingStatus : option string;
  o_timeline : option (list TimelineEntry);
  o_payment : option Payment;
  o_refund : option string;
  o_createdAt : Z;
  o_updatedAt : option Z
}.

Record Notification := mkNotification {
  n_type : string;
  n_recipientId : string;
  n_recipientType : string;
  n_orderId : nat;
  n_groupId : option nat
}.

Record FlashSale := mkFlashSale {
  fs_productId : string;
  fs_originalPrice : Q;
  fs_salePrice : Q;
  fs_inventory : Z;
  fs_soldCount : Z;
  fs_startTime : Z;
  fs_endTime : Z;
  fs_limitPerUser : Z;
  fs_participants : gmap string Z;
  fs_status : string
}.

Record Activity := mkActivity {
  a_productId : string;
  a_groupSize : Z;
  a_originalPrice : Q;
  a_groupPrice : Q;
  a_startTime : Z;
  a_endTime : Z;
  a_maxGroups : Z;
  a_currentGroups : Z;
  a_totalParticipants : Z
}.

Record Participant := mkParticipant {
  pt_userId : string;
  pt_username : string;
  pt_quantity : Z;
  pt_joinedAt : Z
}.

Record Group := mkGroup {
  g_id : nat;
  g_activityId : string;
  g_leaderId : string;
  g_participants : list Participant;
  g_requiredSize : Z;
  g_currentSize : Z;
  g_status : string;
  g_completedAt : option Z;
  g_expiresAt : Z
}.

Record Database := mkDatabase {
  users : gmap string User;
  products : gmap string Product;
  orders : list Order;
  coupons : list Coupon;
  notifications : list Notification;
  groupBuyingActivities : gmap string Activity;
  groupBuyingGroups : gmap nat Group;
  flashSales : gmap string FlashSale;
  nextId : nat
}.

(** ** Responses *)

Inductive ErrorKind :=
  | Unauthorized          (* 401, verifyToken *)
  | Forbidden             (* 403 *)
  | EmptyItems            (* 400, no line item *)
  | ProductNotFound       (* 400, unknown product in an order line *)
  | InsufficientStock     (* 400, stock too low *)
  | OrderNotFound         (* 404 *)
  | AlreadyPaid           (* 400, the order is already paid *)
  | SaleNotFound          (* 404 *)
  | PromotionNotStarted   (* 400 *)
  | PromotionEnded        (* 400 *)
  | QuotaExceeded         (* 400, per-user limit *)
  | ActivityNotFound      (* 404 *)
  | ActivityNotActive     (* 400, outside the activity window *)
  | GroupUnavailable      (* 400, unknown group or group not recruiting *)
  | AlreadyJoined         (* 400 *)
  | InternalError.        (* 500, an exception reached the catch block *)

Inductive Response (A : Type) :=
  | Success (a : A)
  | Failure (e : ErrorKind).
Arguments Success {A} a.
Arguments Failure {A} e.

(** ** Record updates *)

Definition set_inventory (p : Product) (i : Inventory) : Product :=
  mkProduct (p_id p) (p_price p) i (p_supplierId p).

Definition set_profile (u : User) (pr : Profile) : User :=
  mkUser (u_id u) (u_username u) (u_role u) pr.

Definition add_points (u : User) (n : Z) : User :=
  set_profile u (mkProfile (points (u_profile u) + n) (wallet (u_profile u))
                           (referrerId (u_profile u))).

Definition add_wallet (u : User) (c : Q) : User :=
  set_profile u (mkProfile (points (u_profile u)) (wallet (u_profile u) + c)%Q
                           (referrerId (u_profile u))).

Definition incr_usage (c : Coupon) : Coupon :=
  mkCoupon (c_id c) (c_code c) (c_type c) (c_value c) (c_minAmount c)
           (c_maxDiscount c) (c_maxUsage c) (c_usageCount c + 1) (c_status c).

Definition set_products (db : Database) (ps : gmap string Product) : Database :=
  mkDatabase (users db) ps (orders db) (coupons db) (notifications db)
             (groupBuyingActivities db) (groupBuyingGroups db) (flashSales db)
             (nextId db).

Definition set_users (db : Database) (us : gmap string User) : Database :=
  mkDatabase us (products db) (orders db) (coupons db) (notifications db)
             (groupBuyingActivities db) (groupBuyingGroups db) (flashSales db)
             (nextId db).

Definition set_orders (db : Database) (os : list Order) : Database :=
  mkDatabase (users db) (products db) os (coupons db) (notifications db)
             (groupBuyingActivities db) (groupBuyingGroups db) (flashSales db)
             (nextId db).

(** JS truthiness of an optional string: [undefined] and [""] are falsy. *)
Definition truthy (s : option string) : option string :=
  match s with
  | Some x => if (x =? "")%string then None else Some x
  | None => None
  end.

(** [a >= b] on rationals. *)
Definition Qgeb (a b : Q) : bool := Qle_bool b a.

(** Mutating, in a list that stands for a [Map] or for the result of
    [Array.from(map.values())], the element that a lookup or [find] with
    the test [f] returns: the first one that passes [f]. *)
Fixpoint updateFirst {A} (f : A -> bool) (g : A -> A) (l : list A) : list A :=
  match l with
  | [] => []
  | x :: r => if f x then g x :: r else x :: updateFirst f g r
  end.

(** [database.orders.get(id)]: the entry of the [Map] with this key. *)
Definition getOrder (os : list Order) (id : nat) : option Order :=
  find (fun o => Nat.eqb (o_id o) id) os.

(** Writing through the reference returned by [database.orders.get(id)]. *)
Definition putOrder (os : list Order) (o' : Order) : list Order :=
  updateFirst (fun o => Nat.eqb (o_id o) (o_id o')) (fun _ => o') os.

(** ** [verifyToken] (src/middleware/auth.js)

    [req.user] is the object stored under the token's id. *)
Definition verifyToken (uid : string) (db : Database) : option User :=
  users db !! uid.

(** ** Order creation: [POST /] (src/routes/orders.js) *)

Record ItemReq := mkItemReq {
  productId : string;
  quantity : Z
}.

Record CreateOrderReq := mkCreateOrderReq {
  items : list ItemReq;
  couponCode : option string;
  orderType : string;
  storeId : option string
}.

(** The role-dependent unit price of a line. *)
Definition itemPrice (role : string) (product : Product) : Q :=
  if (role =? "distributor")%string then price_distributor (p_price product)
  else if (role =? "retailer")%string then price_retailer (p_price product)
  else price_selling (p_price product).

(** [available -= q; reserved += q]. *)
Definition reserveStock (product : Product) (q : Z) : Product :=
  let i := p_inventory product in
  set_inventory product
    (mkInventory (inv_total i) (inv_available i - q) (inv_reserved i + q)
                 (inv_threshold i)).

(** The [for (const item of items)] loop.  It checks and reserves line by
    line; a [return] inside the loop leaves the products as they are at
    that point. *)
Fixpoint reserveItems (role : string) (its : list ItemReq)
    (ps : gmap string Product) (totalAmount : Q) (orderItems : list OrderItem)
    : gmap string Product * Response (Q * list OrderItem) :=
  match its with
  | [] => (ps, Success (totalAmount, orderItems))
  | item :: rest =>
    match ps !! productId item with
    | None => (ps, Failure ProductNotFound)
    | Some product =>
      if inv_available (p_inventory product) <? quantity item
      then (ps, Failure InsufficientStock)
      else
        let price := itemPrice role product in
        let itemTotal := (price * inject_Z (quantity item))%Q in
        reserveItems role rest
          (<[productId item := reserveStock product (quantity item)]> ps)
          (totalAmount + itemTotal)%Q
          (orderItems ++ [mkOrderItem (productId item) price (quantity item)
                                      itemTotal])
    end
  end.

(** [c.code === couponCode && c.status === 'active'] *)
Definition couponMatches (code : string) (c : Coupon) : bool :=
  (c_code c =? code)%string && (c_status c =? "active")%string.

(** [Math.min(x, coupon.maxDiscount || Infinity)]: an absent or zero
    [maxDiscount] is falsy and gives no cap. *)
Definition capDiscount (x : Q) (maxDiscount : option Q) : Q :=
  match maxDiscount with
  | Some m => if Qeq_bool m 0 then x else Qmin x m
  | None => x
  end.

Definition discountOf (coupon : Coupon) (totalAmount : Q) : Q :=
  if (c_type coupon =? "percentage")%string
  then capDiscount (totalAmount * c_value coupon / 100)%Q (c_maxDiscount coupon)
  else if (c_type coupon =? "fixed")%string
  then Qmin (c_value coupon) totalAmount
  else 0%Q.

(** The coupon block: discount, applied coupon, coupons after the call. *)
Definition applyCoupon (code : option string) (totalAmount : Q)
    (cs : list Coupon) : Q * option AppliedCoupon * list Coupon :=
  match truthy code with
  | None => (0%Q, None, cs)
  | Some cc =>
    match find (couponMatches cc) cs with
    | Some coupon =>
      if Qgeb totalAmount (c_minAmount coupon)
      then
        let discountAmount := discountOf coupon totalAmount in
        (discountAmount,
         Some (mkAppliedCoupon (c_id coupon) (c_code coupon) discountAmount),
         updateFirst (couponMatches cc) incr_usage cs)
      else (0%Q, None, cs)
    | None => (0%Q, None, cs)
    end
  end.

(** The handler after the loop: coupon, amount, the new order, the O2O
    notice to the store. *)
Definition placeOrder (user : User) (req : CreateOrderReq) (now : Z)
    (db : Database) (ps : gmap string Product) (totalAmount : Q)
    (orderItems : list OrderItem) : Database * Order :=
  let '(discountAmount, appliedCoupon, cs) :=
    applyCoupon (couponCode req) totalAmount (coupons db) in
  let finalAmount := (totalAmount - discountAmount)%Q in
  let newOrder :=
    mkOrder (nextId db) (u_id user) orderItems
            (mkAmount totalAmount discountAmount finalAmount)
            appliedCoupon (orderType req) (storeId req) None None
            "pending" "unpaid" (Some "unshipped"%string)
            (Some [mkTimelineEntry "created" now]) None None
            now (Some now) in
  let ns :=
    match (orderType req =? "offline")%string, truthy (storeId req) with
    | true, Some sid =>
      notifications db ++
        [mkNotification "new_order" sid "store" (o_id newOrder) None]
    | _, _ => notifications db
    end in
  (mkDatabase (users db) ps (orders db ++ [newOrder]) cs ns
              (groupBuyingActivities db) (groupBuyingGroups db)
              (flashSales db) (S (nextId db)),
   newOrder).

Definition createOrder (uid : string) (req : CreateOrderReq) (now : Z)
    (db : Database) : Database * Response Order :=
  match verifyToken uid db with
  | None => (db, Failure Unauthorized)
  | Some user =>
    match items req with
    | [] => (db, Failure EmptyItems)
    | _ =>
      match reserveItems (u_role user) (items req) (products db) 0%Q [] with
      | (ps, Failure e) => (set_products db ps, Failure e)
      | (ps, Success (totalAmount, orderItems)) =>
        let '(db', newOrder) :=
          placeOrder user req now db ps totalAmount orderItems in
        (db', Success newOrder)
      end
    end
  end.

(** ** Status update: [PATCH /:orderId/status] *)

Record StatusReq := mkStatusReq {
  sr_orderId : nat;
  sr_status : string;
  sr_shippingInfo : bool;          (* is [shippingInfo] present *)
  sr_refundReason : option string
}.

(** [available += q; reserved -= q], if the product still exists. *)
Definition releaseItem (ps : gmap string Product) (item : OrderItem)
    : gmap string Product :=
  match ps !! oi_productId item with
  | Some product =>
    let i := p_inventory product in
    <[oi_productId item :=
        set_inventory product
          (mkInventory (inv_total i) (inv_available i + oi_quantity item)
                       (inv_reserved i - oi_quantity item) (inv_threshold i))]> ps
  | None => ps
  end.

(** [reserved -= q; total -= q], if the product still exists. *)
Definition confirmItem (ps : gmap string Product) (item : OrderItem)
    : gmap string Product :=
  match ps !! oi_productId item with
  | Some product =>
    let i := p_inventory product in
    <[oi_productId item :=
        set_inventory product
          (mkInventory (inv_total i - oi_quantity item) (inv_available i)
                       (inv_reserved i - oi_quantity item) (inv_threshold i))]> ps
  | None => ps
  end.

Definition suppliesItem (ps : gmap string Product) (supplier : string)
    (item : OrderItem) : bool :=
  match ps !! oi_productId item with
  | Some product => (p_supplierId product =? supplier)%string
  | None => false
  end.

Definition canUpdate (user : User) (order : Order) (status : string)
    (ps : gmap string Product) : bool :=
  (u_role user =? "admin")%string
  || ((u_role user =? "supplier")%string
      && existsb (suppliesItem ps (u_id user)) (o_items order))
  || ((u_role user =? "customer")%string
      && (o_userId order =? u_id user)%string
      && (status =? "cancelled")%string).

(** [order.status = status; order.updatedAt = new Date()] *)
Definition setStatus (o : Order) (status : string) (now : Z) : Order :=
  mkOrder (o_id o) (o_userId o) (o_items o) (o_amount o) (o_coupon o)
          (o_orderType o) (o_storeId o) (o_promotionId o) (o_groupId o)
          status (o_paymentStatus o) (o_shippingStatus o) (o_timeline o)
          (o_payment o) (o_refund o) (o_createdAt o) (Some now).

Definition setTimeline (o : Order) (tl : list TimelineEntry) : Order :=
  mkOrder (o_id o) (o_userId o) (o_items o) (o_amount o) (o_coupon o)
          (o_orderType o) (o_storeId o) (o_promotionId o) (o_groupId o)
          (o_status o) (o_paymentStatus o) (o_shippingStatus o) (Some tl)
          (o_payment o) (o_refund o) (o_createdAt o) (o_updatedAt o).

Definition setShippingStatus (o : Order) (s : string) : Order :=
  mkOrder (o_id o) (o_userId o) (o_items o) (o_amount o) (o_coupon o)
          (o_orderType o) (o_storeId o) (o_promotionId o) (o_groupId o)
          (o_status o) (o_paymentStatus o) (Some s) (o_timeline o)
          (o_payment o) (o_refund o) (o_createdAt o) (o_updatedAt o).

Definition setRefund (o : Order) (r : string) : Order :=
  mkOrder (o_id o) (o_userId o) (o_items o) (o_amount o) (o_coupon o)
          (o_orderType o) (o_storeId o) (o_promotionId o) (o_groupId o)
          (o_status o) (o_paymentStatus o) (o_shippingStatus o) (o_timeline o)
          (o_payment o) (Some r) (o_createdAt o) (o_updatedAt o).

(** The inventory block of the status update. *)
Definition statusInventory (status oldStatus : string) (its : list OrderItem)
    (ps : gmap string Product) : gmap string Product :=
  if (status =? "cancelled")%string || (status =? "refunded")%string
  then fold_left releaseItem its ps
  else if (status =? "paid")%string && (oldStatus =? "pending")%string
  then fold_left confirmItem its ps
  else ps.

(** The handler.  When the order has no [timeline], [order.timeline.push]
    throws after [status] and [updatedAt] were written; the catch block
    answers 500 and the rest of the body is skipped. *)
Definition updateOrderStatus (uid : string) (req : StatusReq) (now : Z)
    (db : Database) : Database * Response Order :=
  match verifyToken uid db with
  | None => (db, Failure Unauthorized)
  | Some user =>
    match getOrder (orders db) (sr_orderId req) with
    | None => (db, Failure OrderNotFound)
    | Some order =>
      if negb (canUpdate user order (sr_status req) (products db))
      then (db, Failure Forbidden)
      else
        let oldStatus := o_status order in
        let o1 := setStatus order (sr_status req) now in
        match o_timeline o1 with
        | None => (set_orders db (putOrder (orders db) o1), Failure InternalError)
        | Some tl =>
          let o2 := setTimeline o1 (tl ++ [mkTimelineEntry (sr_status req) now]) in
          let ps := statusInventory (sr_status req) oldStatus (o_items o2)
                                    (products db) in
          let o3 := if (sr_status req =? "shipped")%string && sr_shippingInfo req
                    then setShippingStatus o2 "shipped" else o2 in
          let o4 := match (sr_status req =? "refunded")%string,
                          truthy (sr_refundReason req) with
                    | true, Some r => setRefund o3 r
                    | _, _ => o3
                    end in
          (set_orders (set_products db ps) (putOrder (orders db) o4), Success o4)
        end
    end
  end.

(** ** Payment: [POST /:orderId/pay] *)

Record PayReq := mkPayReq {
  pr_orderId : nat;
  pr_paymentMethod : string
}.

(** [paymentStatus = 'paid'; status = 'paid'; payment = {...}] *)
Definition markPaid (o : Order) (method : string) (now : Z) : Order :=
  mkOrder (o_id o) (o_userId o) (o_items o) (o_amount o) (o_coupon o)
          (o_orderType o) (o_storeId o) (o_promotionId o) (o_groupId o)
          "paid" "paid" (o_shippingStatus o) (o_timeline o)
          (Some (mkPayment method now (amt_total (o_amount o))))
          (o_refund o) (o_createdAt o) (o_updatedAt o).

(** The three nested [if] blocks of the referral commission.  Each referrer
    is read from the store as it is after the previous credit. *)
Definition distributeCommission (us : gmap string User) (buyer : User)
    (total : Q) : gmap string User :=
  match truthy (referrerId (u_profile buyer)) with
  | None => us
  | Some r1 =>
    match us !! r1 with
    | None => us
    | Some referrer =>
      let us1 := <[r1 := add_wallet referrer (total * (5 # 100))%Q]> us in
      match truthy (referrerId (u_profile referrer)) with
      | None => us1
      | Some r2 =>
        match us1 !! r2 with
        | None => us1
        | Some level2Referrer =>
          let us2 :=
            <[r2 := add_wallet level2Referrer (total * (3 # 100))%Q]> us1 in
          match truthy (referrerId (u_profile level2Referrer)) with
          | None => us2
          | Some r3 =>
            match us2 !! r3 with
            | None => us2
            | Some level3Referrer =>
              <[r3 := add_wallet level3Referrer (total * (1 # 100))%Q]> us2
            end
          end
        end
      end
    end
  end.

(** [Math.floor(order.amount.total * 0.01)] *)
Definition pointsEarned (o : Order) : Z :=
  Qfloor (amt_total (o_amount o) * (1 # 100))%Q.

(** The handler.  As in the status update, an order without [timeline]
    makes [order.timeline.push] throw: the order is already marked paid,
    no point and no commission is credited, and the answer is 500. *)
Definition payOrder (uid : string) (req : PayReq) (now : Z) (db : Database)
    : Database * Response (Order * Z) :=
  match verifyToken uid db with
  | None => (db, Failure Unauthorized)
  | Some user =>
    match getOrder (orders db) (pr_orderId req) with
    | None => (db, Failure OrderNotFound)
    | Some order =>
      if negb (o_userId order =? u_id user)%string
      then (db, Failure Forbidden)
      else if (o_paymentStatus order =? "paid")%string
      then (db, Failure AlreadyPaid)
      else
        let o1 := markPaid order (pr_paymentMethod req) now in
        match o_timeline o1 with
        | None => (set_orders db (putOrder (orders db) o1), Failure InternalError)
        | Some tl =>
          let o2 := setTimeline o1 (tl ++ [mkTimelineEntry "paid" now]) in
          let pts := pointsEarned o2 in
          let user' := add_points user pts in
          let us1 := <[uid := user']> (users db) in
          let us2 := distributeCommission us1 user' (amt_total (o_amount o2)) in
          (set_orders (set_users db us2) (putOrder (orders db) o2),
           Success (o2, pts))
        end
    end
  end.

(** ** Flash sale: [POST /flash-sale/:saleId/purchase] (src/routes/marketing.js) *)

Record PurchaseReq := mkPurchaseReq {
  pq_saleId : string;
  pq_quantity : Z                  (* [quantity = 1] when the body has none *)
}.

Definition flashSaleOrder (id : nat) (userId saleId : string) (sale : FlashSale)
    (q : Z) (now : Z) : Order :=
  let line := (fs_salePrice sale * inject_Z q)%Q in
  mkOrder id userId
          [mkOrderItem (fs_productId sale) (fs_salePrice sale) q line]
          (mkAmount line
                    ((fs_originalPrice sale - fs_salePrice sale) * inject_Z q)%Q
                    line)
          None "flash_sale" None (Some saleId) None
          "pending" "unpaid" None None None None now None.

(** [soldCount += q; participants.set(userId, userPurchased + q)] *)
Definition recordPurchase (sale : FlashSale) (userId : string)
    (userPurchased q : Z) : FlashSale :=
  mkFlashSale (fs_productId sale) (fs_originalPrice sale) (fs_salePrice sale)
              (fs_inventory sale) (fs_soldCount sale + q) (fs_startTime sale)
              (fs_endTime sale) (fs_limitPerUser sale)
              (<[userId := userPurchased + q]> (fs_participants sale))
              (fs_status sale).

(** [flashSale.participants.get(userId) || 0] *)
Definition purchasedBy (sale : FlashSale) (userId : string) : Z :=
  default 0 (fs_participants sale !! userId).

Definition purchaseFlashSale (uid : string) (req : PurchaseReq) (now : Z)
    (db : Database) : Database * Response Order :=
  match verifyToken uid db with
  | None => (db, Failure Unauthorized)
  | Some user =>
    match flashSales db !! pq_saleId req with
    | None => (db, Failure SaleNotFound)
    | Some flashSale =>
      if now <? fs_startTime flashSale then (db, Failure PromotionNotStarted)
      else if fs_endTime flashSale <? now then (db, Failure PromotionEnded)
      else if fs_inventory flashSale <? fs_soldCount flashSale + pq_quantity req
      then (db, Failure InsufficientStock)
      else
        let userPurchased := purchasedBy flashSale (u_id user) in
        if fs_limitPerUser flashSale <? userPurchased + pq_quantity req
        then (db, Failure QuotaExceeded)
        else
          let order := flashSaleOrder (nextId db) (u_id user) (pq_saleId req)
                                      flashSale (pq_quantity req) now in
          (mkDatabase (users db) (products db) (orders db ++ [order])
                      (coupons db) (notifications db)
                      (groupBuyingActivities db) (groupBuyingGroups db)
                      (<[pq_saleId req :=
                           recordPurchase flashSale (u_id user) userPurchased
                                          (pq_quantity req)]> (flashSales db))
                      (S (nextId db)),
           Success order)
    end
  end.

(** ** Group buying: [POST /group-buying/:activityId/join] *)

Record JoinReq := mkJoinReq {
  jr_activityId : string;
  jr_groupId : option nat;
  jr_quantity : Z                  (* [quantity = 1] when the body has none *)
}.

Definition groupOrder (id : nat) (activityId : string) (activity : Activity)
    (gid : nat) (now : Z) (p : Participant) : Order :=
  let line := (a_groupPrice activity * inject_Z (pt_quantity p))%Q in
  mkOrder id (pt_userId p)
          [mkOrderItem (a_productId activity) (a_groupPrice activity)
                       (pt_quantity p) line]
          (mkAmount line
                    ((a_originalPrice activity - a_groupPrice activity)
                     * inject_Z (pt_quantity p))%Q
                    line)
          None "group_buying" None (Some activityId) (Some gid)
          "pending" "unpaid" None None None None now None.

(** One round of [group.participants.forEach]: an order, then its notice. *)
Definition fanOutStep (activityId : string) (activity : Activity) (gid : nat)
    (now : Z) (acc : list Order * list Notification * nat) (p : Participant)
    : list Order * list Notification * nat :=
  let '(os, ns, next) := acc in
  let order := groupOrder next activityId activity gid now p in
  (os ++ [order],
   ns ++ [mkNotification "group_buying_success" (pt_userId p) "user"
                         (o_id order) (Some gid)],
   S next).

Definition newGroup (id : nat) (activityId leader : string) (activity : Activity)
    (now : Z) : Group :=
  mkGroup id activityId leader [] (a_groupSize activity) 0 "recruiting" None
          (now + 24 * 60 * 60 * 1000).

(** [participants.push(p); currentSize++] *)
Definition addParticipant (g : Group) (p : Participant) : Group :=
  mkGroup (g_id g) (g_activityId g) (g_leaderId g) (g_participants g ++ [p])
          (g_requiredSize g) (g_currentSize g + 1) (g_status g)
          (g_completedAt g) (g_expiresAt g).

(** [status = 'completed'; completedAt = new Date()] *)
Definition complete (g : Group) (now : Z) : Group :=
  mkGroup (g_id g) (g_activityId g) (g_leaderId g) (g_participants g)
          (g_requiredSize g) (g_currentSize g) "completed" (Some now)
          (g_expiresAt g).

Definition bumpGroups (a : Activity) : Activity :=
  mkActivity (a_productId a) (a_groupSize a) (a_originalPrice a)
             (a_groupPrice a) (a_startTime a) (a_endTime a) (a_maxGroups a)
             (a_currentGroups a + 1) (a_totalParticipants a).

Definition bumpParticipants (a : Activity) : Activity :=
  mkActivity (a_productId a) (a_groupSize a) (a_originalPrice a)
             (a_groupPrice a) (a_startTime a) (a_endTime a) (a_maxGroups a)
             (a_currentGroups a) (a_totalParticipants a + 1).

Definition hasJoined (g : Group) (userId : string) : bool :=
  existsb (fun p => (pt_userId p =? userId)%string) (g_participants g).

(** The part of the handler after the group has been chosen or opened:
    [gkey] is the key of [group] in [database.groupBuyingGroups];
    [activity1], [next1] are the activity and the id supply at that point. *)
Definition joinGroup (user : User) (req : JoinReq) (now : Z) (db : Database)
    (activity1 : Activity) (gkey : nat) (group : Group) (next1 : nat)
    : Database * Response (Group * Activity) :=
  let groups1 := <[gkey := group]> (groupBuyingGroups db) in
  let acts1 := <[jr_activityId req := activity1]> (groupBuyingActivities db) in
  if hasJoined group (u_id user)
  then (mkDatabase (users db) (products db) (orders db) (coupons db)
                   (notifications db) acts1 groups1 (flashSales db) next1,
        Failure AlreadyJoined)
  else
    let g1 := addParticipant group
                (mkParticipant (u_id user) (u_username user) (jr_quantity req) now) in
    let '(g2, os, ns, next2) :=
      if g_requiredSize g1 <=? g_currentSize g1
      then
        let g2 := complete g1 now in
        let '(os, ns, next2) :=
          fold_left (fanOutStep (jr_activityId req) activity1 (g_id g2) now)
                    (g_participants g2)
                    (orders db, notifications db, next1) in
        (g2, os, ns, next2)
      else (g1, orders db, notifications db, next1) in
    let activity2 := bumpParticipants activity1 in
    (mkDatabase (users db) (products db) os (coupons db) ns
                (<[jr_activityId req := activity2]> (groupBuyingActivities db))
                (<[gkey := g2]> (groupBuyingGroups db))
                (flashSales db) next2,
     Success (g2, activity2)).

Definition joinGroupBuying (uid : string) (req : JoinReq) (now : Z)
    (db : Database) : Database * Response (Group * Activity) :=
  match verifyToken uid db with
  | None => (db, Failure Unauthorized)
  | Some user =>
    match groupBuyingActivities db !! jr_activityId req with
    | None => (db, Failure ActivityNotFound)
    | Some activity =>
      if (now <? a_startTime activity) || (a_endTime activity <? now)
      then (db, Failure ActivityNotActive)
      else
        match jr_groupId req with
        | Some gid =>
          match groupBuyingGroups db !! gid with
          | Some group =>
            if (g_status group =? "recruiting")%string
            then joinGroup user req now db activity gid group (nextId db)
            else (db, Failure GroupUnavailable)
          | None => (db, Failure GroupUnavailable)
          end
        | None =>
          joinGroup user req now db (bumpGroups activity) (nextId db)
                    (newGroup (nextId db) (jr_activityId req) (u_id user)
                              activity now)
                    (S (nextId db))
        end
    end
  end.

(** ** Runs of the server *)

Inductive Request :=
  | CreateOrder (uid : string) (req : CreateOrderReq) (now : Z)
  | UpdateStatus (uid : string) (req : StatusReq) (now : Z)
  | PayOrder (uid : string) (req : PayReq) (now : Z)
  | PurchaseFlashSale (uid : string) (req : PurchaseReq) (now : Z)
  | JoinGroupBuy (uid : string) (req : JoinReq) (now : Z).

Definition handle (r : Request) (db : Database) : Database :=
  match r with
  | CreateOrder uid req now => fst (createOrder uid req now db)
  | UpdateStatus uid req now => fst (updateOrderStatus uid req now db)
  | PayOrder uid req now => fst (payOrder uid req now db)
  | PurchaseFlashSale uid req now => fst (purchaseFlashSale uid req now db)
  | JoinGroupBuy uid req now => fst (joinGroupBuying uid req now db)
  end.

Definition run (rs : list Request) (db : Database) : Database :=
  fold_left (fun d r => handle r d) rs db.

(** * Definitions used to state the properties *)

(** ** Prices and amounts *)

(** The unit price by role, in the words of the pricing rule: distributors
    pay the distributor price, retailers the retailer price, everybody else
    the selling price. *)
Definition priceForRole (role : string) (pr : Price) : Q :=
  if decide (role = "distributor") then price_distributor pr
  else if decide (role = "retailer") then price_retailer pr
  else price_selling pr.

(** A line of the order built from a requested item, given the price list. *)
Definition lineOf (role : string) (pm : gmap string Price) (it : ItemReq)
    (oi : OrderItem) : Prop :=
  ∃ pr, pm !! productId it = Some pr ∧
        oi = mkOrderItem (productId it) (priceForRole role pr) (quantity it)
                         (priceForRole role pr * inject_Z (quantity it))%Q.

Definition sumTotals (l : list OrderItem) : Q :=
  foldr (fun oi acc => (oi_total oi + acc)%Q) 0%Q l.

(** The amount summary of a promotional order: [subtotal] and [total] are
    both the promotional line total, [discount] is the saving against the
    original price. *)
Definition promoAmount (o : Order) : Prop :=
  ∃ productId unit original q,
    o_items o = [mkOrderItem productId unit q (unit * inject_Z q)%Q]
    ∧ o_amount o = mkAmount (unit * inject_Z q)%Q
                            ((original - unit) * inject_Z q)%Q
                            (unit * inject_Z q)%Q.

(** ** Flash-sale bounds *)

(** The flash-sale bounds: sold units within the cap, every recorded buyer
    within the per-user limit. *)
Definition saleInv (sale : FlashSale) : Prop :=
  fs_soldCount sale <= fs_inventory sale
  ∧ ∀ userId n, fs_participants sale !! userId = Some n → n <= fs_limitPerUser sale.

Definition salesInv (db : Database) : Prop :=
  ∀ saleId sale, flashSales db !! saleId = Some sale → saleInv sale.

(** ** Referral chains *)

(** Who refers whom: the [referrerId] of every stored user. *)
Definition refs (us : gmap string User) : gmap string (option string) :=
  (λ u, referrerId (u_profile u)) <$> us.

(** The referrers met when walking up from a [referrerId], at most [depth]
    of them; the walk stops at an empty [referrerId] and at one that names
    no stored user. *)
Fixpoint referralChain (depth : nat) (rv : gmap string (option string))
    (rid : option string) : list string :=
  match depth with
  | O => []
  | S d =>
    match truthy rid with
    | None => []
    | Some r =>
      match rv !! r with
      | None => []
      | Some rid' => r :: referralChain d rv rid'
      end
    end
  end.

(** 5%, 3% and 1% for the first, second and third referrer. *)
Definition rates : list Q := [5 # 100; 3 # 100; 1 # 100]%Q.

(** What user [k] earns from an order of [total] when the referrers and
    their rates are [levels]: the sum of the shares of the levels at which
    [k] stands. *)
Definition shares (levels : list (string * Q)) (total : Q) (k : string) : Q :=
  foldr (λ lv acc, ((if decide (lv.1 = k) then total * lv.2 else 0) + acc)%Q)
        0%Q levels.

Definition commission (chain : list string) (total : Q) (k : string) : Q :=
  shares (zip chain rates) total k.

(** [us'] is [us] with [delta k] added to the wallet of every user [k];
    nobody appears, disappears or changes referrer. *)
Definition credited (us us' : gmap string User) (delta : string → Q) : Prop :=
  ∀ k, match us !! k, us' !! k with
       | Some u, Some u' =>
         u_id u' = u_id u
         ∧ referrerId (u_profile u') = referrerId (u_profile u)
         ∧ (wallet (u_profile u') == wallet (u_profile u) + delta k)%Q
       | None, None => True
       | _, _ => False
       end.

(** The order [id] is stored with [paymentStatus = 'paid']. *)
Definition paidOrder (db : Database) (id : nat) : Prop :=
  ∃ o, getOrder (orders db) id = Some o ∧ o_paymentStatus o = "paid".

(** ** Stock invariants *)

(** [available + reserved <= total] *)
Definition withinTotal (i : Inventory) : Prop :=
  inv_available i + inv_reserved i <= inv_total i.

(** [available + reserved <= total] and [available >= 0] *)
Definition stockInv (i : Inventory) : Prop :=
  inv_available i + inv_reserved i <= inv_total i ∧ 0 <= inv_available i.

(** The three bounds of the data model. *)
Definition fullInv (i : Inventory) : Prop :=
  inv_available i + inv_reserved i <= inv_total i
  ∧ 0 <= inv_available i ∧ 0 <= inv_reserved i.

(** Every product satisfies [P]. *)
Definition allProducts (P : Inventory → Prop) (ps : gmap string Product) : Prop :=
  ∀ id p, ps !! id = Some p → P (p_inventory p).

(** Every quantity held in the store (order lines, group participants)
    satisfies [G]. *)
Definition allQuantities (G : Z → Prop) (db : Database) : Prop :=
  Forall (λ o, Forall (λ it, G (oi_quantity it)) (o_items o)) (orders db)
  ∧ ∀ k g, groupBuyingGroups db !! k = Some g →
           Forall (λ p, G (pt_quantity p)) (g_participants g).

(** Every quantity of a request satisfies [G]. *)
Definition requestQuantities (G : Z → Prop) (r : Request) : Prop :=
  match r with
  | CreateOrder _ req _ => Forall (λ it, G (quantity it)) (items req)
  | PurchaseFlashSale _ req _ => G (pq_quantity req)
  | JoinGroupBuy _ req _ => G (jr_quantity req)
  | UpdateStatus _ _ _ | PayOrder _ _ _ => True
  end.

Definition nonneg (q : Z) : Prop := 0 <= q.
Definition anyQuantity (q : Z) : Prop := True.

(** The three moves of a stock record. *)
Definition reserveInv (i : Inventory) (q : Z) : Inventory :=
  mkInventory (inv_total i) (inv_available i - q) (inv_reserved i + q)
              (inv_threshold i).
Definition releaseInv (i : Inventory) (q : Z) : Inventory :=
  mkInventory (inv_total i) (inv_available i + q) (inv_reserved i - q)
              (inv_threshold i).
Definition confirmInv (i : Inventory) (q : Z) : Inventory :=
  mkInventory (inv_total i - q) (inv_available i) (inv_reserved i - q)
              (inv_threshold i).

Definition dbInv (P : Inventory → Prop) (G : Z → Prop) (db : Database) : Prop :=
  allProducts P (products db) ∧ allQuantities G db.

(** ** Orders as the groups see them *)

(** The fields of an order that no handler rewrites. *)
Definition core (o : Order) : nat * string * list OrderItem * Amount * option nat :=
  (o_id o, o_userId o, o_items o, o_amount o, o_groupId o).

Definition sameCore (o o' : Order) : Prop := core o' = core o.

Definition cores (db : Database) : list (nat * string * list OrderItem * Amount * option nat) :=
  map core (orders db).

Definition coreGroup (c : nat * string * list OrderItem * Amount * option nat)
    : option nat := c.2.

(** The orders, and the notices, that belong to group [k]. *)
Definition coresOf (k : nat)
    (cs : list (nat * string * list OrderItem * Amount * option nat)) :=
  filter (λ c, coreGroup c = Some k) cs.

Definition noticesOf (k : nat) (ns : list Notification) : list Notification :=
  filter (λ n, n_groupId n = Some k) ns.

(** What the handlers other than the group join may do to the part of the
    store the groups depend on: append orders and notices that belong to no
    group, and draw fresh identifiers. *)
Definition gframe (db db' : Database) : Prop :=
  ∃ cs' ns',
    cores db' = cores db ++ cs'
    ∧ Forall (λ c, coreGroup c = None) cs'
    ∧ notifications db' = notifications db ++ ns'
    ∧ Forall (λ n, n_groupId n = None) ns'
    ∧ (nextId db <= nextId db')%nat
    ∧ groupBuyingGroups db' = groupBuyingGroups db
    ∧ groupBuyingActivities db' = groupBuyingActivities db.

(** ** Group buying *)

(** The orders and notices of a completed group, in participant order,
    with identifiers drawn from [next] on. *)
Definition fanOutOrders (activityId : string) (activity : Activity) (gid : nat)
    (now : Z) (next : nat) (ps : list Participant) : list Order :=
  imap (fun i p => groupOrder (next + i) activityId activity gid now p) ps.

Definition fanOutNotices (gid : nat) (next : nat) (ps : list Participant)
    : list Notification :=
  imap (fun i p => mkNotification "group_buying_success" (pt_userId p) "user"
                                  (next + i) (Some gid)) ps.

(** [c] is the order of participant [p] in the fan-out of group [k]:
    one line at the group price, total = group price x quantity. *)
Definition orderFor (k : nat) (productId : string) (groupPrice original : Q)
    (p : Participant)
    (c : nat * string * list OrderItem * Amount * option nat) : Prop :=
  let line := (groupPrice * inject_Z (pt_quantity p))%Q in
  ∃ id, c = (id, pt_userId p,
             [mkOrderItem productId groupPrice (pt_quantity p) line],
             mkAmount line ((original - groupPrice) * inject_Z (pt_quantity p))%Q
                      line,
             Some k).

Definition noticeFor (k : nat) (p : Participant) (n : Notification) : Prop :=
  n_type n = "group_buying_success" ∧ n_recipientId n = pt_userId p
  ∧ n_recipientType n = "user" ∧ n_groupId n = Some k.

(** The state of one group, stored under key [k], against the orders and
    notices of the store: while recruiting it is short of its size and has
    no order; once completed it has exactly its required size and exactly
    one order and one notice per participant, in joining order. *)
Definition groupInv
    (cs : list (nat * string * list OrderItem * Amount * option nat))
    (ns : list Notification) (k : nat) (g : Group) : Prop :=
  g_id g = k
  ∧ g_currentSize g = Z.of_nat (length (g_participants g))
  ∧ 1 <= g_requiredSize g
  ∧ ((g_status g = "recruiting"
      ∧ g_currentSize g < g_requiredSize g
      ∧ coresOf k cs = [] ∧ noticesOf k ns = [])
     ∨ (g_status g = "completed"
        ∧ g_currentSize g = g_requiredSize g
        ∧ (∃ productId groupPrice original,
              Forall2 (orderFor k productId groupPrice original)
                      (g_participants g) (coresOf k cs))
        ∧ Forall2 (noticeFor k) (g_participants g) (noticesOf k ns))).

Definition groupsInv (db : Database) : Prop :=
  (∀ k g, groupBuyingGroups db !! k = Some g →
          groupInv (cores db) (notifications db) k g ∧ (k < nextId db)%nat)
  ∧ Forall (λ c, ∀ k, coreGroup c = Some k → (k < nextId db)%nat) (cores db)
  ∧ Forall (λ n, ∀ k, n_groupId n = Some k → (k < nextId db)%nat)
           (notifications db)
  ∧ (∀ aid a, groupBuyingActivities db !! aid = Some a → 1 <= a_groupSize a).



(** * The demonstration store and the stores of the examples *)

Definition prod1 : Product :=
  mkProduct "prod1" (mkPrice 9999 8999 8500 8800) (mkInventory 100 95 5 10)
            "supplier1".

Definition prod2 : Product :=
  mkProduct "prod2" (mkPrice 5999 5499 5200 5400) (mkInventory 80 78 2 15)
            "supplier1".

Definition coupon1 : Coupon :=
  mkCoupon "coupon1" "NEWUSER10" "percentage" 10 100 (Some 50%Q) 1000 0 "active".

Definition initDatabase : Database :=
  mkDatabase
    (<["supplier1" := mkUser "supplier1" "supplier1" "supplier" (mkProfile 0 5000 None)]>
       (<["admin1" := mkUser "admin1" "admin" "admin" (mkProfile 0 0 None)]> ∅))
    (<["prod2" := prod2]> (<["prod1" := prod1]> ∅))
    [] [coupon1] [] ∅ ∅ ∅ 0.

(** A user as [POST /register] stores it, with the referrer an admin may
    attach to the profile. *)
Definition registered (id role : string) (referrer : option string) : User :=
  mkUser id id role
         (mkProfile (if (role =? "customer")%string then 100 else 0) 0 referrer).

Definition withUser (u : User) (db : Database) : Database :=
  set_users db (<[u_id u := u]> (users db)).

(** The demonstration store with a distributor and a customer registered. *)
Definition shopDb : Database :=
  withUser (registered "cust1" "customer" None)
    (withUser (registered "dist1" "distributor" None) initDatabase).

Definition oneIphone : CreateOrderReq :=
  mkCreateOrderReq [mkItemReq "prod1" 1] None "online" None.

Definition sale1 : FlashSale :=
  mkFlashSale "prod1" 9999 7999 5 0 0 100 1 ∅ "scheduled".

(** [shopDb] after [POST /flash-sale] has stored [sale1]. *)
Definition saleDb : Database :=
  mkDatabase (users shopDb) (products shopDb) (orders shopDb) (coupons shopDb)
             (notifications shopDb) (groupBuyingActivities shopDb)
             (groupBuyingGroups shopDb) (<["sale1" := sale1]> ∅) (nextId shopDb).




Definition oneIphoneWith (code : string) : CreateOrderReq :=
  mkCreateOrderReq [mkItemReq "prod1" 1] (Some code) "online" None.


(** One unit of [prod1] and a thousand of [prod2] (78 are available). *)
Definition twoLines : CreateOrderReq :=
  mkCreateOrderReq [mkItemReq "prod1" 1; mkItemReq "prod2" 1000] None "online"
                   None.

Definition twoIphones : CreateOrderReq :=
  mkCreateOrderReq [mkItemReq "prod1" 2] None "online" None.

Definition inventoryOf (db : Database) (id : string) : option Inventory :=
  p_inventory <$> products db !! id.

Definition statusOf (db : Database) (id : nat) : option string :=
  o_status <$> getOrder (orders db) id.

(** A referral tree of depth three above the buyer ["cust1"]. *)
Definition referralDb : Database :=
  withUser (registered "cust1" "customer" (Some "ref1"%string))
    (withUser (registered "ref1" "customer" (Some "ref2"%string))
       (withUser (registered "ref2" "customer" (Some "ref3"%string))
          (withUser (registered "ref3" "customer" (Some "ref4"%string))
             (withUser (registered "ref4" "customer" None) initDatabase)))).

Definition walletOf (db : Database) (id : string) : option Q :=
  (λ u, Qred (wallet (u_profile u))) <$> users db !! id.

(** An order of 1000 placed by ["cust1"] on a product priced 1000. *)
Definition thousandDb : Database :=
  set_products referralDb
    (<["prod3" := mkProduct "prod3" (mkPrice 1000 1000 1000 1000)
                            (mkInventory 10 10 0 1) "supplier1"]>
       (products referralDb)).

Definition oneThousand : CreateOrderReq :=
  mkCreateOrderReq [mkItemReq "prod3" 1] None "online" None.

(** A group-buying activity for three, as [POST /group-buying] stores it,
    and three customers. *)
Definition trio : Activity :=
  mkActivity "prod1" 3 8999 7999 0 100 100 0 0.

Definition groupDb : Database :=
  let db := withUser (registered "cust3" "customer" None)
              (withUser (registered "cust2" "customer" None) shopDb) in
  mkDatabase (users db) (products db) (orders db) (coupons db)
             (notifications db) (<["act1" := trio]> ∅)
             (groupBuyingGroups db) (flashSales db) (nextId db).

Definition twoJoins : list Request :=
  [JoinGroupBuy "cust1" (mkJoinReq "act1" None 1) 1;
   JoinGroupBuy "cust2" (mkJoinReq "act1" (Some 0%nat) 2) 2].



(** ** Amounts of promotional orders, by price *)

(** [o] is an order of one line, [q] units of [productId] at the price
    [unit], with the amount summary the marketing routes write: [subtotal]
    and [total] are the line total, [discount] is the saving against
    [original]. *)
Definition promoOrderAt (productId : string) (unit original : Q) (q : Z)
    (o : Order) : Prop :=
  o_items o = [mkOrderItem productId unit q (unit * inject_Z q)%Q]
  ∧ o_amount o = mkAmount (unit * inject_Z q)%Q
                          ((original - unit) * inject_Z q)%Q
                          (unit * inject_Z q)%Q.

(** [o] is the order of participant [p] at the prices of [activity]. *)
Definition groupOrderAt (activity : Activity) (p : Participant) (o : Order)
    : Prop :=
  o_userId o = pt_userId p
  ∧ promoOrderAt (a_productId activity) (a_groupPrice activity)
                 (a_originalPrice activity) (pt_quantity p) o.

(** ** Stores of the group examples *)




(** * Further routes of the same files *)

From Stdlib Require Import Sorted.

(** ** [requireRole] (src/middleware/auth.js) *)

(** [roles.includes(req.user.role)] *)
Definition requireRole (roles : list string) (user : User) : bool :=
  existsb (String.eqb (u_role user)) roles.

(** ** Order listing: [GET /] (src/routes/orders.js) *)

Record ListReq := mkListReq {
  lq_page : Z;                     (* [page = 1] when the query has none *)
  lq_limit : Z;                    (* [limit = 10] when the query has none *)
  lq_status : option string;
  lq_orderType : option string
}.

(** The first [filter]: administrators see every order, a supplier the
    orders with one of the supplier's products, anybody else their own. *)
Definition canSee (user : User) (ps : gmap string Product) (order : Order)
    : bool :=
  if (u_role user =? "admin")%string then true
  else if (u_role user =? "supplier")%string
  then existsb (suppliesItem ps (u_id user)) (o_items order)
  else (o_userId order =? u_id user)%string.

(** [if (x) list = list.filter(o => f(o) === x)] for an optional query
    parameter. *)
Definition filterBy (x : option string) (f : Order -> string)
    (l : list Order) : list Order :=
  match truthy x with
  | Some v => List.filter (fun o => (f o =? v)%string) l
  | None => l
  end.

(** [orders.sort((a, b) => new Date(b.createdAt) - new Date(a.createdAt))]:
    newest first; [Array.prototype.sort] is stable, so orders created at
    the same instant keep their relative position.  The stable sort is
    written as an insertion sort. *)
Fixpoint insertByDate (o : Order) (l : list Order) : list Order :=
  match l with
  | [] => [o]
  | x :: r => if o_createdAt x <=? o_createdAt o then o :: x :: r
              else x :: insertByDate o r
  end.

Definition sortByDate (l : list Order) : list Order :=
  List.fold_right insertByDate [] l.

(** [Array.prototype.slice(start, end)] on integer arguments: a negative
    index counts from the end, both indices are clamped to the array. *)
Definition jsSlice {A} (l : list A) (s e : Z) : list A :=
  let len := Z.of_nat (length l) in
  let k := if s <? 0 then Z.max (len + s) 0 else Z.min s len in
  let fin := if e <? 0 then Z.max (len + e) 0 else Z.min e len in
  take (Z.to_nat (fin - k)) (drop (Z.to_nat k) l).

(** [Math.ceil(total / limit)]; [None] stands for the non-finite result of
    a division by zero. *)
Definition ceilDiv (total limit : Z) : option Z :=
  if limit =? 0 then None else Some (- ((- total) / limit)).

Record Pagination := mkPagination {
  pg_current : Z;
  pg_limit : Z;
  pg_total : nat;
  pg_pages : option Z
}.

(** [const startIndex = (page - 1) * limit;
     list.slice(startIndex, startIndex + parseInt(limit))] *)
Definition paginate {A} (page limit : Z) (l : list A) : list A * Pagination :=
  let total := length l in
  let startIndex := (page - 1) * limit in
  (jsSlice l startIndex (startIndex + limit),
   mkPagination page limit total (ceilDiv (Z.of_nat total) limit)).

(** The orders the listing works on, before pagination. *)
Definition listedOrders (user : User) (req : ListReq) (db : Database)
    : list Order :=
  sortByDate
    (filterBy (lq_orderType req) o_orderType
       (filterBy (lq_status req) o_status
          (List.filter (canSee user (products db)) (orders db)))).

Definition listOrders (uid : string) (req : ListReq) (db : Database)
    : Response (list Order * Pagination) :=
  match verifyToken uid db with
  | None => Failure Unauthorized
  | Some user =>
    Success (paginate (lq_page req) (lq_limit req) (listedOrders user req db))
  end.

(** ** Order detail: [GET /:orderId] *)

Definition getOrderDetail (uid : string) (orderId : nat) (db : Database)
    : Response Order :=
  match verifyToken uid db with
  | None => Failure Unauthorized
  | Some user =>
    match getOrder (orders db) orderId with
    | None => Failure OrderNotFound
    | Some order =>
      if negb (u_role user =? "admin")%string
         && negb (o_userId order =? u_id user)%string
      then
        if (u_role user =? "supplier")%string
        then
          if existsb (suppliesItem (products db) (u_id user)) (o_items order)
          then Success order
          else Failure Forbidden
        else Failure Forbidden
      else Success order
    end
  end.

(** ** Order statistics: [GET /stats/overview] *)

Record StatsReq := mkStatsReq {
  sq_startDate : option Z;
  sq_endDate : option Z
}.

Record OrderStats := mkOrderStats {
  totalOrders : nat;
  totalRevenue : Q;
  pendingOrders : nat;
  paidOrders : nat;
  shippedOrders : nat;
  deliveredOrders : nat;
  cancelledOrders : nat;
  onlineOrders : nat;
  offlineOrders : nat;
  liveOrders : nat;
  averageOrderValue : Q
}.

(** [orders.reduce((sum, order) => sum + order.amount.total, 0)] *)
Definition revenueOf (l : list Order) : Q :=
  List.fold_left (fun sum order => (sum + amt_total (o_amount order))%Q) l 0%Q.

Definition countStatus (s : string) (l : list Order) : nat :=
  length (List.filter (fun o => (o_status o =? s)%string) l).

Definition countType (s : string) (l : list Order) : nat :=
  length (List.filter (fun o => (o_orderType o =? s)%string) l).

(** The orders the statistics are taken over. *)
Definition statsOrders (user : User) (req : StatsReq) (db : Database)
    : list Order :=
  let l1 :=
    if (u_role user =? "supplier")%string
    then List.filter
           (fun order => existsb (suppliesItem (products db) (u_id user))
                                 (o_items order))
           (orders db)
    else orders db in
  match sq_startDate req, sq_endDate req with
  | Some s, Some e =>
    List.filter (fun order => (s <=? o_createdAt order)
                              && (o_createdAt order <=? e)) l1
  | _, _ => l1
  end.

Definition statsOf (l : list Order) : OrderStats :=
  mkOrderStats (length l) (revenueOf l)
    (countStatus "pending" l) (countStatus "paid" l) (countStatus "shipped" l)
    (countStatus "delivered" l) (countStatus "cancelled" l)
    (countType "online" l) (countType "offline" l) (countType "live" l)
    (if (0 <? length l)%nat
     then (revenueOf l / inject_Z (Z.of_nat (length l)))%Q else 0%Q).

Definition orderStats (uid : string) (req : StatsReq) (db : Database)
    : Response OrderStats :=
  match verifyToken uid db with
  | None => Failure Unauthorized
  | Some user =>
    if requireRole ["admin"; "supplier"]%string user
    then Success (statsOf (statsOrders user req db))
    else Failure Forbidden
  end.

(** ** Team of a referrer: [GET /referral/my-team] (src/routes/marketing.js) *)

(** [Array.from(database.users.values())].  The store does not record the
    insertion order of the [Map]; the users come in the order of
    [map_to_list], and the results below are read up to order. *)
Definition allUsers (db : Database) : list User :=
  (map_to_list (users db)).*2.

(** [users.filter(user => ids.includes(user.profile.referrerId))] *)
Definition referredBy (ids : list string) (us : list User) : list User :=
  List.filter
    (fun user => match referrerId (u_profile user) with
                 | Some r => existsb (String.eqb r) ids
                 | None => false
                 end) us.

Record Team := mkTeam {
  tm_level1 : list User;
  tm_level2 : list User;
  tm_level3 : list User
}.

Definition teamOf (me : User) (db : Database) : Team :=
  let us := allUsers db in
  let level1 := referredBy [u_id me] us in
  let level2 := referredBy (map u_id level1) us in
  let level3 := referredBy (map u_id level2) us in
  mkTeam level1 level2 level3.

Definition isMember (user : User) (l : list User) : bool :=
  existsb (fun u => (u_id u =? u_id user)%string) l.

(** The commission shown for one paid order of a team member. *)
Definition shownCommission (t : Team) (user : User) (order : Order) : Q :=
  if isMember user (tm_level1 t) then (amt_total (o_amount order) * (5 # 100))%Q
  else if isMember user (tm_level2 t)
  then (amt_total (o_amount order) * (3 # 100))%Q
  else (amt_total (o_amount order) * (1 # 100))%Q.

Definition paidOrdersOf (user : User) (os : list Order) : list Order :=
  List.filter (fun order => (o_userId order =? u_id user)%string
                            && (o_paymentStatus order =? "paid")%string) os.

Record TeamReport := mkTeamReport {
  tr_level1Count : nat;
  tr_level2Count : nat;
  tr_level3Count : nat;
  tr_totalTeam : nat;
  tr_totalCommission : Q;
  tr_thisMonthCommission : Q;
  tr_team : Team
}.

(** The two nested [forEach] loops; [monthStart] is the first instant of
    the current month on the server's clock. *)
Definition teamCommission (t : Team) (os : list Order) (monthStart : Z) : Q * Q :=
  List.fold_left
    (fun acc user =>
       List.fold_left
         (fun acc' order =>
            let c := shownCommission t user order in
            ((fst acc' + c)%Q,
             if monthStart <=? o_createdAt order then (snd acc' + c)%Q
             else snd acc'))
         (paidOrdersOf user os) acc)
    (tm_level1 t ++ tm_level2 t ++ tm_level3 t) (0%Q, 0%Q).

Definition myTeam (uid : string) (monthStart : Z) (db : Database)
    : Response TeamReport :=
  match verifyToken uid db with
  | None => Failure Unauthorized
  | Some me =>
    let t := teamOf me db in
    let '(total, thisMonth) := teamCommission t (orders db) monthStart in
    Success (mkTeamReport (length (tm_level1 t)) (length (tm_level2 t))
               (length (tm_level3 t))
               (length (tm_level1 t) + length (tm_level2 t)
                + length (tm_level3 t))
               total thisMonth t)
  end.

(** ** Creating promotions: [POST /flash-sale], [POST /group-buying]

    [newId] is the value [uuidv4()] returns. *)

Record FlashSaleReq := mkFlashSaleReq {
  fq_productId : string;
  fq_originalPrice : Q;
  fq_salePrice : Q;
  fq_inventory : Z;
  fq_startTime : Z;
  fq_endTime : Z;
  fq_limitPerUser : Z              (* [limitPerUser = 1] when the body has none *)
}.

Definition createFlashSale (uid : string) (req : FlashSaleReq) (newId : string)
    (db : Database) : Database * Response FlashSale :=
  match verifyToken uid db with
  | None => (db, Failure Unauthorized)
  | Some user =>
    if negb (requireRole ["admin"; "supplier"]%string user)
    then (db, Failure Forbidden)
    else
      match products db !! fq_productId req with
      | None => (db, Failure ProductNotFound)
      | Some _ =>
        let flashSale :=
          mkFlashSale (fq_productId req) (fq_originalPrice req)
                      (fq_salePrice req) (fq_inventory req) 0
                      (fq_startTime req) (fq_endTime req)
                      (fq_limitPerUser req) ∅ "scheduled" in
        (mkDatabase (users db) (products db) (orders db) (coupons db)
                    (notifications db) (groupBuyingActivities db)
                    (groupBuyingGroups db)
                    (<[newId := flashSale]> (flashSales db)) (nextId db),
         Success flashSale)
      end
  end.

Record ActivityReq := mkActivityReq {
  aq_productId : string;
  aq_groupSize : Z;
  aq_originalPrice : Q;
  aq_groupPrice : Q;
  aq_startTime : Z;
  aq_endTime : Z;
  aq_maxGroups : Z                 (* [maxGroups = 100] when the body has none *)
}.

Definition createGroupBuying (uid : string) (req : ActivityReq) (newId : string)
    (db : Database) : Database * Response Activity :=
  match verifyToken uid db with
  | None => (db, Failure Unauthorized)
  | Some user =>
    if negb (requireRole ["admin"; "supplier"]%string user)
    then (db, Failure Forbidden)
    else
      match products db !! aq_productId req with
      | None => (db, Failure ProductNotFound)
      | Some _ =>
        let groupBuying :=
          mkActivity (aq_productId req) (aq_groupSize req)
                     (aq_originalPrice req) (aq_groupPrice req)
                     (aq_startTime req) (aq_endTime req) (aq_maxGroups req)
                     0 0 in
        (mkDatabase (users db) (products db) (orders db) (coupons db)
                    (notifications db)
                    (<[newId := groupBuying]> (groupBuyingActivities db))
                    (groupBuyingGroups db) (flashSales db) (nextId db),
         Success groupBuying)
      end
  end.

(** ** The store with the points mall and the pick-up verifications

    [database.pointsMallItems] and [database.pointsExchanges] are created
    on first use by the marketing routes.  [verifications] holds the
    [verification] property that the pick-up route adds to an order object,
    under the order's id. *)

Record MallItem := mkMallItem {
  mi_pointsRequired : Z;
  mi_cashRequired : option Q;
  mi_inventory : Z;
  mi_exchangeCount : option Z;
  mi_category : string;
  mi_status : string
}.

Record Exchange := mkExchange {
  ex_id : nat;
  ex_userId : string;
  ex_itemId : string;
  ex_quantity : Z;
  ex_pointsUsed : Z;
  ex_cashUsed : Q;
  ex_status : string;
  ex_createdAt : Z
}.

Record Verification := mkVerification {
  vf_verifiedBy : string;
  vf_verifiedAt : Z;
  vf_verificationCode : string
}.

Record Store := mkStore {
  base : Database;
  pointsMallItems : gmap string MallItem;
  pointsExchanges : list Exchange;
  verifications : gmap nat Verification
}.

Inductive Refusal :=
  | NotSignedIn           (* 401, verifyToken *)
  | RoleRefused           (* 403, requireRole *)
  | NoSuchOrder           (* 404 *)
  | NotPickUpOrder        (* 400, the order is not an offline order *)
  | AlreadyVerified       (* 400, the order is already delivered *)
  | WrongCode             (* 400 *)
  | NoSuchItem            (* 404 *)
  | NotEnoughPoints       (* 400 *)
  | NotEnoughWallet       (* 400 *)
  | OutOfStock            (* 400 *)
  | Crashed.              (* 500, an exception reached the catch block *)

Inductive Outcome (A : Type) :=
  | Accepted (a : A)
  | Refused (e : Refusal).
Arguments Accepted {A} a.
Arguments Refused {A} e.

Definition set_base (st : Store) (db : Database) : Store :=
  mkStore db (pointsMallItems st) (pointsExchanges st) (verifications st).

(** ** Pick-up verification: [POST /:orderId/verify] (src/routes/orders.js) *)

(** [c.toUpperCase()] on an ASCII character. *)
Definition upperAscii (c : Ascii.ascii) : Ascii.ascii :=
  let n := Ascii.nat_of_ascii c in
  if ((97 <=? n) && (n <=? 122))%nat then Ascii.ascii_of_nat (n - 32) else c.

(** [s.toUpperCase()], exact on ASCII text (order ids are [uuidv4()]
    texts: hexadecimal digits and dashes). *)
Fixpoint toUpperCase (s : string) : string :=
  match s with
  | EmptyString => EmptyString
  | String c r => String (upperAscii c) (toUpperCase r)
  end.

(** [s.slice(-n)]: the last [n] characters, the whole text when it is
    shorter. *)
Definition lastChars (n : nat) (s : string) : string :=
  String.substring (String.length s - n) n s.

(** [order.id.slice(-6).toUpperCase()]; [idText] gives the text of an
    order id. *)
Definition expectedCode (idText : nat -> string) (order : Order) : string :=
  toUpperCase (lastChars 6 (idText (o_id order))).

(** [order.status = 'delivered'] *)
Definition setDelivered (o : Order) : Order :=
  mkOrder (o_id o) (o_userId o) (o_items o) (o_amount o) (o_coupon o)
          (o_orderType o) (o_storeId o) (o_promotionId o) (o_groupId o)
          "delivered" (o_paymentStatus o) (o_shippingStatus o) (o_timeline o)
          (o_payment o) (o_refund o) (o_createdAt o) (o_updatedAt o).

(** The handler.  An order without [timeline] makes [order.timeline.push]
    throw after [status] and [verification] were written. *)
Definition verifyOrder (idText : nat -> string) (uid : string) (orderId : nat)
    (verificationCode : string) (now : Z) (st : Store)
    : Store * Outcome Order :=
  match verifyToken uid (base st) with
  | None => (st, Refused NotSignedIn)
  | Some user =>
    if negb (requireRole ["admin"; "retailer"]%string user)
    then (st, Refused RoleRefused)
    else
      match getOrder (orders (base st)) orderId with
      | None => (st, Refused NoSuchOrder)
      | Some order =>
        if negb (o_orderType order =? "offline")%string
        then (st, Refused NotPickUpOrder)
        else if (o_status order =? "delivered")%string
        then (st, Refused AlreadyVerified)
        else if negb (verificationCode =? expectedCode idText order)%string
        then (st, Refused WrongCode)
        else
          let o1 := setDelivered order in
          let vs := <[orderId := mkVerification (u_id user) now verificationCode]>
                      (verifications st) in
          match o_timeline o1 with
          | None =>
            (mkStore (set_orders (base st) (putOrder (orders (base st)) o1))
                     (pointsMallItems st) (pointsExchanges st) vs,
             Refused Crashed)
          | Some tl =>
            let o2 := setTimeline o1 (tl ++ [mkTimelineEntry "delivered" now]) in
            (mkStore (set_orders (base st) (putOrder (orders (base st)) o2))
                     (pointsMallItems st) (pointsExchanges st) vs,
             Accepted o2)
          end
      end
  end.

(** ** Points mall: [POST /points-mall/:itemId/exchange] (src/routes/marketing.js) *)

(** [item.cashRequired ? item.cashRequired * quantity : 0] *)
Definition cashNeeded (item : MallItem) (q : Z) : Q :=
  match mi_cashRequired item with
  | Some c => if Qeq_bool c 0 then 0%Q else (c * inject_Z q)%Q
  | None => 0%Q
  end.

(** [req.user.profile.points -= p; if (c > 0) req.user.profile.wallet -= c] *)
Definition charge (u : User) (p : Z) (c : Q) : User :=
  set_profile u
    (mkProfile (points (u_profile u) - p)
               (if Qle_bool c 0 then wallet (u_profile u)
                else (wallet (u_profile u) - c)%Q)
               (referrerId (u_profile u))).

(** [item.inventory -= q; item.exchangeCount = (item.exchangeCount || 0) + q] *)
Definition takeFromMall (item : MallItem) (q : Z) : MallItem :=
  mkMallItem (mi_pointsRequired item) (mi_cashRequired item)
             (mi_inventory item - q)
             (Some (default 0 (mi_exchangeCount item) + q))
             (mi_category item) (mi_status item).

Definition exchangePoints (uid : string) (itemId : string) (q : Z) (now : Z)
    (st : Store) : Store * Outcome Exchange :=
  match verifyToken uid (base st) with
  | None => (st, Refused NotSignedIn)
  | Some user =>
    match pointsMallItems st !! itemId with
    | None => (st, Refused NoSuchItem)
    | Some item =>
      let totalPointsNeeded := mi_pointsRequired item * q in
      let totalCashNeeded := cashNeeded item q in
      if points (u_profile user) <? totalPointsNeeded
      then (st, Refused NotEnoughPoints)
      else if negb (Qle_bool totalCashNeeded 0)
              && negb (Qle_bool totalCashNeeded (wallet (u_profile user)))
      then (st, Refused NotEnoughWallet)
      else if mi_inventory item <? q
      then (st, Refused OutOfStock)
      else
        let db := base st in
        let exchange :=
          mkExchange (nextId db) (u_id user) itemId q totalPointsNeeded
                     totalCashNeeded "pending" now in
        (mkStore
           (mkDatabase
              (<[uid := charge user totalPointsNeeded totalCashNeeded]> (users db))
              (products db) (orders db) (coupons db) (notifications db)
              (groupBuyingActivities db) (groupBuyingGroups db)
              (flashSales db) (S (nextId db)))
           (<[itemId := takeFromMall item q]> (pointsMallItems st))
           (pointsExchanges st ++ [exchange])
           (verifications st),
         Accepted exchange)
    end
  end.

(** ** Listing the points mall: [GET /points-mall] *)




(** * Definitions used to state the further properties *)

(** ** Stock moved by an order *)

(** [p] with [da], [dr], [dt] added to available, reserved and total. *)
Definition moveStock (p : Product) (da dr dt : Z) : Product :=
  let i := p_inventory p in
  set_inventory p
    (mkInventory (inv_total i + dt) (inv_available i + da) (inv_reserved i + dr)
                 (inv_threshold i)).

(** The quantity of product [id] asked for by a request, over all its lines. *)
Definition orderedQty (its : list ItemReq) (id : string) : Z :=
  foldr (λ it acc, if decide (productId it = id) then quantity it + acc else acc)
        0 its.

(** The same over the lines of a stored order. *)
Definition lineQty (ois : list OrderItem) (id : string) : Z :=
  foldr (λ it acc, if decide (oi_productId it = id) then oi_quantity it + acc
                   else acc)
        0 ois.

(** The request with another coupon code. *)
Definition withCoupon (req : CreateOrderReq) (code : option string)
    : CreateOrderReq :=
  mkCreateOrderReq (items req) code (orderType req) (storeId req).

(** ** Prices and coupons within their usual ranges *)

Definition pricesNonneg (db : Database) : Prop :=
  ∀ id p, products db !! id = Some p →
          (0 <= price_selling (p_price p))%Q
          ∧ (0 <= price_distributor (p_price p))%Q
          ∧ (0 <= price_retailer (p_price p))%Q.

Definition percentagesAtMost100 (db : Database) : Prop :=
  Forall (λ c, c_type c = "percentage" → (c_value c <= 100)%Q) (coupons db).

(** ** Orders kept by the store *)

(** The timeline of [o'] continues the timeline of [o]. *)
Definition timelineGrows (o o' : Order) : Prop :=
  match o_timeline o, o_timeline o' with
  | Some tl, Some tl' => tl `prefix_of` tl'
  | None, None => True
  | _, _ => False
  end.

(** [o'] is [o] later: same id, buyer, lines, amount, type and creation
    instant, with a timeline that has only grown. *)
Definition orderKept (o o' : Order) : Prop :=
  core o' = core o
  ∧ o_orderType o' = o_orderType o
  ∧ o_createdAt o' = o_createdAt o
  ∧ timelineGrows o o'.

(** ** Flash-sale accounts *)

(** The sum of the quantities recorded per user. *)
Definition sumPurchased (sale : FlashSale) : Z :=
  map_fold (λ _ n acc, n + acc) 0 (fs_participants sale).

Definition soldIsSum (db : Database) : Prop :=
  ∀ k sale, flashSales db !! k = Some sale →
            fs_soldCount sale = sumPurchased sale.

(** The terms of a sale that no request rewrites. *)
Definition saleTerms (sale : FlashSale) : string * Q * Q * Z * Z * Z * Z * string :=
  (fs_productId sale, fs_originalPrice sale, fs_salePrice sale,
   fs_inventory sale, fs_startTime sale, fs_endTime sale, fs_limitPerUser sale,
   fs_status sale).

(** ** Groups *)

Definition distinctJoiners (db : Database) : Prop :=
  ∀ k g, groupBuyingGroups db !! k = Some g →
         NoDup (pt_userId <$> g_participants g).

(** ** Points *)

Definition pointsOf (us : gmap string User) (k : string) : option Z :=
  (λ u, points (u_profile u)) <$> us !! k.

(** ** Who may change the status of an order *)

(** An administrator; a supplier of one of the order's products; the
    customer who owns the order, and then only to cancel it. *)
Definition mayUpdate (user : User) (order : Order) (status : string)
    (ps : gmap string Product) : Prop :=
  u_role user = "admin"
  ∨ (u_role user = "supplier"
     ∧ ∃ item p, item ∈ o_items order
                 ∧ ps !! oi_productId item = Some p
                 ∧ p_supplierId p = u_id user)
  ∨ (u_role user = "customer"
     ∧ o_userId order = u_id user
     ∧ status = "cancelled").

(** [shopDb] with a retailer, and the distributor's order of one unit. *)
Definition retailDb : Database :=
  withUser (registered "shop1" "retailer" None) shopDb.

(** ** Referrers *)

(** Every user is stored under the user's own id, as the registration route
    stores them. *)
Definition wellKeyed (us : gmap string User) : Prop :=
  ∀ k u, us !! k = Some u → u_id u = k.

(** [target] is the referrer [n] steps above a profile whose [referrerId]
    is [rid]: [n] stored users lie between them. *)
Fixpoint referrerAt (us : gmap string User) (n : nat) (rid : option string)
    (target : string) : Prop :=
  match n with
  | O => rid = Some target
  | S n' => ∃ r v, rid = Some r ∧ us !! r = Some v
                   ∧ referrerAt us n' (referrerId (u_profile v)) target
  end.

(** * Properties *)

(** ** Order creation *)

Lemma itemPrice_priceForRole role product :
  itemPrice role product = priceForRole role (p_price product).
Proof.
  unfold itemPrice, priceForRole.
  destruct (String.eqb_spec role "distributor") as [->|Hd].
  - by rewrite decide_True.
  - rewrite decide_False by done.
    destruct (String.eqb_spec role "retailer") as [->|Hr].
    + by rewrite decide_True.
    + by rewrite decide_False.
Qed.

Lemma sumTotals_app l1 l2 :
  (sumTotals (l1 ++ l2) == sumTotals l1 + sumTotals l2)%Q.
Proof.
  induction l1 as [|x l1 IH]; simpl.
  - ring.
  - rewrite IH. ring.
Qed.

Lemma prices_reserve (ps : gmap string Product) id product q :
  ps !! id = Some product →
  p_price <$> <[id := reserveStock product q]> ps = p_price <$> ps.
Proof.
  intros Hp. rewrite fmap_insert. apply insert_id.
  by rewrite lookup_fmap, Hp.
Qed.

Lemma reserveItems_success role its :
  ∀ ps t acc ps' t' ois,
    reserveItems role its ps t acc = (ps', Success (t', ois)) →
    ∃ lines, ois = acc ++ lines
             ∧ Forall2 (lineOf role (p_price <$> ps)) its lines
             ∧ (t' == t + sumTotals lines)%Q
             ∧ p_price <$> ps' = p_price <$> ps.
Proof.
  induction its as [|item rest IH]; intros ps t acc ps' t' ois H; simpl in H.
  - inversion H; subst. exists []. rewrite app_nil_r. repeat split.
    + constructor.
    + simpl. ring.
  - destruct (ps !! productId item) as [product|] eqn:Hp; [|discriminate].
    destruct (inv_available (p_inventory product) <? quantity item); [discriminate|].
    apply IH in H as (lines & -> & Hl & Ht & Hpr).
    rewrite prices_reserve in Hl, Hpr by done.
    eexists (_ :: lines). rewrite <- app_assoc. split; [reflexivity|].
    repeat split; [| |done].
    + constructor; [|done]. exists (p_price product). split.
      * by rewrite lookup_fmap, Hp.
      * by rewrite itemPrice_priceForRole.
    + rewrite Ht. simpl. ring.
Qed.

Lemma createOrder_success uid req now db db' o :
  createOrder uid req now db = (db', Success o) →
  ∃ user ps t ois,
    users db !! uid = Some user
    ∧ reserveItems (u_role user) (items req) (products db) 0%Q [] = (ps, Success (t, ois))
    ∧ placeOrder user req now db ps t ois = (db', o).
Proof.
  unfold createOrder, verifyToken. intros H.
  destruct (users db !! uid) as [user|]; [|discriminate].
  destruct (items req) as [|i0 rest] eqn:Hi; [discriminate|].
  destruct (reserveItems _ _ _ _ _) as [ps [[t ois]|e]] eqn:Hr; [|discriminate].
  destruct (placeOrder _ _ _ _ _ _ _) as [d n] eqn:Hp.
  inversion H; subst. by exists user, ps, t, ois.
Qed.

Lemma placeOrder_order user req now db ps t ois db' o :
  placeOrder user req now db ps t ois = (db', o) →
  o_items o = ois
  ∧ amt_subtotal (o_amount o) = t
  ∧ amt_total (o_amount o) = (amt_subtotal (o_amount o) - amt_discount (o_amount o))%Q
  ∧ (amt_discount (o_amount o), o_coupon o, coupons db')
    = applyCoupon (couponCode req) t (coupons db)
  ∧ products db' = ps
  ∧ users db' = users db.
Proof.
  unfold placeOrder. destruct (applyCoupon _ _ _) as [[d ac] cs].
  intros H; inversion H; subst; simpl. done.
Qed.

(** C10.  A direct order charges each line at the price of the buyer's
    role: the distributor price for role [distributor], the retailer price
    for role [retailer], the selling price for any other role; every line
    total is that price times the quantity.  The same request therefore
    gives a distributor and a customer different totals (8500 against 8999
    for one unit of [prod1]). *)
Theorem createOrder_role_pricing :
  (∀ uid req now db db' o user,
      users db !! uid = Some user →
      createOrder uid req now db = (db', Success o) →
      Forall2 (lineOf (u_role user) (p_price <$> products db))
              (items req) (o_items o))
  ∧ (∃ o1 o2 db1 db2,
        createOrder "dist1" oneIphone 1 shopDb = (db1, Success o1)
        ∧ createOrder "cust1" oneIphone 1 shopDb = (db2, Success o2)
        ∧ (amt_total (o_amount o1) == 8500)%Q
        ∧ (amt_total (o_amount o2) == 8999)%Q).
Proof.
  split.
  - intros uid req now db db' o user Hu H.
    apply createOrder_success in H as (user' & ps & t & ois & Hu' & Hr & Hp).
    rewrite Hu in Hu'. inversion Hu'; subst user'.
    apply reserveItems_success in Hr as (lines & -> & Hl & _).
    apply placeOrder_order in Hp as (-> & _). done.
  - do 4 eexists. split; [vm_compute; reflexivity|].
    split; [vm_compute; reflexivity|]. split; reflexivity.
Qed.

Lemma createOrder_role_pricing_witness :
  ∃ db' o,
    createOrder "dist1" oneIphone 1 shopDb = (db', Success o)
    ∧ Forall2 (lineOf (u_role (registered "dist1" "distributor" None))
                      (p_price <$> products shopDb))
              (items oneIphone) (o_items o).
Proof.
  do 2 eexists. split; [vm_compute; reflexivity|].
  eapply (proj1 createOrder_role_pricing "dist1" oneIphone 1 shopDb);
    vm_compute; reflexivity.
Defined.

(** ** Amount summaries *)

Lemma fanOut_fold activityId activity gid now ps :
  ∀ os ns next,
    fold_left (fanOutStep activityId activity gid now) ps (os, ns, next)
    = (os ++ fanOutOrders activityId activity gid now next ps,
       ns ++ fanOutNotices gid next ps,
       (next + length ps)%nat).
Proof.
  unfold fanOutOrders, fanOutNotices.
  induction ps as [|p ps IH]; intros os ns next; simpl.
  - by rewrite !app_nil_r, Nat.add_0_r.
  - rewrite IH, <- !app_assoc. simpl.
    rewrite Nat.add_0_r. f_equal; [f_equal|lia].
    + do 2 f_equal. apply imap_ext. intros i x _. simpl.
      by rewrite Nat.add_succ_r.
    + do 2 f_equal. apply imap_ext. intros i x _. simpl.
      by rewrite Nat.add_succ_r.
Qed.

Lemma fanOutOrders_promo activityId activity gid now next ps :
  Forall promoAmount (fanOutOrders activityId activity gid now next ps).
Proof.
  unfold fanOutOrders. apply Forall_forall. intros o Ho.
  apply elem_of_lookup_imap in Ho as (i & p & -> & _).
  by exists (a_productId activity), (a_groupPrice activity),
            (a_originalPrice activity), (pt_quantity p).
Qed.

Lemma joinGroup_orders user req now db activity1 gkey group next1 db' r :
  joinGroup user req now db activity1 gkey group next1 = (db', r) →
  ∃ added, orders db' = orders db ++ added ∧ Forall promoAmount added.
Proof.
  unfold joinGroup. intros H.
  destruct (hasJoined group (u_id user)).
  { inversion H; subst; simpl. exists []. by rewrite app_nil_r. }
  destruct (g_requiredSize _ <=? g_currentSize _).
  - rewrite fanOut_fold in H. inversion H; subst; simpl.
    eexists. split; [reflexivity|]. apply fanOutOrders_promo.
  - inversion H; subst; simpl. exists []. by rewrite app_nil_r.
Qed.

Lemma joinGroupBuying_orders uid req now db db' r :
  joinGroupBuying uid req now db = (db', r) →
  ∃ added, orders db' = orders db ++ added ∧ Forall promoAmount added.
Proof.
  unfold joinGroupBuying. intros H.
  assert (Hsame : ∀ e, (db, @Failure (Group * Activity) e) = (db', r) →
            ∃ added, orders db' = orders db ++ added ∧ Forall promoAmount added).
  { intros e He. inversion He; subst. exists []. by rewrite app_nil_r. }
  destruct (verifyToken uid db) as [user|]; [|by eapply Hsame].
  destruct (groupBuyingActivities db !! jr_activityId req) as [activity|];
    [|by eapply Hsame].
  destruct (_ || _); [by eapply Hsame|].
  destruct (jr_groupId req) as [gid|].
  - destruct (groupBuyingGroups db !! gid) as [group|]; [|by eapply Hsame].
    destruct (g_status group =? "recruiting")%string; [|by eapply Hsame].
    by eapply joinGroup_orders.
  - by eapply joinGroup_orders.
Qed.

Lemma purchaseFlashSale_success uid req now db db' o :
  purchaseFlashSale uid req now db = (db', Success o) →
  ∃ user sale,
    users db !! uid = Some user
    ∧ flashSales db !! pq_saleId req = Some sale
    ∧ fs_startTime sale <= now <= fs_endTime sale
    ∧ fs_soldCount sale + pq_quantity req <= fs_inventory sale
    ∧ purchasedBy sale (u_id user) + pq_quantity req <= fs_limitPerUser sale
    ∧ o = flashSaleOrder (nextId db) (u_id user) (pq_saleId req) sale
                         (pq_quantity req) now
    ∧ orders db' = orders db ++ [o]
    ∧ flashSales db'
      = <[pq_saleId req := recordPurchase sale (u_id user)
                             (purchasedBy sale (u_id user)) (pq_quantity req)]>
          (flashSales db)
    ∧ products db' = products db
    ∧ users db' = users db.
Proof.
  unfold purchaseFlashSale, verifyToken. intros H.
  destruct (users db !! uid) as [user|]; [|discriminate].
  destruct (flashSales db !! pq_saleId req) as [sale|]; [|discriminate].
  destruct (Z.ltb_spec now (fs_startTime sale)); [discriminate|].
  destruct (Z.ltb_spec (fs_endTime sale) now); [discriminate|].
  destruct (Z.ltb_spec (fs_inventory sale) (fs_soldCount sale + pq_quantity req));
    [discriminate|].
  destruct (Z.ltb_spec (fs_limitPerUser sale)
              (purchasedBy sale (u_id user) + pq_quantity req)); [discriminate|].
  inversion H; subst; simpl. exists user, sale. repeat split; done || lia.
Qed.

(** C9, as it stands, fails on a flash-sale order: one unit of [sale1]
    (original price 9999, sale price 7999) gives subtotal 7999, discount
    2000 and total 7999, not 5999. *)
Lemma flash_sale_total_is_not_subtotal_minus_discount :
  ∃ db' o,
    purchaseFlashSale "cust1" (mkPurchaseReq "sale1" 1) 50 saleDb
      = (db', Success o)
    ∧ ¬ (amt_total (o_amount o)
         == amt_subtotal (o_amount o) - amt_discount (o_amount o))%Q.
Proof.
  do 2 eexists. split; [vm_compute; reflexivity|].
  vm_compute. discriminate.
Qed.

(** ** Coupons *)







(** ** Failed creation keeps the earlier reservations *)

(** C2 (code defect).  The request [twoLines] fails on its second line with
    [InsufficientStock]; the handler returns from inside the loop, so the
    unit of [prod1] reserved for the first line stays reserved (available
    95 -> 94, reserved 5 -> 6) although no order was created. *)
Theorem createOrder_failure_keeps_reservation :
  ∃ db',
    createOrder "cust1" twoLines 1 shopDb = (db', Failure InsufficientStock)
    ∧ inventoryOf shopDb "prod1" = Some (mkInventory 100 95 5 10)
    ∧ inventoryOf db' "prod1" = Some (mkInventory 100 94 6 10)
    ∧ inventoryOf db' "prod2" = inventoryOf shopDb "prod2"
    ∧ orders db' = orders shopDb.
Proof.
  eexists. split; [vm_compute; reflexivity|].
  repeat split; vm_compute; reflexivity.
Qed.

(** ** Payment and inventory *)

Lemma payOrder_products uid req now db :
  products (fst (payOrder uid req now db)) = products db.
Proof.
  unfold payOrder.
  destruct (verifyToken uid db) as [user|]; [|done].
  destruct (getOrder _ _) as [order|]; [|done].
  destruct (negb _); [done|].
  destruct (_ =? _)%string; [done|].
  destruct (o_timeline _); done.
Qed.

Lemma updateOrderStatus_users uid req now db :
  users (fst (updateOrderStatus uid req now db)) = users db.
Proof.
  unfold updateOrderStatus.
  destruct (verifyToken uid db) as [user|]; [|done].
  destruct (getOrder _ _) as [order|]; [|done].
  destruct (negb _); [done|].
  destruct (o_timeline _); done.
Qed.

(** C3 (code defect).  [POST /:orderId/pay] moves a pending order to paid
    and credits [floor(total / 100)] points, but never touches the product
    counters: after paying an order of two [prod1] (total 17998, 179
    points) the product still shows reserved 7 and total 100.  The
    confirmation ([reserved -= q; total -= q]) exists only in the status
    update, which in turn credits nobody. *)
Theorem payOrder_does_not_confirm_inventory :
  (∀ uid req now db, products (fst (payOrder uid req now db)) = products db)
  ∧ (∀ uid req now db, users (fst (updateOrderStatus uid req now db)) = users db)
  ∧ (∃ db1 db2 o o' pts,
        createOrder "cust1" twoIphones 1 shopDb = (db1, Success o)
        ∧ o_status o = "pending"
        ∧ inventoryOf db1 "prod1" = Some (mkInventory 100 93 7 10)
        ∧ payOrder "cust1" (mkPayReq (o_id o) "online") 2 db1
          = (db2, Success (o', pts))
        ∧ o_status o' = "paid"
        ∧ pts = 179
        ∧ inventoryOf db2 "prod1" = Some (mkInventory 100 93 7 10)).
Proof.
  split; [exact payOrder_products|]. split; [exact updateOrderStatus_users|].
  do 5 eexists. split; [vm_compute; reflexivity|].
  repeat split; vm_compute; reflexivity.
Qed.

(** ** Status transitions *)

Lemma getOrder_id os id o : getOrder os id = Some o → o_id o = id.
Proof.
  intros H. apply find_some in H as [_ H]. by apply Nat.eqb_eq in H.
Qed.

Lemma getOrder_putOrder os id o o' :
  getOrder os id = Some o → o_id o' = id →
  getOrder (putOrder os o') id = Some o'.
Proof.
  unfold getOrder, putOrder. intros H Hid. subst id.
  induction os as [|x os IH]; simpl in *; [discriminate|].
  destruct (Nat.eqb_spec (o_id x) (o_id o')) as [He|Hne].
  - simpl. by rewrite Nat.eqb_refl.
  - simpl. destruct (Nat.eqb_spec (o_id x) (o_id o')); [done|]. by apply IH.
Qed.

Lemma putOrder_cores os id o o' :
  getOrder os id = Some o → o_id o' = id → sameCore o o' →
  map core (putOrder os o') = map core os.
Proof.
  unfold getOrder, putOrder. intros H Hid Hc. subst id.
  induction os as [|x os IH]; simpl in *; [done|].
  destruct (Nat.eqb_spec (o_id x) (o_id o')) as [He|Hne]; simpl.
  - injection H as ->. by rewrite Hc.
  - f_equal. by apply IH.
Qed.

(** C5, as it stands, fails: an administrator moves a delivered order back
    to [pending], and the update succeeds. *)
Lemma delivered_order_can_be_reopened :
  ∃ db1 db2 o,
    run [CreateOrder "cust1" oneIphone 1;
         UpdateStatus "admin1" (mkStatusReq 0 "delivered" false None) 2] shopDb
      = db1
    ∧ statusOf db1 0 = Some "delivered"%string
    ∧ updateOrderStatus "admin1" (mkStatusReq 0 "pending" false None) 3 db1
      = (db2, Success o)
    ∧ o_status o = "pending"
    ∧ statusOf db2 0 = Some "pending"%string.
Proof.
  do 3 eexists. split; [reflexivity|].
  split; [vm_compute; reflexivity|].
  split; [vm_compute; reflexivity|].
  split; vm_compute; reflexivity.
Qed.

(** C5, amended.  The status update has no transition table.  It is
    refused only for an unknown caller ([Unauthorized]), an unknown order
    ([OrderNotFound]) or a caller without rights on the order
    ([Forbidden]).  Otherwise the requested status, whatever it is and
    whatever the current status is ([delivered] included), becomes the
    order's status; the answer is the updated order, or an internal error
    when the order has no timeline. *)
Theorem updateOrderStatus_accepts_any_target :
  ∀ uid req now db,
    match users db !! uid with
    | None => updateOrderStatus uid req now db = (db, Failure Unauthorized)
    | Some user =>
      match getOrder (orders db) (sr_orderId req) with
      | None => updateOrderStatus uid req now db = (db, Failure OrderNotFound)
      | Some order =>
        if canUpdate user order (sr_status req) (products db)
        then ∃ db' o',
            getOrder (orders db') (sr_orderId req) = Some o'
            ∧ o_status o' = sr_status req
            ∧ updateOrderStatus uid req now db
              = (db', match o_timeline order with
                      | Some _ => Success o'
                      | None => Failure InternalError
                      end)
        else updateOrderStatus uid req now db = (db, Failure Forbidden)
      end
    end.
Proof.
  intros uid req now db. unfold updateOrderStatus, verifyToken.
  destruct (users db !! uid) as [user|]; [|done].
  destruct (getOrder (orders db) (sr_orderId req)) as [order|] eqn:Ho; [|done].
  destruct (canUpdate user order (sr_status req) (products db)); [|done].
  simpl. pose proof (getOrder_id _ _ _ Ho) as Hid.
  destruct (o_timeline order) as [tl|].
  - eexists _, _. split; [|split; [|reflexivity]].
    + simpl. eapply getOrder_putOrder; [exact Ho|].
      destruct ((sr_status req =? "shipped")%string && sr_shippingInfo req),
        (sr_status req =? "refunded")%string, (truthy (sr_refundReason req));
        done.
    + destruct ((sr_status req =? "shipped")%string && sr_shippingInfo req),
        (sr_status req =? "refunded")%string, (truthy (sr_refundReason req));
        done.
  - eexists _, _. split; [|split; [|reflexivity]].
    + simpl. eapply getOrder_putOrder; [exact Ho|done].
    + done.
Qed.

(** ** What each handler leaves alone *)

Ltac break_match :=
  match goal with
  | |- context [match ?x with _ => _ end] => destruct x eqn:?
  end.

Ltac frame := intros; repeat (break_match; simplify_eq/=; try done).

Lemma placeOrder_frame user req now db ps t ois db' o :
  placeOrder user req now db ps t ois = (db', o) →
  flashSales db' = flashSales db
  ∧ groupBuyingActivities db' = groupBuyingActivities db
  ∧ groupBuyingGroups db' = groupBuyingGroups db
  ∧ orders db' = orders db ++ [o]
  ∧ nextId db' = S (nextId db)
  ∧ o_id o = nextId db
  ∧ o_groupId o = None.
Proof.
  unfold placeOrder. destruct (applyCoupon _ _ _) as [[d ac] cs].
  intros H; inversion H; subst; simpl. done.
Qed.

Lemma createOrder_failure uid req now db db' e :
  createOrder uid req now db = (db', Failure e) →
  ∃ ps, db' = set_products db ps
        ∧ (ps = products db
           ∨ ∃ user, users db !! uid = Some user
                     ∧ ps = fst (reserveItems (u_role user) (items req)
                                              (products db) 0%Q [])).
Proof.
  unfold createOrder, verifyToken. intros H.
  destruct (users db !! uid) as [user|] eqn:Hu.
  2:{ injection H as <- _. exists (products db). split; [by destruct db|by left]. }
  destruct (items req).
  { injection H as <- _. exists (products db). split; [by destruct db|by left]. }
  destruct (reserveItems _ _ _ _ _) as [ps [[t ois]|e']] eqn:Hr.
  - destruct (placeOrder _ _ _ _ _ _ _). discriminate.
  - injection H as <- _. exists ps. split; [done|]. right.
    exists user. by rewrite Hr.
Qed.

Lemma createOrder_flashSales uid req now db :
  flashSales (fst (createOrder uid req now db)) = flashSales db.
Proof.
  destruct (createOrder uid req now db) as [db' [o|e]] eqn:H; simpl.
  - apply createOrder_success in H as (user & ps & t & ois & _ & _ & Hp).
    by apply placeOrder_frame in Hp as (-> & _).
  - by apply createOrder_failure in H as (ps & -> & _).
Qed.

Lemma updateOrderStatus_flashSales uid req now db :
  flashSales (fst (updateOrderStatus uid req now db)) = flashSales db.
Proof. unfold updateOrderStatus. frame. Qed.

Lemma payOrder_flashSales uid req now db :
  flashSales (fst (payOrder uid req now db)) = flashSales db.
Proof. unfold payOrder. frame. Qed.

Lemma joinGroupBuying_flashSales uid req now db :
  flashSales (fst (joinGroupBuying uid req now db)) = flashSales db.
Proof. unfold joinGroupBuying, joinGroup. frame. Qed.

(** ** Flash sales *)

Lemma purchaseFlashSale_failure uid req now db db' e :
  purchaseFlashSale uid req now db = (db', Failure e) → db' = db.
Proof.
  unfold purchaseFlashSale. intros H.
  repeat match type of H with
         | context [match ?x with _ => _ end] => destruct x
         end;
    first [discriminate H | by injection H as <- _].
Qed.

Lemma purchasedBy_record sale userId n q other :
  purchasedBy (recordPurchase sale userId n q) other
  = if decide (userId = other) then n + q else purchasedBy sale other.
Proof.
  unfold purchasedBy, recordPurchase. simpl. rewrite lookup_insert.
  by case_decide.
Qed.

Lemma saleInv_record sale userId q :
  saleInv sale →
  fs_soldCount sale + q <= fs_inventory sale →
  purchasedBy sale userId + q <= fs_limitPerUser sale →
  saleInv (recordPurchase sale userId (purchasedBy sale userId) q).
Proof.
  intros [Hs Hp] Hq Hl. split; simpl; [done|].
  intros u n. rewrite lookup_insert. case_decide.
  - intros [= <-]. done.
  - apply Hp.
Qed.

Lemma purchaseFlashSale_salesInv uid req now db :
  salesInv db → salesInv (fst (purchaseFlashSale uid req now db)).
Proof.
  intros Hinv.
  destruct (purchaseFlashSale uid req now db) as [db' [o|e]] eqn:H; simpl.
  - apply purchaseFlashSale_success in H
      as (user & sale & _ & Hsale & _ & Hq & Hl & _ & _ & Hfs & _).
    intros sid s. rewrite Hfs, lookup_insert. case_decide.
    + intros [= <-]. apply saleInv_record; [by eapply Hinv|done..].
    + apply Hinv.
  - by apply purchaseFlashSale_failure in H as ->.
Qed.

Lemma handle_salesInv r db : salesInv db → salesInv (handle r db).
Proof.
  destruct r; simpl; unfold salesInv.
  - by rewrite createOrder_flashSales.
  - by rewrite updateOrderStatus_flashSales.
  - by rewrite payOrder_flashSales.
  - apply purchaseFlashSale_salesInv.
  - by rewrite joinGroupBuying_flashSales.
Qed.

Lemma run_salesInv rs : ∀ db, salesInv db → salesInv (run rs db).
Proof.
  induction rs as [|r rs IH]; intros db H; simpl; [done|].
  apply IH, handle_salesInv, H.
Qed.

Lemma purchaseFlashSale_decision uid req now db user sale :
  users db !! uid = Some user →
  flashSales db !! pq_saleId req = Some sale →
  purchaseFlashSale uid req now db
  = if now <? fs_startTime sale then (db, Failure PromotionNotStarted)
    else if fs_endTime sale <? now then (db, Failure PromotionEnded)
    else if fs_inventory sale <? fs_soldCount sale + pq_quantity req
    then (db, Failure InsufficientStock)
    else if fs_limitPerUser sale <? purchasedBy sale (u_id user) + pq_quantity req
    then (db, Failure QuotaExceeded)
    else
      (mkDatabase (users db) (products db)
         (orders db ++ [flashSaleOrder (nextId db) (u_id user) (pq_saleId req)
                                       sale (pq_quantity req) now])
         (coupons db) (notifications db) (groupBuyingActivities db)
         (groupBuyingGroups db)
         (<[pq_saleId req :=
              recordPurchase sale (u_id user) (purchasedBy sale (u_id user))
                             (pq_quantity req)]> (flashSales db))
         (S (nextId db)),
       Success (flashSaleOrder (nextId db) (u_id user) (pq_saleId req) sale
                               (pq_quantity req) now)).
Proof.
  intros Hu Hs. unfold purchaseFlashSale, verifyToken. by rewrite Hu, Hs.
Qed.

(** C6.  A flash-sale purchase by a known user on a known sale is decided
    by four checks, in this order: before [startTime] it fails with
    [PromotionNotStarted]; after [endTime] with [PromotionEnded]; when
    [soldCount + qty] exceeds [inventory] with [InsufficientStock]; when the
    user's purchased quantity plus [qty] exceeds [limitPerUser] with
    [QuotaExceeded]; a failure leaves the store as it was.  Otherwise it
    succeeds, and [soldCount] and the user's purchased quantity both grow
    by [qty].  Hence the bounds [soldCount <= inventory] and
    [purchased <= limitPerUser] survive every run of requests, and with
    [limitPerUser = 1] the second of two purchases of one unit by the same
    user, stock permitting, fails with [QuotaExceeded]. *)
Theorem flashSale_admission :
  (∀ uid req now db user sale,
      users db !! uid = Some user →
      flashSales db !! pq_saleId req = Some sale →
      let q := pq_quantity req in
      let bought := purchasedBy sale (u_id user) in
      (now < fs_startTime sale →
       purchaseFlashSale uid req now db = (db, Failure PromotionNotStarted))
      ∧ (fs_startTime sale <= now → fs_endTime sale < now →
         purchaseFlashSale uid req now db = (db, Failure PromotionEnded))
      ∧ (fs_startTime sale <= now <= fs_endTime sale →
         fs_inventory sale < fs_soldCount sale + q →
         purchaseFlashSale uid req now db = (db, Failure InsufficientStock))
      ∧ (fs_startTime sale <= now <= fs_endTime sale →
         fs_soldCount sale + q <= fs_inventory sale →
         fs_limitPerUser sale < bought + q →
         purchaseFlashSale uid req now db = (db, Failure QuotaExceeded))
      ∧ (fs_startTime sale <= now <= fs_endTime sale →
         fs_soldCount sale + q <= fs_inventory sale →
         bought + q <= fs_limitPerUser sale →
         ∃ db' o sale',
           purchaseFlashSale uid req now db = (db', Success o)
           ∧ flashSales db' !! pq_saleId req = Some sale'
           ∧ fs_soldCount sale' = fs_soldCount sale + q
           ∧ purchasedBy sale' (u_id user) = bought + q
           ∧ (∀ other, other ≠ u_id user →
                purchasedBy sale' other = purchasedBy sale other)
           ∧ fs_inventory sale' = fs_inventory sale
           ∧ fs_limitPerUser sale' = fs_limitPerUser sale))
  ∧ (∀ rs db, salesInv db → salesInv (run rs db))
  ∧ (∀ uid saleId now1 now2 db db1 o user sale,
        users db !! uid = Some user →
        flashSales db !! saleId = Some sale →
        fs_limitPerUser sale = 1 →
        0 <= purchasedBy sale (u_id user) →
        fs_soldCount sale + 2 <= fs_inventory sale →
        purchaseFlashSale uid (mkPurchaseReq saleId 1) now1 db = (db1, Success o) →
        fs_startTime sale <= now2 <= fs_endTime sale →
        purchaseFlashSale uid (mkPurchaseReq saleId 1) now2 db1
        = (db1, Failure QuotaExceeded)).
Proof.
  split; [|split].
  - intros uid req now db user sale Hu Hs q bought. subst q bought.
    rewrite (purchaseFlashSale_decision _ _ now _ _ _ Hu Hs).
    repeat split.
    + intros H. destruct (Z.ltb_spec now (fs_startTime sale)); [done|lia].
    + intros H1 H2.
      destruct (Z.ltb_spec now (fs_startTime sale)); [lia|].
      destruct (Z.ltb_spec (fs_endTime sale) now); [done|lia].
    + intros H1 H2.
      destruct (Z.ltb_spec now (fs_startTime sale)); [lia|].
      destruct (Z.ltb_spec (fs_endTime sale) now); [lia|].
      destruct (Z.ltb_spec (fs_inventory sale)
                  (fs_soldCount sale + pq_quantity req)); [done|lia].
    + intros H1 H2 H3.
      destruct (Z.ltb_spec now (fs_startTime sale)); [lia|].
      destruct (Z.ltb_spec (fs_endTime sale) now); [lia|].
      destruct (Z.ltb_spec (fs_inventory sale)
                  (fs_soldCount sale + pq_quantity req)); [lia|].
      destruct (Z.ltb_spec (fs_limitPerUser sale)
                  (purchasedBy sale (u_id user) + pq_quantity req)); [done|lia].
    + intros H1 H2 H3.
      destruct (Z.ltb_spec now (fs_startTime sale)); [lia|].
      destruct (Z.ltb_spec (fs_endTime sale) now); [lia|].
      destruct (Z.ltb_spec (fs_inventory sale)
                  (fs_soldCount sale + pq_quantity req)); [lia|].
      destruct (Z.ltb_spec (fs_limitPerUser sale)
                  (purchasedBy sale (u_id user) + pq_quantity req)); [lia|].
      eexists _, _, _. split; [reflexivity|]. simpl.
      split; [apply lookup_insert_eq|]. split; [done|].
      split; [by rewrite purchasedBy_record, decide_True|].
      split; [|done].
      intros other Hne. by rewrite purchasedBy_record, decide_False.
  - exact run_salesInv.
  - intros uid saleId now1 now2 db db1 o user sale Hu Hs Hlim Hb Hstock H1 Hw.
    apply purchaseFlashSale_success in H1
      as (user' & sale' & Hu' & Hs' & _ & _ & _ & _ & _ & Hfs & _ & Hus).
    simpl in *. rewrite Hu in Hu'. rewrite Hs in Hs'.
    injection Hu' as <-. injection Hs' as <-.
    erewrite purchaseFlashSale_decision;
      [|by rewrite Hus|by rewrite Hfs; apply lookup_insert_eq].
    simpl. rewrite purchasedBy_record, decide_True by done.
    destruct (Z.ltb_spec now2 (fs_startTime sale)); [lia|].
    destruct (Z.ltb_spec (fs_endTime sale) now2); [lia|].
    destruct (Z.ltb_spec (fs_inventory sale) (fs_soldCount sale + 1 + 1)); [lia|].
    destruct (Z.ltb_spec (fs_limitPerUser sale)
                (purchasedBy sale (u_id user) + 1 + 1)); [done|lia].
Qed.

Lemma flashSale_admission_witness :
  ∃ db1 o,
    purchaseFlashSale "cust1" (mkPurchaseReq "sale1" 1) 10 saleDb
      = (db1, Success o)
    ∧ purchaseFlashSale "cust1" (mkPurchaseReq "sale1" 1) 20 db1
      = (db1, Failure QuotaExceeded).
Proof.
  do 2 eexists. split; [vm_compute; reflexivity|].
  eapply (proj2 (proj2 flashSale_admission) "cust1" "sale1" 10 20 saleDb _ _
            (registered "cust1" "customer" None) sale1).
  - vm_compute; reflexivity.
  - vm_compute; reflexivity.
  - reflexivity.
  - vm_compute; discriminate.
  - vm_compute; discriminate.
  - vm_compute; reflexivity.
  - split; vm_compute; discriminate.
Defined.

(** ** Referral commissions *)

Lemma credited_ext us us' d d' :
  credited us us' d → (∀ k, (d k == d' k)%Q) → credited us us' d'.
Proof.
  intros H Hd k. specialize (H k). specialize (Hd k).
  destruct (us !! k), (us' !! k); try done.
  destruct H as (? & ? & Hw). repeat split; try done. by rewrite <- Hd.
Qed.

Lemma credited_points us uid user n :
  us !! uid = Some user →
  credited us (<[uid := add_points user n]> us) (λ _, 0%Q).
Proof.
  intros Hu k. rewrite lookup_insert. case_decide as Hk.
  - subst k. rewrite Hu. simpl. repeat split; try done. ring.
  - destruct (us !! k); [|done]. repeat split; try done. ring.
Qed.

Lemma credited_wallet us us' d r ru c :
  credited us us' d → us' !! r = Some ru →
  credited us (<[r := add_wallet ru c]> us')
           (λ k, (d k + if decide (r = k) then c else 0)%Q).
Proof.
  intros H Hr k. specialize (H k). rewrite lookup_insert.
  case_decide as Hk.
  - subst k. rewrite Hr in H. destruct (us !! r); [|done]. simpl.
    destruct H as (? & ? & Hw). repeat split; try done.
    rewrite Hw. ring.
  - destruct (us !! k), (us' !! k); try done.
    destruct H as (? & ? & Hw). repeat split; try done.
    rewrite Hw. ring.
Qed.

Lemma credited_lookup us us' d r :
  credited us us' d →
  refs us !! r = (λ u, referrerId (u_profile u)) <$> us' !! r.
Proof.
  intros H. specialize (H r). unfold refs. rewrite lookup_fmap.
  destruct (us !! r), (us' !! r); try done.
  destruct H as (_ & Hr & _). simpl. by rewrite Hr.
Qed.

Lemma distributeCommission_credited us0 us buyer total d :
  credited us0 us d →
  credited us0 (distributeCommission us buyer total)
    (λ k, (d k + commission (referralChain 3 (refs us0)
                               (referrerId (u_profile buyer))) total k)%Q).
Proof.
  intros H0. unfold distributeCommission. simpl referralChain.
  destruct (truthy (referrerId (u_profile buyer))) as [r1|].
  2:{ eapply credited_ext; [exact H0|]. intros k. unfold commission, shares. simpl. ring. }
  rewrite (credited_lookup _ _ _ r1 H0).
  destruct (us !! r1) as [ru1|] eqn:E1; simpl.
  2:{ eapply credited_ext; [exact H0|]. intros k. unfold commission, shares. simpl. ring. }
  pose proof (credited_wallet _ _ _ _ _ (total * (5 # 100))%Q H0 E1) as H1.
  destruct (truthy (referrerId (u_profile ru1))) as [r2|].
  2:{ eapply credited_ext; [exact H1|]. intros k. unfold commission, shares. simpl.
      case_decide; ring. }
  rewrite (credited_lookup _ _ _ r2 H1).
  destruct (<[r1:=_]> us !! r2) as [ru2|] eqn:E2; simpl.
  2:{ eapply credited_ext; [exact H1|]. intros k. unfold commission, shares. simpl.
      case_decide; ring. }
  pose proof (credited_wallet _ _ _ _ _ (total * (3 # 100))%Q H1 E2) as H2.
  destruct (truthy (referrerId (u_profile ru2))) as [r3|].
  2:{ eapply credited_ext; [exact H2|]. intros k. unfold commission, shares. simpl.
      repeat case_decide; ring. }
  rewrite (credited_lookup _ _ _ r3 H2).
  destruct (<[r2:=_]> _ !! r3) as [ru3|] eqn:E3; simpl.
  2:{ eapply credited_ext; [exact H2|]. intros k. unfold commission, shares. simpl.
      repeat case_decide; ring. }
  pose proof (credited_wallet _ _ _ _ _ (total * (1 # 100))%Q H2 E3) as H3.
  eapply credited_ext; [exact H3|]. intros k. unfold commission, shares. simpl.
  repeat case_decide; ring.
Qed.

Lemma payOrder_success uid req now db db' o pts :
  payOrder uid req now db = (db', Success (o, pts)) →
  ∃ user order tl,
    users db !! uid = Some user
    ∧ getOrder (orders db) (pr_orderId req) = Some order
    ∧ o_userId order = u_id user
    ∧ o_paymentStatus order ≠ "paid"
    ∧ o_timeline order = Some tl
    ∧ o = setTimeline (markPaid order (pr_paymentMethod req) now)
                      (tl ++ [mkTimelineEntry "paid" now])
    ∧ pts = pointsEarned order
    ∧ users db'
      = distributeCommission (<[uid := add_points user pts]> (users db))
                             (add_points user pts) (amt_total (o_amount order))
    ∧ orders db' = putOrder (orders db) o.
Proof.
  unfold payOrder, verifyToken. intros H.
  destruct (users db !! uid) as [user|]; [|discriminate].
  destruct (getOrder _ _) as [order|]; [|discriminate].
  destruct (String.eqb_spec (o_userId order) (u_id user)); [|discriminate].
  destruct (String.eqb_spec (o_paymentStatus order) "paid"); [discriminate|].
  simpl in H. destruct (o_timeline order) as [tl|] eqn:Htl; [|discriminate].
  inversion H; subst. exists user, order, tl. done.
Qed.

Lemma getOrder_app_l os l id o :
  getOrder os id = Some o → getOrder (os ++ l) id = Some o.
Proof.
  unfold getOrder. induction os as [|x os IH]; simpl; [discriminate|].
  destruct (o_id x =? id)%nat; [done|apply IH].
Qed.

Lemma getOrder_putOrder_ne os id o' :
  o_id o' ≠ id → getOrder (putOrder os o') id = getOrder os id.
Proof.
  unfold getOrder, putOrder. intros Hne.
  induction os as [|x os IH]; simpl; [done|].
  destruct (Nat.eqb_spec (o_id x) (o_id o')) as [He|Hne']; simpl.
  - destruct (Nat.eqb_spec (o_id o') id); [done|].
    destruct (Nat.eqb_spec (o_id x) id); [congruence|done].
  - destruct (o_id x =? id)%nat; [done|apply IH].
Qed.

Lemma paidOrder_put db id order o' :
  paidOrder db id →
  getOrder (orders db) (o_id o') = Some order →
  (o_paymentStatus order = "paid" → o_paymentStatus o' = "paid") →
  paidOrder (set_orders db (putOrder (orders db) o')) id.
Proof.
  intros (o & Ho & Hpaid) Hget Hkeep. unfold paidOrder. simpl.
  destruct (decide (o_id o' = id)) as [Heq|Hne].
  - exists o'. split; [by eapply getOrder_putOrder|].
    apply Hkeep. rewrite Heq in Hget. congruence.
  - exists o. by rewrite getOrder_putOrder_ne.
Qed.

Lemma paidOrder_app db db' id added :
  orders db' = orders db ++ added → paidOrder db id → paidOrder db' id.
Proof.
  intros Hos (o & Ho & Hpaid). exists o. split; [|done].
  rewrite Hos. by apply getOrder_app_l.
Qed.

Lemma handle_paidOrder r db id : paidOrder db id → paidOrder (handle r db) id.
Proof.
  intros Hpaid. destruct r as [uid req now|uid req now|uid req now|uid req now
                               |uid req now]; simpl.
  - destruct (createOrder uid req now db) as [db' [o|e]] eqn:H; simpl.
    + apply createOrder_success in H as (user & ps & t & ois & _ & _ & Hp).
      apply placeOrder_frame in Hp as (_ & _ & _ & Hos & _).
      by eapply paidOrder_app.
    + apply createOrder_failure in H as (ps & -> & _). exact Hpaid.
  - unfold updateOrderStatus.
    destruct (verifyToken uid db) as [user|]; [|done].
    destruct (getOrder _ _) as [order|] eqn:Ho; [|done].
    destruct (negb _); [done|].
    pose proof (getOrder_id _ _ _ Ho) as Hid.
    simpl. destruct (o_timeline order) as [tl|]; simpl.
    + apply (paidOrder_put (set_products db _) id order); [done| |].
      * simpl. rewrite <- Ho. f_equal.
        destruct ((sr_status req =? "shipped")%string && sr_shippingInfo req),
          (sr_status req =? "refunded")%string, (truthy (sr_refundReason req));
          done.
      * destruct ((sr_status req =? "shipped")%string && sr_shippingInfo req),
          (sr_status req =? "refunded")%string, (truthy (sr_refundReason req));
          done.
    + apply (paidOrder_put db id order); [done| |done].
      simpl. by rewrite Hid.
  - unfold payOrder.
    destruct (verifyToken uid db) as [user|]; [|done].
    destruct (getOrder _ _) as [order|] eqn:Ho; [|done].
    destruct (negb _); [done|].
    destruct (_ =? _)%string; [done|].
    pose proof (getOrder_id _ _ _ Ho) as Hid.
    simpl. destruct (o_timeline order) as [tl|]; simpl.
    + apply (paidOrder_put (set_users db _) id order); [done| |done].
      simpl. by rewrite Hid.
    + apply (paidOrder_put db id order); [done| |done].
      simpl. by rewrite Hid.
  - destruct (purchaseFlashSale uid req now db) as [db' [o|e]] eqn:H; simpl.
    + apply purchaseFlashSale_success in H
        as (user & sale & _ & _ & _ & _ & _ & _ & Hos & _).
      by eapply paidOrder_app.
    + by apply purchaseFlashSale_failure in H as ->.
  - destruct (joinGroupBuying uid req now db) as [db' r] eqn:H.
    apply joinGroupBuying_orders in H as (added & Hos & _).
    by eapply paidOrder_app.
Qed.

Lemma run_paidOrder rs id : ∀ db, paidOrder db id → paidOrder (run rs db) id.
Proof.
  induction rs as [|r rs IH]; intros db H; simpl; [done|].
  apply IH, handle_paidOrder, H.
Qed.

Lemma payOrder_paid_rejected db id uid method now :
  paidOrder db id →
  ∃ e, payOrder uid (mkPayReq id method) now db = (db, Failure e).
Proof.
  intros (o & Ho & Hpaid). unfold payOrder. simpl. rewrite Ho.
  destruct (verifyToken uid db) as [user|]; [|by eexists].
  destruct (negb _); [by eexists|].
  rewrite Hpaid. simpl. by eexists.
Qed.

Lemma referralChain_length depth rv : ∀ rid,
  (length (referralChain depth rv rid) <= depth)%nat.
Proof.
  induction depth as [|d IH]; intros rid; simpl; [done|].
  destruct (truthy rid) as [r|]; simpl; [|lia].
  destruct (rv !! r) as [rid'|]; simpl; [|lia].
  specialize (IH rid'). lia.
Qed.

Lemma shares_outside levels total k :
  k ∉ levels.*1 → (shares levels total k == 0)%Q.
Proof.
  induction levels as [|[r rate] levels IH]; simpl; intros Hk; [reflexivity|].
  rewrite not_elem_of_cons in Hk. destruct Hk as [Hne Hk].
  rewrite decide_False by done. rewrite IH by done. ring.
Qed.

Lemma shares_level levels total :
  NoDup levels.*1 →
  ∀ i r rate, levels !! i = Some (r, rate) →
              (shares levels total r == total * rate)%Q.
Proof.
  induction levels as [|[r0 rate0] levels IH]; simpl; intros Hnd i r rate Hi.
  { by rewrite lookup_nil in Hi. }
  apply NoDup_cons in Hnd as [Hnotin Hnd].
  destruct i as [|i]; simpl in Hi.
  - injection Hi as -> ->. rewrite decide_True by done.
    rewrite shares_outside by done. ring.
  - rewrite decide_False.
    + rewrite (IH Hnd i r rate Hi). ring.
    + intros ->. apply Hnotin.
      apply list_elem_of_fmap. exists (r, rate). split; [done|].
      by eapply list_elem_of_lookup_2.
Qed.

Lemma zip_rates_fst (chain : list string) :
  (length chain <= 3)%nat → (zip chain rates).*1 = chain.
Proof.
  intros H. unfold rates.
  destruct chain as [|a [|b [|c [|d chain]]]]; simpl in *; try done. lia.
Qed.

(** The commission cascade of [POST /:orderId/pay].  A successful payment
    credits the wallets along the buyer's
    referral chain, walked from the buyer's [referrerId] for at most three
    hops and cut short, without error, at an empty [referrerId] or at one
    that names no user: the first referrer gets 5% of the order total, the
    second 3%, the third 1% (a user who stands at several levels of a
    cyclic chain gets the sum of the shares); nobody else's wallet changes.
    Paying the same order again, by anybody, at once or after any further
    requests, is refused with the store unchanged -- at once and for the
    buyer with [AlreadyPaid] -- so the commissions are not added twice. *)
Theorem payOrder_commission_cascade :
  ∀ uid req now db db' o pts,
    payOrder uid req now db = (db', Success (o, pts)) →
    ∃ buyer,
      users db !! uid = Some buyer
      ∧ let chain := referralChain 3 (refs (users db))
                                   (referrerId (u_profile buyer)) in
        let total := amt_total (o_amount o) in
        credited (users db) (users db') (commission chain total)
        ∧ (length chain <= 3)%nat
        ∧ (∀ k, k ∉ chain → (commission chain total k == 0)%Q)
        ∧ (NoDup chain →
           ∀ i r rate, chain !! i = Some r → rates !! i = Some rate →
                       (commission chain total r == total * rate)%Q)
        ∧ (∀ uid' method' now',
              ∃ e, payOrder uid' (mkPayReq (pr_orderId req) method') now' db'
                   = (db', Failure e)
                   ∧ (uid' = uid → e = AlreadyPaid))
        ∧ ∀ rs uid' method' now',
            ∃ e, payOrder uid' (mkPayReq (pr_orderId req) method') now'
                          (run rs db')
                 = (run rs db', Failure e).
Proof.
  intros uid req now db db' o pts H.
  apply payOrder_success in H
    as (buyer & order & tl & Hu & Ho & Hown & Hunpaid & Htl & -> & -> & Hus & Hos).
  exists buyer. split; [done|]. cbv zeta.
  set (chain := referralChain 3 (refs (users db)) (referrerId (u_profile buyer))).
  assert (Hlen : (length chain <= 3)%nat) by apply referralChain_length.
  assert (Hcr : credited (users db) (users db')
            (commission chain (amt_total (o_amount order)))).
  { rewrite Hus.
    eapply credited_ext.
    - apply (distributeCommission_credited (users db)).
      apply credited_points, Hu.
    - intros k. cbv beta. rewrite Qplus_0_l. reflexivity. }
  assert (Hpaid : paidOrder db' (pr_orderId req)).
  { eexists. split.
    - rewrite Hos. eapply getOrder_putOrder; [exact Ho|].
      by apply getOrder_id in Ho.
    - done. }
  split; [exact Hcr|]. split; [exact Hlen|]. split; [|split; [|split]].
  4:{ intros rs uid' method' now'.
      by apply payOrder_paid_rejected, run_paidOrder. }
  - intros k Hk. apply shares_outside. by rewrite zip_rates_fst.
  - intros Hnd i r rate Hi Hrate. unfold commission.
    apply (shares_level _ _ ltac:(by rewrite zip_rates_fst) i).
    apply lookup_zip_with_Some. by exists r, rate.
  - intros uid' method' now'. unfold payOrder, verifyToken. simpl.
    rewrite Hos.
    erewrite getOrder_putOrder; [|exact Ho|by apply getOrder_id in Ho].
    simpl.
    destruct (users db' !! uid') as [user'|] eqn:Hu'.
    + destruct (String.eqb_spec (o_userId order) (u_id user')) as [He|Hne]; simpl.
      * eexists. split; [reflexivity|done].
      * eexists. split; [reflexivity|].
        intros ->. exfalso. apply Hne.
        specialize (Hcr uid). rewrite Hu, Hu' in Hcr.
        destruct Hcr as (Hid & _). congruence.
    + eexists. split; [reflexivity|].
      intros ->. exfalso.
      specialize (Hcr uid). by rewrite Hu, Hu' in Hcr.
Qed.

Lemma payOrder_commission_cascade_witness :
  ∃ db1 db2 o o' pts,
    createOrder "cust1" oneThousand 1 thousandDb = (db1, Success o)
    ∧ payOrder "cust1" (mkPayReq 0 "online") 2 db1 = (db2, Success (o', pts))
    ∧ (amt_total (o_amount o') == 1000)%Q
    ∧ walletOf db1 "ref1" = Some 0%Q ∧ walletOf db2 "ref1" = Some 50%Q
    ∧ walletOf db1 "ref2" = Some 0%Q ∧ walletOf db2 "ref2" = Some 30%Q
    ∧ walletOf db1 "ref3" = Some 0%Q ∧ walletOf db2 "ref3" = Some 10%Q
    ∧ walletOf db1 "ref4" = Some 0%Q ∧ walletOf db2 "ref4" = Some 0%Q
    ∧ ∃ buyer,
        users db1 !! "cust1" = Some buyer
        ∧ let chain := referralChain 3 (refs (users db1))
                                     (referrerId (u_profile buyer)) in
          let total := amt_total (o_amount o') in
          credited (users db1) (users db2) (commission chain total)
          ∧ (length chain <= 3)%nat
          ∧ (∀ k, k ∉ chain → (commission chain total k == 0)%Q)
          ∧ (NoDup chain →
             ∀ i r rate, chain !! i = Some r → rates !! i = Some rate →
                         (commission chain total r == total * rate)%Q)
          ∧ (∀ uid' method' now',
                ∃ e, payOrder uid' (mkPayReq (pr_orderId (mkPayReq 0 "online"))
                                             method') now' db2
                     = (db2, Failure e)
                     ∧ (uid' = "cust1" → e = AlreadyPaid))
          ∧ ∀ rs uid' method' now',
              ∃ e, payOrder uid' (mkPayReq (pr_orderId (mkPayReq 0 "online"))
                                           method') now' (run rs db2)
                   = (run rs db2, Failure e).
Proof.
  do 5 eexists. split; [vm_compute; reflexivity|].
  split; [vm_compute; reflexivity|].
  do 9 (split; [vm_compute; reflexivity|]).
  eapply (payOrder_commission_cascade "cust1" (mkPayReq 0 "online") 2).
  vm_compute; reflexivity.
Defined.

(** ** Stock counters *)

Lemma joinGroup_eq user req now db activity1 gkey group next1 :
  joinGroup user req now db activity1 gkey group next1
  = if hasJoined group (u_id user)
    then (mkDatabase (users db) (products db) (orders db) (coupons db)
            (notifications db)
            (<[jr_activityId req := activity1]> (groupBuyingActivities db))
            (<[gkey := group]> (groupBuyingGroups db)) (flashSales db) next1,
          Failure AlreadyJoined)
    else
      let g1 := addParticipant group
                  (mkParticipant (u_id user) (u_username user)
                                 (jr_quantity req) now) in
      if g_requiredSize g1 <=? g_currentSize g1
      then (mkDatabase (users db) (products db)
              (orders db ++ fanOutOrders (jr_activityId req) activity1
                              (g_id g1) now next1 (g_participants g1))
              (coupons db)
              (notifications db ++ fanOutNotices (g_id g1) next1
                                     (g_participants g1))
              (<[jr_activityId req := bumpParticipants activity1]>
                 (groupBuyingActivities db))
              (<[gkey := complete g1 now]> (groupBuyingGroups db))
              (flashSales db) (next1 + length (g_participants g1))%nat,
            Success (complete g1 now, bumpParticipants activity1))
      else (mkDatabase (users db) (products db) (orders db) (coupons db)
              (notifications db)
              (<[jr_activityId req := bumpParticipants activity1]>
                 (groupBuyingActivities db))
              (<[gkey := g1]> (groupBuyingGroups db))
              (flashSales db) next1,
            Success (g1, bumpParticipants activity1)).
Proof.
  unfold joinGroup. destruct (hasJoined group (u_id user)); [done|].
  cbv zeta. destruct (_ <=? _); [|done].
  by rewrite fanOut_fold.
Qed.

Section StockInvariant.
(** [P] is a property of stock records, [G] one of quantities. *)
Variable P : Inventory → Prop.
Variable G : Z → Prop.
Hypothesis P_reserve :
  ∀ i q, P i → G q → q <= inv_available i → P (reserveInv i q).
Hypothesis P_release : ∀ i q, P i → G q → P (releaseInv i q).
Hypothesis P_confirm : ∀ i q, P i → G q → P (confirmInv i q).

Lemma allProducts_insert ps id p i :
  allProducts P ps → P i → allProducts P (<[id := set_inventory p i]> ps).
Proof.
  intros Hps Hi id' p'. rewrite lookup_insert. case_decide.
  - intros [= <-]. done.
  - apply Hps.
Qed.

Lemma reserveItems_allProducts role its :
  ∀ ps t acc,
    Forall (λ it, G (quantity it)) its →
    allProducts P ps →
    allProducts P (fst (reserveItems role its ps t acc)).
Proof.
  induction its as [|item rest IH]; intros ps t acc Hq Hps; simpl; [done|].
  inversion Hq as [|? ? Hitem Hrest]; subst.
  destruct (ps !! productId item) as [product|] eqn:Hp; [|done].
  destruct (Z.ltb_spec (inv_available (p_inventory product)) (quantity item));
    [done|].
  apply IH; [done|]. apply allProducts_insert; [done|].
  apply (P_reserve (p_inventory product)); [by eapply Hps|done|done].
Qed.

Lemma release_allProducts its :
  ∀ ps, Forall (λ it, G (oi_quantity it)) its →
        allProducts P ps → allProducts P (fold_left releaseItem its ps).
Proof.
  induction its as [|item rest IH]; intros ps Hq Hps; simpl; [done|].
  inversion Hq; subst. apply IH; [done|]. unfold releaseItem.
  destruct (ps !! oi_productId item) as [product|] eqn:Hp; [|done].
  apply allProducts_insert; [done|].
  apply (P_release (p_inventory product)); [by eapply Hps|done].
Qed.

Lemma confirm_allProducts its :
  ∀ ps, Forall (λ it, G (oi_quantity it)) its →
        allProducts P ps → allProducts P (fold_left confirmItem its ps).
Proof.
  induction its as [|item rest IH]; intros ps Hq Hps; simpl; [done|].
  inversion Hq; subst. apply IH; [done|]. unfold confirmItem.
  destruct (ps !! oi_productId item) as [product|] eqn:Hp; [|done].
  apply allProducts_insert; [done|].
  apply (P_confirm (p_inventory product)); [by eapply Hps|done].
Qed.

Lemma statusInventory_allProducts status old its ps :
  Forall (λ it, G (oi_quantity it)) its →
  allProducts P ps → allProducts P (statusInventory status old its ps).
Proof.
  intros Hq Hps. unfold statusInventory.
  destruct (_ || _); [by apply release_allProducts|].
  destruct (_ && _); [by apply confirm_allProducts|done].
Qed.
End StockInvariant.

Ltac same_db := cbv zeta; simpl; repeat split; try done; by left.

Lemma updateOrderStatus_frame uid req now db :
  let db' := fst (updateOrderStatus uid req now db) in
  groupBuyingGroups db' = groupBuyingGroups db
  ∧ groupBuyingActivities db' = groupBuyingActivities db
  ∧ nextId db' = nextId db
  ∧ (db' = db
     ∨ ∃ order o',
         getOrder (orders db) (sr_orderId req) = Some order
         ∧ sameCore order o'
         ∧ orders db' = putOrder (orders db) o'
         ∧ (products db' = products db
            ∨ products db' = statusInventory (sr_status req) (o_status order)
                                             (o_items order) (products db))).
Proof.
  unfold updateOrderStatus.
  destruct (verifyToken uid db) as [user|]; [|same_db].
  destruct (getOrder _ _) as [order|] eqn:Ho; [|same_db].
  destruct (negb _); [same_db|].
  simpl. destruct (o_timeline order) as [tl|]; simpl.
  - repeat split; try done. right.
    eexists order, _. split; [done|]. split; [|split; [reflexivity|by right]].
    destruct ((sr_status req =? "shipped")%string && sr_shippingInfo req),
      (sr_status req =? "refunded")%string, (truthy (sr_refundReason req));
      done.
  - repeat split; try done. right.
    eexists order, _. split; [done|]. split; [|split; [reflexivity|by left]].
    done.
Qed.

Lemma payOrder_frame uid req now db :
  let db' := fst (payOrder uid req now db) in
  groupBuyingGroups db' = groupBuyingGroups db
  ∧ groupBuyingActivities db' = groupBuyingActivities db
  ∧ nextId db' = nextId db
  ∧ products db' = products db
  ∧ (db' = db
     ∨ ∃ order o',
         getOrder (orders db) (pr_orderId req) = Some order
         ∧ sameCore order o'
         ∧ orders db' = putOrder (orders db) o').
Proof.
  unfold payOrder.
  destruct (verifyToken uid db) as [user|]; [|same_db].
  destruct (getOrder _ _) as [order|] eqn:Ho; [|same_db].
  destruct (negb _); [same_db|].
  destruct (_ =? _)%string; [same_db|].
  simpl. destruct (o_timeline order) as [tl|]; simpl.
  - repeat split; try done. right. eexists order, _.
    split; [done|]. split; [|reflexivity]. done.
  - repeat split; try done. right. eexists order, _.
    split; [done|]. split; [|reflexivity]. done.
Qed.

Lemma purchaseFlashSale_frame uid req now db :
  let db' := fst (purchaseFlashSale uid req now db) in
  groupBuyingGroups db' = groupBuyingGroups db
  ∧ groupBuyingActivities db' = groupBuyingActivities db
  ∧ products db' = products db
  ∧ (db' = db
     ∨ ∃ o, orders db' = orders db ++ [o]
            ∧ Forall (λ it, oi_quantity it = pq_quantity req) (o_items o)
            ∧ o_groupId o = None
            ∧ o_id o = nextId db
            ∧ nextId db' = S (nextId db)).
Proof.
  unfold purchaseFlashSale, verifyToken.
  destruct (users db !! uid) as [user|]; [|same_db].
  destruct (flashSales db !! pq_saleId req) as [sale|]; [|same_db].
  repeat (destruct (_ <? _); [same_db|]).
  simpl. repeat split; try done. right. eexists. split; [reflexivity|].
  simpl. repeat split; try done. by repeat constructor.
Qed.

Lemma joinGroupBuying_cases uid req now db :
  (fst (joinGroupBuying uid req now db) = db
   ∧ ∃ e, snd (joinGroupBuying uid req now db) = Failure e)
  ∨ ∃ user activity activity1 gkey group next1,
      users db !! uid = Some user
      ∧ groupBuyingActivities db !! jr_activityId req = Some activity
      ∧ a_startTime activity <= now <= a_endTime activity
      ∧ ((jr_groupId req = Some gkey
          ∧ groupBuyingGroups db !! gkey = Some group
          ∧ g_status group = "recruiting"
          ∧ next1 = nextId db ∧ activity1 = activity)
         ∨ (jr_groupId req = None
            ∧ gkey = nextId db
            ∧ group = newGroup (nextId db) (jr_activityId req) (u_id user)
                               activity now
            ∧ next1 = S (nextId db) ∧ activity1 = bumpGroups activity))
      ∧ hasJoined group (u_id user) = false
      ∧ joinGroupBuying uid req now db
        = joinGroup user req now db activity1 gkey group next1.
Proof.
  unfold joinGroupBuying, verifyToken.
  destruct (users db !! uid) as [user|] eqn:Hu; [|left; eauto].
  destruct (groupBuyingActivities db !! jr_activityId req) as [activity|] eqn:Ha;
    [|left; eauto].
  destruct (Z.ltb_spec now (a_startTime activity)); [left; eauto|].
  destruct (Z.ltb_spec (a_endTime activity) now); [left; eauto|]. simpl.
  destruct (jr_groupId req) as [gid|] eqn:Hg.
  - destruct (groupBuyingGroups db !! gid) as [group|] eqn:Hgr; [|left; eauto].
    destruct (String.eqb_spec (g_status group) "recruiting") as [Hst|];
      [|left; eauto].
    destruct (hasJoined group (u_id user)) eqn:Hj.
    + left. rewrite joinGroup_eq, Hj. simpl. split; [|eauto].
      rewrite !insert_id by done. by destruct db.
    + right. exists user, activity, activity, gid, group, (nextId db).
      repeat split; try done; try lia. left. by repeat split.
  - right. eexists user, activity, _, _, _, _.
    repeat split; try done; try lia. right. by repeat split.
Qed.


Section StoreInvariant.
Variable P : Inventory → Prop.
Variable G : Z → Prop.
Hypothesis P_reserve :
  ∀ i q, P i → G q → q <= inv_available i → P (reserveInv i q).
Hypothesis P_release : ∀ i q, P i → G q → P (releaseInv i q).
Hypothesis P_confirm : ∀ i q, P i → G q → P (confirmInv i q).

Lemma getOrder_Forall (Q : Order → Prop) os id o :
  Forall Q os → getOrder os id = Some o → Q o.
Proof.
  intros HQ H. apply find_some in H as [Hin _].
  rewrite Forall_forall in HQ. apply HQ. by apply list_elem_of_In.
Qed.

Lemma putOrder_Forall (Q : Order → Prop) os o' :
  Forall Q os → Q o' → Forall Q (putOrder os o').
Proof.
  intros HQ Ho. unfold putOrder. induction HQ; simpl; [done|].
  destruct (_ =? _)%nat; by constructor.
Qed.

Lemma createOrder_dbInv uid req now db :
  Forall (λ it, G (quantity it)) (items req) →
  dbInv P G db → dbInv P G (fst (createOrder uid req now db)).
Proof.
  intros Hq [Hps [Hos Hgs]].
  destruct (createOrder uid req now db) as [db' [o|e]] eqn:H; simpl.
  - apply createOrder_success in H as (user & ps & t & ois & _ & Hr & Hp).
    pose proof (reserveItems_allProducts P G P_reserve (u_role user)
                  (items req) (products db) 0%Q [] Hq Hps) as Hps'.
    rewrite Hr in Hps'. simpl in Hps'.
    apply reserveItems_success in Hr as (lines & -> & Hl & _).
    pose proof (placeOrder_order _ _ _ _ _ _ _ _ _ Hp) as (Hit & _ & _ & _ & Hpr & _).
    apply placeOrder_frame in Hp as (_ & _ & Hg & Ho & _).
    split; [by rewrite Hpr|]. split.
    + rewrite Ho. apply Forall_app. split; [done|].
      constructor; [|done]. rewrite Hit. simpl.
      clear -Hl Hq. induction Hl as [|it oi its ois Hline _ IH]; [done|].
      inversion Hq; subst. constructor; [|by apply IH].
      by destruct Hline as (pr & _ & ->).
    + by rewrite Hg.
  - apply createOrder_failure in H as (ps & -> & Hcase).
    split; [|done]. simpl.
    destruct Hcase as [->|(user & _ & ->)]; [done|].
    by apply (reserveItems_allProducts P G P_reserve).
Qed.

Lemma updateOrderStatus_dbInv uid req now db :
  dbInv P G db → dbInv P G (fst (updateOrderStatus uid req now db)).
Proof.
  intros [Hps [Hos Hgs]].
  destruct (updateOrderStatus_frame uid req now db)
    as (Hg & _ & _ & [->|(order & o' & Ho & Hcore & Hor & Hpr)]); [done|].
  assert (Hitems : Forall (λ it, G (oi_quantity it)) (o_items order)).
  { by eapply (getOrder_Forall (λ o, Forall (λ it, G (oi_quantity it)) (o_items o))). }
  split; [|split].
  - destruct Hpr as [->| ->]; [done|].
    by apply (statusInventory_allProducts P G P_release P_confirm).
  - rewrite Hor. apply putOrder_Forall; [done|].
    injection Hcore as _ _ Hi _ _. by rewrite Hi.
  - by rewrite Hg.
Qed.

Lemma payOrder_dbInv uid req now db :
  dbInv P G db → dbInv P G (fst (payOrder uid req now db)).
Proof.
  intros [Hps [Hos Hgs]].
  destruct (payOrder_frame uid req now db)
    as (Hg & _ & _ & Hpr & [->|(order & o' & Ho & Hcore & Hor)]); [done|].
  assert (Hitems : Forall (λ it, G (oi_quantity it)) (o_items order)).
  { by eapply (getOrder_Forall (λ o, Forall (λ it, G (oi_quantity it)) (o_items o))). }
  split; [by rewrite Hpr|]. split.
  - rewrite Hor. apply putOrder_Forall; [done|].
    injection Hcore as _ _ Hi _ _. by rewrite Hi.
  - by rewrite Hg.
Qed.

Lemma purchaseFlashSale_dbInv uid req now db :
  G (pq_quantity req) →
  dbInv P G db → dbInv P G (fst (purchaseFlashSale uid req now db)).
Proof.
  intros Hq [Hps [Hos Hgs]].
  destruct (purchaseFlashSale_frame uid req now db)
    as (Hg & _ & Hpr & [->|(o & Hor & Hi & _)]); [done|].
  split; [by rewrite Hpr|]. split.
  - rewrite Hor. apply Forall_app. split; [done|]. constructor; [|done].
    eapply Forall_impl; [exact Hi|]. by intros it ->.
  - by rewrite Hg.
Qed.

Lemma joinGroupBuying_dbInv uid req now db :
  G (jr_quantity req) →
  dbInv P G db → dbInv P G (fst (joinGroupBuying uid req now db)).
Proof.
  intros Hq [Hps [Hos Hgs]].
  destruct (joinGroupBuying_cases uid req now db)
    as [[-> _]|(user & activity & activity1 & gkey & group & next1 & _ & _ & _
                & Hgroup & Hj & ->)]; [done|].
  assert (Hparts : Forall (λ p, G (pt_quantity p))
            (g_participants group
             ++ [mkParticipant (u_id user) (u_username user) (jr_quantity req) now])).
  { apply Forall_app. split; [|by repeat constructor].
    destruct Hgroup as [(_ & Hgr & _)|(_ & _ & -> & _)]; [by eapply Hgs|done]. }
  rewrite joinGroup_eq, Hj. cbv zeta.
  destruct (_ <=? _); simpl.
  - split; [done|]. split; simpl.
    + apply Forall_app. split; [done|].
      apply Forall_forall. intros o Ho.
      apply elem_of_lookup_imap in Ho as (i & p & -> & Hp). simpl.
      constructor; [|done]. simpl.
      eapply Forall_lookup_1 in Hparts; [exact Hparts|exact Hp].
    + intros k g. rewrite lookup_insert. case_decide; [|by apply Hgs].
      by intros [= <-].
  - split; [done|]. split; simpl; [done|].
    intros k g. rewrite lookup_insert. case_decide; [|by apply Hgs].
    by intros [= <-].
Qed.

Lemma handle_dbInv r db :
  requestQuantities G r → dbInv P G db → dbInv P G (handle r db).
Proof.
  destruct r; simpl; intros Hq Hdb.
  - by apply createOrder_dbInv.
  - by apply updateOrderStatus_dbInv.
  - by apply payOrder_dbInv.
  - by apply purchaseFlashSale_dbInv.
  - by apply joinGroupBuying_dbInv.
Qed.

Lemma run_dbInv rs :
  ∀ db, Forall (requestQuantities G) rs → dbInv P G db → dbInv P G (run rs db).
Proof.
  induction rs as [|r rs IH]; intros db Hq Hdb; simpl; [done|].
  inversion Hq; subst. apply IH; [done|]. by apply handle_dbInv.
Qed.
End StoreInvariant.

Lemma allProducts_empty P : allProducts P ∅.
Proof. intros id p. by rewrite lookup_empty. Qed.

Lemma allProducts_add P ps id p :
  P (p_inventory p) → allProducts P ps → allProducts P (<[id := p]> ps).
Proof.
  intros Hp Hps id' p'. rewrite lookup_insert. case_decide.
  - by intros [= <-].
  - apply Hps.
Qed.

Lemma createOrder_allProducts (P : Inventory → Prop) (G : Z → Prop) :
  (∀ i q, P i → G q → q <= inv_available i → P (reserveInv i q)) →
  ∀ uid req now db,
    Forall (λ it, G (quantity it)) (items req) →
    allProducts P (products db) →
    allProducts P (products (fst (createOrder uid req now db))).
Proof.
  intros HP uid req now db Hq Hps.
  destruct (createOrder uid req now db) as [db' [o|e]] eqn:H; simpl.
  - apply createOrder_success in H as (user & ps & t & ois & _ & Hr & Hp).
    apply placeOrder_order in Hp as (_ & _ & _ & _ & -> & _).
    pose proof (reserveItems_allProducts P G HP (u_role user) (items req)
                  (products db) 0%Q [] Hq Hps) as Hps'.
    by rewrite Hr in Hps'.
  - apply createOrder_failure in H as (ps & -> & [->|(user & _ & ->)]); [done|].
    by apply (reserveItems_allProducts P G HP).
Qed.

Lemma allQuantities_any db : allQuantities anyQuantity db.
Proof.
  split.
  - apply Forall_forall. intros o _. by apply Forall_forall.
  - intros k g _. by apply Forall_forall.
Qed.

Lemma requestQuantities_any rs : Forall (requestQuantities anyQuantity) rs.
Proof.
  apply Forall_forall. intros r _.
  destruct r; simpl; try done. by apply Forall_forall.
Qed.

(** C1, as it stands, fails on [reserved >= 0].  On a product with ten
    units, all available: a customer orders one unit and cancels the order
    twice (the product ends with available 11, reserved -1); or the order
    is set to paid and then refunded (total 9, available 10, reserved -1). *)
Lemma reserved_counter_goes_negative :
  allProducts fullInv (products thousandDb)
  ∧ inventoryOf thousandDb "prod3" = Some (mkInventory 10 10 0 1)
  ∧ inventoryOf
      (run [CreateOrder "cust1" oneThousand 1;
            UpdateStatus "cust1" (mkStatusReq 0 "cancelled" false None) 2;
            UpdateStatus "cust1" (mkStatusReq 0 "cancelled" false None) 3]
           thousandDb) "prod3"
    = Some (mkInventory 10 11 (-1) 1)
  ∧ inventoryOf
      (run [CreateOrder "cust1" oneThousand 1;
            UpdateStatus "admin1" (mkStatusReq 0 "paid" false None) 2;
            UpdateStatus "admin1" (mkStatusReq 0 "refunded" false None) 3]
           thousandDb) "prod3"
    = Some (mkInventory 9 10 (-1) 1)
  ∧ ¬ fullInv (mkInventory 10 11 (-1) 1)
  ∧ ¬ fullInv (mkInventory 9 10 (-1) 1).
Proof.
  split.
  { repeat apply allProducts_add; try apply allProducts_empty;
      unfold fullInv; simpl; lia. }
  repeat split; try (vm_compute; reflexivity);
    unfold fullInv; simpl; lia.
Qed.

(** C1, amended.  For every run of requests, [available + reserved <= total]
    holds afterwards for every product for which it held before.  When the
    quantities in the requests and in the store are not negative,
    [available >= 0] is kept as well.  [reserved >= 0] is kept by order
    creation (successful or not) with non-negative quantities; the status
    update releases and confirms stock without looking at [reserved]. *)
Theorem inventory_counters_invariant :
  (∀ rs db,
      allProducts withinTotal (products db) →
      allProducts withinTotal (products (run rs db)))
  ∧ (∀ rs db,
        Forall (requestQuantities nonneg) rs →
        dbInv stockInv nonneg db → dbInv stockInv nonneg (run rs db))
  ∧ (∀ uid req now db,
        Forall (λ it, 0 <= quantity it) (items req) →
        allProducts fullInv (products db) →
        allProducts fullInv (products (fst (createOrder uid req now db)))).
Proof.
  split; [|split].
  - intros rs db Hps.
    apply (run_dbInv withinTotal anyQuantity) with (rs := rs) (db := db).
    + unfold withinTotal, reserveInv. simpl. intros; lia.
    + unfold withinTotal, releaseInv. simpl. intros; lia.
    + unfold withinTotal, confirmInv. simpl. intros; lia.
    + apply requestQuantities_any.
    + split; [done|apply allQuantities_any].
  - intros rs db. apply run_dbInv.
    + unfold stockInv, nonneg, reserveInv. simpl. intros; lia.
    + unfold stockInv, nonneg, releaseInv. simpl. intros; lia.
    + unfold stockInv, nonneg, confirmInv. simpl. intros; lia.
  - intros uid req now db. apply (createOrder_allProducts fullInv nonneg).
    unfold fullInv, nonneg, reserveInv. simpl. intros; lia.
Qed.

Lemma inventory_counters_invariant_witness :
  dbInv stockInv nonneg
    (run [CreateOrder "cust1" oneThousand 1;
          UpdateStatus "cust1" (mkStatusReq 0 "cancelled" false None) 2;
          UpdateStatus "cust1" (mkStatusReq 0 "cancelled" false None) 3]
         thousandDb).
Proof.
  apply (proj1 (proj2 inventory_counters_invariant)).
  - repeat constructor. unfold nonneg. simpl. lia.
  - split; [|split].
    + repeat apply allProducts_add; try apply allProducts_empty;
        unfold stockInv; simpl; lia.
    + constructor.
    + intros k g. simpl. by rewrite lookup_empty.
Defined.

(** ** Group buying *)

Lemma coresOf_app k cs1 cs2 : coresOf k (cs1 ++ cs2) = coresOf k cs1 ++ coresOf k cs2.
Proof. apply filter_app. Qed.

Lemma noticesOf_app k ns1 ns2 :
  noticesOf k (ns1 ++ ns2) = noticesOf k ns1 ++ noticesOf k ns2.
Proof. apply filter_app. Qed.

Lemma filter_none {A} (Q : A → Prop) `{∀ x, Decision (Q x)} (l : list A) :
  Forall (λ x, ¬ Q x) l → filter Q l = [].
Proof.
  induction 1 as [|x l Hx _ IH]; [done|].
  by rewrite filter_cons_False.
Qed.

Lemma filter_all {A} (Q : A → Prop) `{∀ x, Decision (Q x)} (l : list A) :
  Forall Q l → filter Q l = l.
Proof.
  induction 1 as [|x l Hx _ IH]; [done|].
  rewrite filter_cons_True by done. by f_equal.
Qed.

Lemma Forall2_imap_r {A B} (R : A → B → Prop) (f : nat → A → B) (l : list A) :
  (∀ i x, R x (f i x)) → Forall2 R l (imap f l).
Proof.
  revert f. induction l as [|x l IH]; intros f Hf; simpl; constructor.
  - apply Hf.
  - apply IH. intros i y. apply Hf.
Qed.

Lemma Forall_imap {A B} (Q : B → Prop) (f : nat → A → B) (l : list A) :
  (∀ i x, Q (f i x)) → Forall Q (imap f l).
Proof.
  intros Hf. apply Forall_forall. intros y Hy.
  apply elem_of_lookup_imap in Hy as (i & x & -> & _). apply Hf.
Qed.

Lemma groupInv_grow cs ns k g cs' ns' :
  groupInv cs ns k g → coresOf k cs' = [] → noticesOf k ns' = [] →
  groupInv (cs ++ cs') (ns ++ ns') k g.
Proof.
  intros (Hid & Hsz & Hreq & Hst) Hc Hn. repeat split; try done.
  rewrite coresOf_app, noticesOf_app, Hc, Hn, !app_nil_r. done.
Qed.

Lemma gframe_refl db : gframe db db.
Proof. exists [], []. rewrite !app_nil_r. by repeat split. Qed.

Lemma gframe_groupsInv db db' : gframe db db' → groupsInv db → groupsInv db'.
Proof.
  intros (cs' & ns' & Hc & Hcs & Hn & Hns & Hnext & Hg & Ha) (Hgs & Hcb & Hnb & Has).
  split; [|split; [|split]].
  - intros k g. rewrite Hg, Hc, Hn. intros Hk.
    destruct (Hgs k g Hk) as [Hinv Hlt]. split; [|lia].
    apply groupInv_grow; [done| |].
    + apply filter_none. eapply Forall_impl; [exact Hcs|].
      intros c Hnone. simpl. by rewrite Hnone.
    + apply filter_none. eapply Forall_impl; [exact Hns|].
      intros n Hnone. simpl. by rewrite Hnone.
  - rewrite Hc. apply Forall_app. split.
    + eapply Forall_impl; [exact Hcb|]. intros c Hb k Hk. specialize (Hb k Hk). lia.
    + eapply Forall_impl; [exact Hcs|]. intros c Hnone k. by rewrite Hnone.
  - rewrite Hn. apply Forall_app. split.
    + eapply Forall_impl; [exact Hnb|]. intros n Hb k Hk. specialize (Hb k Hk). lia.
    + eapply Forall_impl; [exact Hns|]. intros n Hnone k. by rewrite Hnone.
  - by rewrite Ha.
Qed.

Lemma createOrder_gframe uid req now db :
  gframe db (fst (createOrder uid req now db)).
Proof.
  destruct (createOrder uid req now db) as [db' [o|e]] eqn:H; simpl.
  - apply createOrder_success in H as (user & ps & t & ois & _ & _ & Hp).
    unfold placeOrder in Hp. destruct (applyCoupon _ _ _) as [[d ac] cs].
    injection Hp as <- <-. unfold gframe, cores. simpl. rewrite map_app. simpl.
    destruct (orderType req =? "offline")%string, (truthy (storeId req)).
    1:{ eexists [_], [_]. repeat split; try done; try lia; by repeat constructor. }
    all: eexists [_], []; rewrite app_nil_r;
      repeat split; try done; try lia; by repeat constructor.
  - apply createOrder_failure in H as (ps & -> & _).
    exists [], []. unfold cores. simpl. rewrite !app_nil_r. by repeat split.
Qed.

Lemma updateOrderStatus_gframe uid req now db :
  gframe db (fst (updateOrderStatus uid req now db)).
Proof.
  unfold updateOrderStatus.
  destruct (verifyToken uid db) as [user|]; [|apply gframe_refl].
  destruct (getOrder _ _) as [order|] eqn:Ho; [|apply gframe_refl].
  destruct (negb _); [apply gframe_refl|].
  pose proof (getOrder_id _ _ _ Ho) as Hid.
  simpl. destruct (o_timeline order) as [tl|]; simpl.
  - exists [], []. unfold cores. simpl.
    erewrite putOrder_cores; [by rewrite !app_nil_r|exact Ho| |].
    + destruct ((sr_status req =? "shipped")%string && sr_shippingInfo req),
        (sr_status req =? "refunded")%string, (truthy (sr_refundReason req));
        done.
    + destruct ((sr_status req =? "shipped")%string && sr_shippingInfo req),
        (sr_status req =? "refunded")%string, (truthy (sr_refundReason req));
        done.
  - exists [], []. unfold cores. simpl.
    erewrite putOrder_cores; [by rewrite !app_nil_r|exact Ho|done|done].
Qed.

Lemma payOrder_gframe uid req now db :
  gframe db (fst (payOrder uid req now db)).
Proof.
  unfold payOrder.
  destruct (verifyToken uid db) as [user|]; [|apply gframe_refl].
  destruct (getOrder _ _) as [order|] eqn:Ho; [|apply gframe_refl].
  destruct (negb _); [apply gframe_refl|].
  destruct (_ =? _)%string; [apply gframe_refl|].
  pose proof (getOrder_id _ _ _ Ho) as Hid.
  simpl. destruct (o_timeline order) as [tl|]; simpl.
  - exists [], []. unfold cores. simpl.
    erewrite putOrder_cores; [by rewrite !app_nil_r|exact Ho|done|done].
  - exists [], []. unfold cores. simpl.
    erewrite putOrder_cores; [by rewrite !app_nil_r|exact Ho|done|done].
Qed.

Lemma purchaseFlashSale_gframe uid req now db :
  gframe db (fst (purchaseFlashSale uid req now db)).
Proof.
  unfold purchaseFlashSale.
  destruct (verifyToken uid db) as [user|]; [|apply gframe_refl].
  destruct (flashSales db !! pq_saleId req) as [sale|]; [|apply gframe_refl].
  repeat (destruct (_ <? _); [apply gframe_refl|]).
  simpl. eexists [_], []. unfold cores. simpl. rewrite map_app, app_nil_r.
  split; [reflexivity|]. repeat split; try done; try lia. by repeat constructor.
Qed.

Lemma Forall2_map_imap {A B C} (R : A → C → Prop) (g : B → C)
    (f : nat → A → B) (l : list A) :
  (∀ i x, R x (g (f i x))) → Forall2 R l (map g (imap f l)).
Proof.
  revert f. induction l as [|x l IH]; intros f Hf; simpl; constructor.
  - apply Hf.
  - apply IH. intros i y. apply Hf.
Qed.

Lemma Forall_map_imap {A B C} (Q : C → Prop) (g : B → C)
    (f : nat → A → B) (l : list A) :
  (∀ i x, Q (g (f i x))) → Forall Q (map g (imap f l)).
Proof.
  intros Hf. apply Forall_map, Forall_imap. intros i x. apply Hf.
Qed.

Lemma fanOutOrders_group aid a gid now next ps :
  Forall (λ c, coreGroup c = Some gid)
         (map core (fanOutOrders aid a gid now next ps)).
Proof. by apply Forall_map_imap. Qed.

Lemma fanOutOrders_orderFor aid a gid now next ps :
  Forall2 (orderFor gid (a_productId a) (a_groupPrice a) (a_originalPrice a))
          ps (map core (fanOutOrders aid a gid now next ps)).
Proof. apply Forall2_map_imap. intros i p. by eexists. Qed.

Lemma fanOutNotices_group gid next ps :
  Forall (λ n, n_groupId n = Some gid) (fanOutNotices gid next ps).
Proof. by apply Forall_imap. Qed.

Lemma fanOutNotices_noticeFor gid next ps :
  Forall2 (noticeFor gid) ps (fanOutNotices gid next ps).
Proof. apply Forall2_imap_r. intros i p. by repeat split. Qed.

Lemma joinGroup_groupsInv user req now db activity activity1 gkey group next1 :
  groupsInv db →
  groupBuyingActivities db !! jr_activityId req = Some activity →
  a_groupSize activity1 = a_groupSize activity →
  g_id group = gkey →
  g_currentSize group = Z.of_nat (length (g_participants group)) →
  1 <= g_requiredSize group →
  g_status group = "recruiting" →
  g_currentSize group < g_requiredSize group →
  coresOf gkey (cores db) = [] →
  noticesOf gkey (notifications db) = [] →
  (gkey < next1)%nat → (nextId db <= next1)%nat →
  hasJoined group (u_id user) = false →
  groupsInv (fst (joinGroup user req now db activity1 gkey group next1)).
Proof.
  intros (Hgs & Hcb & Hnb & Has) Hact Hsize Hid Hlen Hreq Hst Hlt Hc0 Hn0
         Hkey Hnext Hj.
  rewrite joinGroup_eq, Hj. cbv zeta.
  set (p := mkParticipant (u_id user) (u_username user) (jr_quantity req) now).
  assert (Hact' : ∀ aid a,
             <[jr_activityId req := bumpParticipants activity1]>
               (groupBuyingActivities db) !! aid = Some a → 1 <= a_groupSize a).
  { intros aid a. rewrite lookup_insert. case_decide; [|by apply Has].
    intros [= <-]. simpl. rewrite Hsize. by eapply Has. }
  destruct (Z.leb_spec (g_requiredSize (addParticipant group p))
                       (g_currentSize (addParticipant group p))) as [Hfull|Hshort].
  - simpl in Hfull. unfold groupsInv, cores. simpl. rewrite map_app.
    split; [|split; [|split]]; [| | |exact Hact'].
    + intros k g. rewrite lookup_insert. case_decide as Hk.
      * subst k. intros [= <-]. split; [|lia].
        repeat split; simpl; try done.
        { rewrite length_app. simpl. lia. }
        right. split; [done|]. split; [lia|].
        rewrite coresOf_app, noticesOf_app. fold (cores db). rewrite Hc0, Hn0.
        simpl. unfold coresOf, noticesOf. rewrite Hid.
        rewrite (filter_all _ _ (fanOutOrders_group _ _ _ _ _ _)).
        rewrite (filter_all _ _ (fanOutNotices_group _ _ _)).
        split; [|apply fanOutNotices_noticeFor].
        eexists _, _, _. apply fanOutOrders_orderFor.
      * intros Hg. destruct (Hgs k g Hg) as [Hinv Hlt']. split; [|lia].
        apply groupInv_grow; [done| |].
        -- apply filter_none.
           eapply Forall_impl; [apply fanOutOrders_group|].
           intros c Hc. simpl in *. rewrite Hc. congruence.
        -- apply filter_none.
           eapply Forall_impl; [apply fanOutNotices_group|].
           intros n Hn. simpl in *. rewrite Hn. congruence.
    + apply Forall_app. split.
      * eapply Forall_impl; [exact Hcb|].
        intros c Hb k Hk. specialize (Hb k Hk). lia.
      * eapply Forall_impl; [apply fanOutOrders_group|].
        intros c Hc k. rewrite Hc. intros [= <-]. lia.
    + apply Forall_app. split.
      * eapply Forall_impl; [exact Hnb|].
        intros n Hb k Hk. specialize (Hb k Hk). lia.
      * eapply Forall_impl; [apply fanOutNotices_group|].
        intros n Hn k. rewrite Hn. intros [= <-]. lia.
  - simpl in Hshort. unfold groupsInv, cores. simpl.
    split; [|split; [|split]]; [| | |exact Hact'].
    + intros k g. rewrite lookup_insert. case_decide as Hk.
      * subst k. intros [= <-]. split; [|lia].
        repeat split; simpl; try done.
        { rewrite length_app. simpl. lia. }
        left. by repeat split.
      * intros Hg. destruct (Hgs k g Hg) as [Hinv Hlt']. split; [done|lia].
    + eapply Forall_impl; [exact Hcb|].
      intros c Hb k Hk. specialize (Hb k Hk). lia.
    + eapply Forall_impl; [exact Hnb|].
      intros n Hb k Hk. specialize (Hb k Hk). lia.
Qed.

Lemma joinGroupBuying_groupsInv uid req now db :
  groupsInv db → groupsInv (fst (joinGroupBuying uid req now db)).
Proof.
  intros Hinv.
  destruct (joinGroupBuying_cases uid req now db)
    as [[-> _]|(user & activity & activity1 & gkey & group & next1 & _ & Ha & _
                & Hgroup & Hj & ->)]; [done|].
  pose proof Hinv as (Hgs & Hcb & Hnb & Has).
  destruct Hgroup as [(_ & Hg & Hst & -> & ->)|(_ & -> & -> & -> & ->)].
  - destruct (Hgs gkey group Hg) as [(Hid & Hlen & Hreq & Hcase) Hlt].
    destruct Hcase as [(_ & Hsz & Hc0 & Hn0)|(Hst' & _)]; [|congruence].
    by eapply joinGroup_groupsInv.
  - eapply joinGroup_groupsInv; try done; simpl; try lia.
    + by eapply Has.
    + pose proof (Has _ _ Ha). lia.
    + apply filter_none. eapply Forall_impl; [exact Hcb|].
      intros c Hb Hc. specialize (Hb _ Hc). lia.
    + apply filter_none. eapply Forall_impl; [exact Hnb|].
      intros n Hb Hn. specialize (Hb _ Hn). lia.
Qed.

Lemma handle_groupsInv r db : groupsInv db → groupsInv (handle r db).
Proof.
  destruct r; simpl.
  - apply gframe_groupsInv, createOrder_gframe.
  - apply gframe_groupsInv, updateOrderStatus_gframe.
  - apply gframe_groupsInv, payOrder_gframe.
  - apply gframe_groupsInv, purchaseFlashSale_gframe.
  - apply joinGroupBuying_groupsInv.
Qed.

Lemma run_groupsInv rs : ∀ db, groupsInv db → groupsInv (run rs db).
Proof.
  induction rs as [|r rs IH]; intros db H; simpl; [done|].
  apply IH, handle_groupsInv, H.
Qed.



(** ** Amount summaries *)

Lemma promoOrderAt_summary productId unit original q o :
  promoOrderAt productId unit original q o →
  amt_total (o_amount o) = amt_subtotal (o_amount o)
  ∧ amt_discount (o_amount o) = ((original - unit) * inject_Z q)%Q
  ∧ (sumTotals (o_items o) == amt_subtotal (o_amount o))%Q.
Proof.
  intros [-> ->]. simpl. split; [done|]. split; [done|]. ring.
Qed.

Lemma fanOutOrders_groupOrderAt aid a a1 gid now next ps :
  a_productId a1 = a_productId a →
  a_groupPrice a1 = a_groupPrice a →
  a_originalPrice a1 = a_originalPrice a →
  Forall2 (groupOrderAt a) ps (fanOutOrders aid a1 gid now next ps).
Proof.
  intros Hp Hg Ho. apply Forall2_imap_r. intros i p.
  unfold groupOrderAt, promoOrderAt. simpl. by rewrite Hp, Hg, Ho.
Qed.

Lemma joinGroupBuying_fanOut uid req now db db' r :
  joinGroupBuying uid req now db = (db', r) →
  ∃ added,
    orders db' = orders db ++ added
    ∧ (added = []
       ∨ ∃ activity g a,
           groupBuyingActivities db !! jr_activityId req = Some activity
           ∧ r = Success (g, a)
           ∧ g_status g = "completed"
           ∧ Forall2 (groupOrderAt activity) (g_participants g) added).
Proof.
  intros H.
  destruct (joinGroupBuying_cases uid req now db)
    as [[Hdb _]|(user & activity & activity1 & gkey & group & next1 & _ & Ha
                 & _ & Hcase & Hj & Heq)].
  { rewrite H in Hdb. simpl in Hdb. subst db'. exists [].
    split; [by rewrite app_nil_r|by left]. }
  rewrite Heq, joinGroup_eq, Hj in H. cbv zeta in H.
  assert (Hprices : a_productId activity1 = a_productId activity
                    ∧ a_groupPrice activity1 = a_groupPrice activity
                    ∧ a_originalPrice activity1 = a_originalPrice activity).
  { by destruct Hcase as [(_ & _ & _ & _ & ->)|(_ & _ & _ & _ & ->)]. }
  destruct Hprices as (Hp & Hg & Ho).
  destruct (_ <=? _).
  - injection H as <- <-. simpl. eexists. split; [reflexivity|]. right.
    eexists activity, _, _. split; [done|]. split; [reflexivity|].
    split; [done|]. simpl. by apply fanOutOrders_groupOrderAt.
  - injection H as <- <-. simpl. exists [].
    split; [by rewrite app_nil_r|by left].
Qed.

(** C9, amended.  A direct order has [total = subtotal - discount].  A
    flash-sale order is one line of the requested quantity at the
    [salePrice] of its sale: [subtotal] and [total] are both
    [salePrice * quantity], and [discount] is
    [(originalPrice - salePrice) * quantity] of that sale, recorded beside
    them and not subtracted.  The orders that a join appends are, when
    there are any, one per participant of the group it completed, each one
    line of the participant's quantity at the [groupPrice] of the activity
    named in the request, with [subtotal = total = groupPrice * quantity]
    and [discount = (originalPrice - groupPrice) * quantity] of that
    activity.  In all three kinds the line totals sum to [subtotal]. *)
Theorem order_amount_summary :
  (∀ uid req now db db' o,
      createOrder uid req now db = (db', Success o) →
      amt_total (o_amount o)
        = (amt_subtotal (o_amount o) - amt_discount (o_amount o))%Q
      ∧ (sumTotals (o_items o) == amt_subtotal (o_amount o))%Q)
  ∧ (∀ uid req now db db' o,
        purchaseFlashSale uid req now db = (db', Success o) →
        ∃ sale,
          flashSales db !! pq_saleId req = Some sale
          ∧ promoOrderAt (fs_productId sale) (fs_salePrice sale)
                         (fs_originalPrice sale) (pq_quantity req) o
          ∧ amt_total (o_amount o) = amt_subtotal (o_amount o)
          ∧ amt_subtotal (o_amount o)
            = (fs_salePrice sale * inject_Z (pq_quantity req))%Q
          ∧ amt_discount (o_amount o)
            = ((fs_originalPrice sale - fs_salePrice sale)
               * inject_Z (pq_quantity req))%Q
          ∧ (sumTotals (o_items o) == amt_subtotal (o_amount o))%Q)
  ∧ (∀ uid req now db db' r,
        joinGroupBuying uid req now db = (db', r) →
        ∃ added,
          orders db' = orders db ++ added
          ∧ (added = []
             ∨ ∃ activity g a,
                 groupBuyingActivities db !! jr_activityId req = Some activity
                 ∧ r = Success (g, a)
                 ∧ g_status g = "completed"
                 ∧ Forall2
                     (λ p o,
                        groupOrderAt activity p o
                        ∧ amt_total (o_amount o) = amt_subtotal (o_amount o)
                        ∧ amt_subtotal (o_amount o)
                          = (a_groupPrice activity * inject_Z (pt_quantity p))%Q
                        ∧ amt_discount (o_amount o)
                          = ((a_originalPrice activity - a_groupPrice activity)
                             * inject_Z (pt_quantity p))%Q
                        ∧ (sumTotals (o_items o) == amt_subtotal (o_amount o))%Q)
                     (g_participants g) added)).
Proof.
  split; [|split].
  - intros uid req now db db' o H.
    apply createOrder_success in H as (user & ps & t & ois & _ & Hr & Hp).
    apply reserveItems_success in Hr as (lines & -> & _ & Ht & _).
    apply placeOrder_order in Hp as (-> & -> & Htot & _).
    split; [done|]. simpl. rewrite Ht. ring.
  - intros uid req now db db' o H.
    apply purchaseFlashSale_success in H
      as (user & sale & _ & Hs & _ & _ & _ & -> & _).
    exists sale. split; [done|].
    assert (Hat : promoOrderAt (fs_productId sale) (fs_salePrice sale)
                    (fs_originalPrice sale) (pq_quantity req)
                    (flashSaleOrder (nextId db) (u_id user) (pq_saleId req) sale
                                    (pq_quantity req) now)) by done.
    split; [done|].
    destruct (promoOrderAt_summary _ _ _ _ _ Hat) as (Ht & Hd & Hsum).
    split; [done|]. split; [done|]. split; [done|]. exact Hsum.
  - intros uid req now db db' r H.
    apply joinGroupBuying_fanOut in H as (added & Hos & Hadd).
    exists added. split; [done|].
    destruct Hadd as [->|(activity & g & a & Ha & -> & Hst & Hall)]; [by left|].
    right. exists activity, g, a. split; [done|]. split; [done|].
    split; [done|].
    eapply Forall2_impl; [exact Hall|]. intros p o Hat. split; [done|].
    destruct Hat as [_ Hat].
    pose proof Hat as [_ Hamt].
    destruct (promoOrderAt_summary _ _ _ _ _ Hat) as (Ht & Hd & Hsum).
    split; [done|]. split; [by rewrite Hamt|]. split; [done|]. exact Hsum.
Qed.

Lemma order_amount_summary_witness :
  (∃ db' o,
      createOrder "dist1" oneIphone 1 shopDb = (db', Success o)
      ∧ amt_total (o_amount o)
          = (amt_subtotal (o_amount o) - amt_discount (o_amount o))%Q
      ∧ (sumTotals (o_items o) == amt_subtotal (o_amount o))%Q)
  ∧ ∃ db' o,
      purchaseFlashSale "cust1" (mkPurchaseReq "sale1" 1) 50 saleDb
      = (db', Success o)
      ∧ amt_subtotal (o_amount o) = 7999%Q
      ∧ amt_discount (o_amount o) = 2000%Q
      ∧ ∃ sale,
          flashSales saleDb !! pq_saleId (mkPurchaseReq "sale1" 1) = Some sale
          ∧ promoOrderAt (fs_productId sale) (fs_salePrice sale)
                         (fs_originalPrice sale)
                         (pq_quantity (mkPurchaseReq "sale1" 1)) o
          ∧ amt_total (o_amount o) = amt_subtotal (o_amount o)
          ∧ amt_subtotal (o_amount o)
            = (fs_salePrice sale
               * inject_Z (pq_quantity (mkPurchaseReq "sale1" 1)))%Q
          ∧ amt_discount (o_amount o)
            = ((fs_originalPrice sale - fs_salePrice sale)
               * inject_Z (pq_quantity (mkPurchaseReq "sale1" 1)))%Q
          ∧ (sumTotals (o_items o) == amt_subtotal (o_amount o))%Q.
Proof.
  split.
  - do 2 eexists. split; [vm_compute; reflexivity|].
    eapply (proj1 order_amount_summary "dist1" oneIphone 1 shopDb).
    vm_compute; reflexivity.
  - do 2 eexists. split; [vm_compute; reflexivity|].
    split; [vm_compute; reflexivity|]. split; [vm_compute; reflexivity|].
    eapply (proj1 (proj2 order_amount_summary) "cust1"
              (mkPurchaseReq "sale1" 1) 50 saleDb).
    vm_compute; reflexivity.
Defined.
(** ** Group completion *)



(** ** Commission on the other way to a paid order *)

Lemma payOrder_failure_users uid req now db db' e :
  payOrder uid req now db = (db', Failure e) → users db' = users db.
Proof.
  unfold payOrder. intros H.
  destruct (verifyToken uid db) as [user|]; [|by injection H as <- _].
  destruct (getOrder _ _) as [order|]; [|by injection H as <- _].
  destruct (negb _); [by injection H as <- _|].
  destruct (_ =? _)%string; [by injection H as <- _|].
  simpl in H. destruct (o_timeline order); [done|]. by injection H as <- _.
Qed.

(** C4 (code defect).  The commission cascade exists only on the success
    path of [POST /:orderId/pay].  The status update, which also takes a
    pending order to [paid] (and is the route that confirms its stock),
    never writes a user: for the order of 1000 placed by ["cust1"], whose
    referrers are ["ref1"], ["ref2"] and ["ref3"], setting the status to
    [paid] leaves the three wallets at 0, where the payment route on the
    same order credits 50, 30 and 10.  Nor does a payment that ends in a
    failure change any user, the one included that has marked an order
    without timeline paid before it threw. *)
Theorem status_paid_pays_no_commission :
  (∀ uid req now db, users (fst (updateOrderStatus uid req now db)) = users db)
  ∧ (∀ uid req now db db' e,
        payOrder uid req now db = (db', Failure e) → users db' = users db)
  ∧ (∃ db1 db2 db3 o o1 o2 pts,
        createOrder "cust1" oneThousand 1 thousandDb = (db1, Success o)
        ∧ o_status o = "pending"
        ∧ (amt_total (o_amount o) == 1000)%Q
        ∧ referralChain 3 (refs (users db1)) (Some "ref1"%string)
          = ["ref1"; "ref2"; "ref3"]%string
        ∧ inventoryOf db1 "prod3" = Some (mkInventory 10 9 1 1)
        ∧ updateOrderStatus "admin1" (mkStatusReq (o_id o) "paid" false None)
                            2 db1 = (db2, Success o1)
        ∧ o_status o1 = "paid"
        ∧ inventoryOf db2 "prod3" = Some (mkInventory 9 9 0 1)
        ∧ walletOf db2 "ref1" = Some 0%Q
        ∧ walletOf db2 "ref2" = Some 0%Q
        ∧ walletOf db2 "ref3" = Some 0%Q
        ∧ payOrder "cust1" (mkPayReq (o_id o) "online") 2 db1
          = (db3, Success (o2, pts))
        ∧ o_status o2 = "paid"
        ∧ walletOf db3 "ref1" = Some 50%Q
        ∧ walletOf db3 "ref2" = Some 30%Q
        ∧ walletOf db3 "ref3" = Some 10%Q).
Proof.
  split; [exact updateOrderStatus_users|]. split; [exact payOrder_failure_users|].
  eexists _, _, _, _, _, _, _. split; [vm_compute; reflexivity|].
  repeat split; vm_compute; reflexivity.
Qed.


(** * Further properties *)

(** ** Stock moved by creation, cancellation and confirmation *)

Lemma moveStock_0 p : moveStock p 0 0 0 = p.
Proof.
  destruct p as [id pr [t a r th] s]. unfold moveStock, set_inventory. simpl.
  by rewrite !Z.add_0_r.
Qed.

Lemma moveStock_moveStock p a r t a' r' t' :
  moveStock (moveStock p a r t) a' r' t' = moveStock p (a + a') (r + r') (t + t').
Proof.
  unfold moveStock, set_inventory. simpl. do 2 f_equal; lia.
Qed.

Lemma moveStock_ext p a r t a' r' t' :
  a = a' → r = r' → t = t' → moveStock p a r t = moveStock p a' r' t'.
Proof. by intros -> -> ->. Qed.

Lemma reserveStock_move p q : reserveStock p q = moveStock p (- q) q 0.
Proof.
  unfold reserveStock, moveStock. do 2 f_equal; lia.
Qed.

Lemma reserveItems_moves role its :
  ∀ ps t acc ps' res,
    reserveItems role its ps t acc = (ps', Success res) →
    ∀ id, ps' !! id
          = (λ p, moveStock p (- orderedQty its id) (orderedQty its id) 0)
              <$> ps !! id.
Proof.
  induction its as [|item rest IH]; intros ps t acc ps' res H id; simpl in H.
  - injection H as <- _. simpl. destruct (ps !! id); simpl; [|done].
    by rewrite moveStock_0.
  - destruct (ps !! productId item) as [product|] eqn:Hp; [|discriminate].
    destruct (inv_available (p_inventory product) <? quantity item);
      [discriminate|].
    rewrite (IH _ _ _ _ _ H id). simpl. rewrite lookup_insert.
    case_decide as Hid.
    + subst id. rewrite Hp. simpl. f_equal.
      rewrite reserveStock_move, moveStock_moveStock.
      apply moveStock_ext; lia.
    + done.
Qed.

Lemma releaseItem_lookup ps item id :
  releaseItem ps item !! id
  = (λ p, if decide (oi_productId item = id)
          then moveStock p (oi_quantity item) (- oi_quantity item) 0 else p)
      <$> ps !! id.
Proof.
  unfold releaseItem.
  destruct (ps !! oi_productId item) as [product|] eqn:Hp.
  - rewrite lookup_insert. case_decide as Hid.
    + subst id. rewrite Hp. simpl. f_equal.
      unfold moveStock. do 2 f_equal; lia.
    + destruct (ps !! id); done.
  - case_decide as Hid.
    + subst id. by rewrite Hp.
    + destruct (ps !! id); done.
Qed.

Lemma confirmItem_lookup ps item id :
  confirmItem ps item !! id
  = (λ p, if decide (oi_productId item = id)
          then moveStock p 0 (- oi_quantity item) (- oi_quantity item) else p)
      <$> ps !! id.
Proof.
  unfold confirmItem.
  destruct (ps !! oi_productId item) as [product|] eqn:Hp.
  - rewrite lookup_insert. case_decide as Hid.
    + subst id. rewrite Hp. simpl. f_equal.
      unfold moveStock. do 2 f_equal; lia.
    + destruct (ps !! id); done.
  - case_decide as Hid.
    + subst id. by rewrite Hp.
    + destruct (ps !! id); done.
Qed.

Lemma fold_release_moves ois :
  ∀ ps id, fold_left releaseItem ois ps !! id
           = (λ p, moveStock p (lineQty ois id) (- lineQty ois id) 0)
               <$> ps !! id.
Proof.
  induction ois as [|item rest IH]; intros ps id; simpl.
  - destruct (ps !! id); simpl; [|done]. by rewrite moveStock_0.
  - rewrite IH, releaseItem_lookup.
    destruct (ps !! id) as [p|]; simpl; [|done]. f_equal.
    case_decide; [|done].
    rewrite moveStock_moveStock. apply moveStock_ext; lia.
Qed.

Lemma fold_confirm_moves ois :
  ∀ ps id, fold_left confirmItem ois ps !! id
           = (λ p, moveStock p 0 (- lineQty ois id) (- lineQty ois id))
               <$> ps !! id.
Proof.
  induction ois as [|item rest IH]; intros ps id; simpl.
  - destruct (ps !! id); simpl; [|done]. by rewrite moveStock_0.
  - rewrite IH, confirmItem_lookup.
    destruct (ps !! id) as [p|]; simpl; [|done]. f_equal.
    case_decide; [|done].
    rewrite moveStock_moveStock. apply moveStock_ext; lia.
Qed.

Lemma lineQty_lines role pm its lines id :
  Forall2 (lineOf role pm) its lines → lineQty lines id = orderedQty its id.
Proof.
  induction 1 as [|it oi its lines (pr & _ & ->) _ IH]; simpl; [done|].
  by rewrite IH.
Qed.

Lemma getOrder_app_r os l id :
  getOrder os id = None → getOrder (os ++ l) id = getOrder l id.
Proof.
  unfold getOrder. induction os as [|x os IH]; simpl; [done|].
  destruct (o_id x =? id)%nat; [discriminate|apply IH].
Qed.

Lemma updateOrderStatus_success uid req now db db' o' :
  updateOrderStatus uid req now db = (db', Success o') →
  ∃ user order tl,
    users db !! uid = Some user
    ∧ getOrder (orders db) (sr_orderId req) = Some order
    ∧ canUpdate user order (sr_status req) (products db) = true
    ∧ o_timeline order = Some tl
    ∧ o_status o' = sr_status req
    ∧ o_timeline o' = Some (tl ++ [mkTimelineEntry (sr_status req) now])
    ∧ sameCore order o'
    ∧ o_paymentStatus o' = o_paymentStatus order
    ∧ products db'
      = statusInventory (sr_status req) (o_status order) (o_items order)
                        (products db)
    ∧ orders db' = putOrder (orders db) o'
    ∧ users db' = users db
    ∧ coupons db' = coupons db.
Proof.
  unfold updateOrderStatus, verifyToken. intros H.
  destruct (users db !! uid) as [user|]; [|discriminate].
  destruct (getOrder _ _) as [order|]; [|discriminate].
  destruct (canUpdate user order (sr_status req) (products db)) eqn:Hcan;
    [|discriminate].
  simpl in H. destruct (o_timeline order) as [tl|] eqn:Htl; [|discriminate].
  injection H as <- <-. exists user, order, tl.
  destruct ((sr_status req =? "shipped")%string && sr_shippingInfo req),
    (sr_status req =? "refunded")%string, (truthy (sr_refundReason req));
    simpl; rewrite ?Htl; done.
Qed.

Lemma createOrder_stored uid req now db db' o :
  getOrder (orders db) (nextId db) = None →
  createOrder uid req now db = (db', Success o) →
  getOrder (orders db') (o_id o) = Some o
  ∧ o_status o = "pending"
  ∧ (∀ id, products db' !! id
           = (λ p, moveStock p (- orderedQty (items req) id)
                             (orderedQty (items req) id) 0)
               <$> products db !! id)
  ∧ (∀ id, lineQty (o_items o) id = orderedQty (items req) id).
Proof.
  intros Hfresh H.
  apply createOrder_success in H as (user & ps & t & ois & _ & Hr & Hp).
  pose proof (reserveItems_moves _ _ _ _ _ _ _ Hr) as Hmoves.
  apply reserveItems_success in Hr as (lines & -> & Hl & _).
  pose proof (placeOrder_order _ _ _ _ _ _ _ _ _ Hp) as (Hit & _ & _ & _ & Hps & _).
  pose proof (placeOrder_frame _ _ _ _ _ _ _ _ _ Hp) as (_ & _ & _ & Hos & _ & Hid & _).
  split; [|split; [|split]].
  - rewrite Hos, Hid, getOrder_app_r by done.
    unfold getOrder. simpl. by rewrite Hid, Nat.eqb_refl.
  - unfold placeOrder in Hp. destruct (applyCoupon _ _ _) as [[d ac] cs].
    by injection Hp as _ <-.
  - intros id. by rewrite Hps.
  - intros id. rewrite Hit. simpl. by eapply lineQty_lines.
Qed.

(** X1.  A successful order creation moves, for every product, the sum of
    the quantities ordered of it (over all lines that name it) from
    [available] to [reserved]; [total], the other fields and the products
    that are not ordered stay as they were. *)
Theorem createOrder_moves_stock :
  ∀ uid req now db db' o,
    createOrder uid req now db = (db', Success o) →
    ∀ id, products db' !! id
          = (λ p, moveStock p (- orderedQty (items req) id)
                            (orderedQty (items req) id) 0)
              <$> products db !! id.
Proof.
  intros uid req now db db' o H id.
  apply createOrder_success in H as (user & ps & t & ois & _ & Hr & Hp).
  apply placeOrder_order in Hp as (_ & _ & _ & _ & -> & _).
  by eapply reserveItems_moves.
Qed.

Lemma createOrder_moves_stock_witness :
  ∃ db' o,
    createOrder "cust1" twoIphones 1 shopDb = (db', Success o)
    ∧ products db' !! "prod1"
      = (λ p, moveStock p (- orderedQty (items twoIphones) "prod1")
                        (orderedQty (items twoIphones) "prod1") 0)
          <$> products shopDb !! "prod1"
    ∧ inventoryOf db' "prod1" = Some (mkInventory 100 93 7 10).
Proof.
  do 2 eexists. split; [vm_compute; reflexivity|].
  split; [|vm_compute; reflexivity].
  eapply (createOrder_moves_stock "cust1" twoIphones 1 shopDb).
  vm_compute; reflexivity.
Defined.

(** X2.  Creating an order and then cancelling or refunding it through the
    status update puts every product back exactly as it was before the
    creation, also when a product occurs on several lines. *)
Theorem create_then_cancel_restores_stock :
  ∀ uid uid' req now now' db db1 db2 o o' status shippingInfo refundReason,
    getOrder (orders db) (nextId db) = None →
    createOrder uid req now db = (db1, Success o) →
    status = "cancelled" ∨ status = "refunded" →
    updateOrderStatus uid' (mkStatusReq (o_id o) status shippingInfo refundReason)
                      now' db1 = (db2, Success o') →
    products db2 = products db.
Proof.
  intros uid uid' req now now' db db1 db2 o o' status si rr Hfresh Hc Hst Hu.
  destruct (createOrder_stored _ _ _ _ _ _ Hfresh Hc) as (Hget & _ & Hmove & Hqty).
  apply updateOrderStatus_success in Hu
    as (user & order & tl & _ & Hget' & _ & _ & _ & _ & _ & _ & Hps & _).
  simpl in Hget', Hps. rewrite Hget in Hget'. injection Hget' as <-.
  rewrite Hps. unfold statusInventory.
  assert ((status =? "cancelled")%string || (status =? "refunded")%string = true)
    as ->.
  { destruct Hst as [-> | ->]; done. }
  apply map_eq. intros id.
  rewrite fold_release_moves, Hmove, Hqty.
  destruct (products db !! id) as [p|]; simpl; [|done]. f_equal.
  rewrite moveStock_moveStock.
  rewrite <- (moveStock_0 p) at 2. apply moveStock_ext; lia.
Qed.

Lemma create_then_cancel_restores_stock_witness :
  ∃ db1 db2 o o',
    createOrder "cust1" twoIphones 1 shopDb = (db1, Success o)
    ∧ updateOrderStatus "cust1" (mkStatusReq (o_id o) "cancelled" false None)
                        2 db1 = (db2, Success o')
    ∧ inventoryOf db1 "prod1" = Some (mkInventory 100 93 7 10)
    ∧ products db2 = products shopDb.
Proof.
  do 4 eexists. split; [vm_compute; reflexivity|].
  split; [vm_compute; reflexivity|]. split; [vm_compute; reflexivity|].
  eapply (create_then_cancel_restores_stock "cust1" "cust1" twoIphones 1 2
            shopDb _ _ _ _ "cancelled" false None).
  - vm_compute; reflexivity.
  - vm_compute; reflexivity.
  - by left.
  - vm_compute; reflexivity.
Defined.

(** X3.  Creating an order and then setting it to [paid] through the status
    update leaves every product with [total] and [available] lowered by the
    quantity ordered of it and [reserved] as before the creation. *)
Theorem create_then_paid_consumes_stock :
  ∀ uid uid' req now now' db db1 db2 o o' shippingInfo refundReason,
    getOrder (orders db) (nextId db) = None →
    createOrder uid req now db = (db1, Success o) →
    updateOrderStatus uid' (mkStatusReq (o_id o) "paid" shippingInfo refundReason)
                      now' db1 = (db2, Success o') →
    ∀ id, products db2 !! id
          = (λ p, moveStock p (- orderedQty (items req) id) 0
                            (- orderedQty (items req) id))
              <$> products db !! id.
Proof.
  intros uid uid' req now now' db db1 db2 o o' si rr Hfresh Hc Hu id.
  destruct (createOrder_stored _ _ _ _ _ _ Hfresh Hc) as (Hget & Hpend & Hmove & Hqty).
  apply updateOrderStatus_success in Hu
    as (user & order & tl & _ & Hget' & _ & _ & _ & _ & _ & _ & Hps & _).
  simpl in Hget', Hps. rewrite Hget in Hget'. injection Hget' as <-.
  rewrite Hps, Hpend. unfold statusInventory. simpl.
  rewrite fold_confirm_moves, Hmove, Hqty.
  destruct (products db !! id) as [p|]; simpl; [|done]. f_equal.
  rewrite moveStock_moveStock. apply moveStock_ext; lia.
Qed.

Lemma create_then_paid_consumes_stock_witness :
  ∃ db1 db2 o o',
    createOrder "cust1" twoIphones 1 shopDb = (db1, Success o)
    ∧ updateOrderStatus "admin1" (mkStatusReq (o_id o) "paid" false None)
                        2 db1 = (db2, Success o')
    ∧ inventoryOf shopDb "prod1" = Some (mkInventory 100 95 5 10)
    ∧ inventoryOf db2 "prod1" = Some (mkInventory 98 93 5 10)
    ∧ products db2 !! "prod1"
      = (λ p, moveStock p (- orderedQty (items twoIphones) "prod1") 0
                        (- orderedQty (items twoIphones) "prod1"))
          <$> products shopDb !! "prod1".
Proof.
  do 4 eexists. split; [vm_compute; reflexivity|].
  split; [vm_compute; reflexivity|]. split; [vm_compute; reflexivity|].
  split; [vm_compute; reflexivity|].
  eapply (create_then_paid_consumes_stock "cust1" "admin1" twoIphones 1 2
            shopDb _ _ _ _ false None).
  - vm_compute; reflexivity.
  - vm_compute; reflexivity.
  - vm_compute; reflexivity.
Defined.

(** ** Coupons and failures in order creation *)

(** X4.  The coupon code of a request never decides whether the order is
    created: with any code (unknown, inactive, below its minimum amount)
    creation succeeds or fails exactly as without one, with the same error,
    the same lines, the same subtotal and the same stock movement.  Only
    the discount and the coupon store can differ. *)
Theorem createOrder_coupon_independent :
  ∀ uid req code now db,
    products (fst (createOrder uid (withCoupon req code) now db))
    = products (fst (createOrder uid req now db))
    ∧ match snd (createOrder uid (withCoupon req code) now db),
            snd (createOrder uid req now db) with
      | Success o1, Success o2 =>
        o_id o1 = o_id o2
        ∧ o_items o1 = o_items o2
        ∧ amt_subtotal (o_amount o1) = amt_subtotal (o_amount o2)
      | Failure e1, Failure e2 => e1 = e2
      | _, _ => False
      end.
Proof.
  intros uid req code now db. unfold createOrder. simpl.
  destruct (verifyToken uid db) as [user|]; [|done].
  destruct (items req) as [|i0 rest]; [done|].
  destruct (reserveItems _ _ _ _ _) as [ps [[t ois]|e]]; [|done].
  unfold placeOrder.
  destruct (applyCoupon (couponCode (withCoupon req code)) t (coupons db))
    as [[d1 ac1] cs1].
  destruct (applyCoupon (couponCode req) t (coupons db)) as [[d2 ac2] cs2].
  done.
Qed.

Lemma reserveItems_failure_kind role its :
  ∀ ps t acc ps' e,
    reserveItems role its ps t acc = (ps', Failure e) →
    e = ProductNotFound ∨ e = InsufficientStock.
Proof.
  induction its as [|item rest IH]; intros ps t acc ps' e H; simpl in H;
    [discriminate|].
  destruct (ps !! productId item) as [product|].
  - destruct (_ <? _); [injection H as _ <-; by right|]. by eapply IH.
  - injection H as _ <-. by left.
Qed.

(** X5.  A failed order creation stores no order, uses no coupon, sends no
    notice and draws no identifier: apart from the product counters the
    store is as before.  It fails in one of four ways, and the first two
    (unknown caller, no line) leave the products alone as well. *)
Theorem createOrder_failure_keeps_the_rest :
  ∀ uid req now db db' e,
    createOrder uid req now db = (db', Failure e) →
    set_products db' (products db) = db
    ∧ (e = Unauthorized ∨ e = EmptyItems
       ∨ e = ProductNotFound ∨ e = InsufficientStock)
    ∧ (e = Unauthorized ∨ e = EmptyItems → db' = db).
Proof.
  unfold createOrder, verifyToken. intros uid req now db db' e H.
  destruct (users db !! uid) as [user|].
  2:{ injection H as <- <-. split; [by destruct db|]. split; [by left|done]. }
  destruct (items req) as [|i0 rest].
  { injection H as <- <-. split; [by destruct db|].
    split; [by right; left|done]. }
  destruct (reserveItems _ _ _ _ _) as [ps [[t ois]|e']] eqn:Hr.
  - destruct (placeOrder _ _ _ _ _ _ _). discriminate.
  - injection H as <- <-. split; [by destruct db|].
    apply reserveItems_failure_kind in Hr.
    split; [destruct Hr as [-> | ->]; auto|].
    destruct Hr as [-> | ->]; intros [?|?]; discriminate.
Qed.

Lemma createOrder_failure_keeps_the_rest_witness :
  ∃ db',
    createOrder "cust1" twoLines 1 shopDb = (db', Failure InsufficientStock)
    ∧ set_products db' (products shopDb) = shopDb
    ∧ coupons db' = coupons shopDb ∧ orders db' = orders shopDb.
Proof.
  eexists. split; [vm_compute; reflexivity|].
  destruct (createOrder_failure_keeps_the_rest "cust1" twoLines 1 shopDb
              (fst (createOrder "cust1" twoLines 1 shopDb)) InsufficientStock)
    as (H & _); [vm_compute; reflexivity|].
  split; [exact H|]. split; vm_compute; reflexivity.
Defined.

Lemma sumTotals_nonneg l :
  Forall (λ oi, (0 <= oi_total oi)%Q) l → (0 <= sumTotals l)%Q.
Proof.
  induction 1 as [|oi l Hoi _ IH]; simpl; [apply Qle_refl|]. lra.
Qed.

Lemma priceForRole_nonneg role pr :
  (0 <= price_selling pr)%Q → (0 <= price_distributor pr)%Q →
  (0 <= price_retailer pr)%Q → (0 <= priceForRole role pr)%Q.
Proof. intros. unfold priceForRole. repeat case_decide; done. Qed.

Lemma capDiscount_le x m : (capDiscount x m <= x)%Q.
Proof.
  unfold capDiscount. destruct m as [m|]; [|apply Qle_refl].
  destruct (Qeq_bool m 0); [apply Qle_refl|apply Q.le_min_l].
Qed.

Lemma discountOf_le coupon t :
  (0 <= t)%Q →
  (c_type coupon = "percentage" → (c_value coupon <= 100)%Q) →
  (discountOf coupon t <= t)%Q.
Proof.
  intros Ht Hpc. unfold discountOf.
  destruct (String.eqb_spec (c_type coupon) "percentage") as [Hty|_].
  - eapply Qle_trans; [apply capDiscount_le|].
    specialize (Hpc Hty).
    assert (t * c_value coupon <= t * 100)%Q as H.
    { rewrite (Qmult_comm t (c_value coupon)), (Qmult_comm t 100).
      by apply Qmult_le_compat_r. }
    apply Qle_shift_div_r; [reflexivity|exact H].
  - destruct (c_type coupon =? "fixed")%string; [apply Q.le_min_r|done].
Qed.

(** X6.  When the stored prices and the ordered quantities are not negative
    and no percentage coupon is above 100%, a created order has a
    non-negative subtotal, a discount that does not exceed it, and a
    non-negative total. *)
Theorem createOrder_total_nonneg :
  ∀ uid req now db db' o,
    pricesNonneg db →
    percentagesAtMost100 db →
    Forall (λ it, 0 <= quantity it) (items req) →
    createOrder uid req now db = (db', Success o) →
    (0 <= amt_subtotal (o_amount o))%Q
    ∧ (amt_discount (o_amount o) <= amt_subtotal (o_amount o))%Q
    ∧ (0 <= amt_total (o_amount o))%Q.
Proof.
  intros uid req now db db' o Hpr Hpc Hq H.
  apply createOrder_success in H as (user & ps & t & ois & _ & Hr & Hp).
  apply reserveItems_success in Hr as (lines & -> & Hl & Ht & _).
  apply placeOrder_order in Hp as (_ & Hsub & Htot & Hc & _).
  assert (Hsub0 : (0 <= t)%Q).
  { rewrite Ht, Qplus_0_l. apply sumTotals_nonneg.
    clear -Hl Hq Hpr.
    induction Hl as [|it oi its ois (pr & Hlk & ->) _ IH]; [done|].
    inversion Hq; subst. constructor; [|by apply IH]. simpl.
    rewrite lookup_fmap in Hlk.
    destruct (products db !! productId it) as [p|] eqn:Hp; [|done].
    injection Hlk as <-. destruct (Hpr _ _ Hp) as (? & ? & ?).
    apply Qmult_le_0_compat; [by apply priceForRole_nonneg|].
    unfold Qle. simpl. lia. }
  assert (Hd : (amt_discount (o_amount o) <= t)%Q).
  { unfold applyCoupon in Hc.
    destruct (truthy (couponCode req)) as [code|].
    2:{ by injection Hc as -> _ _. }
    destruct (find (couponMatches code) (coupons db)) as [coupon|] eqn:Hf.
    2:{ by injection Hc as -> _ _. }
    destruct (Qgeb t (c_minAmount coupon)).
    2:{ by injection Hc as -> _ _. }
    injection Hc as -> _ _. apply discountOf_le; [done|].
    apply find_some in Hf as [Hin _].
    unfold percentagesAtMost100 in Hpc. rewrite Forall_forall in Hpc.
    apply Hpc. by apply list_elem_of_In. }
  rewrite Htot, Hsub. repeat split; [done|done|lra].
Qed.

Lemma createOrder_total_nonneg_witness :
  ∃ db' o,
    createOrder "cust1" (oneIphoneWith "NEWUSER10") 1 shopDb = (db', Success o)
    ∧ (0 <= amt_subtotal (o_amount o))%Q
    ∧ (amt_discount (o_amount o) <= amt_subtotal (o_amount o))%Q
    ∧ (0 <= amt_total (o_amount o))%Q.
Proof.
  do 2 eexists. split; [vm_compute; reflexivity|].
  eapply (createOrder_total_nonneg "cust1" (oneIphoneWith "NEWUSER10") 1 shopDb).
  - intros id p. unfold shopDb, withUser, set_users, initDatabase. simpl.
    rewrite !lookup_insert. repeat case_decide; try done;
      intros [= <-]; vm_compute; repeat split; discriminate.
  - unfold percentagesAtMost100. repeat constructor. intros _. vm_compute.
    discriminate.
  - repeat constructor. simpl. lia.
  - vm_compute; reflexivity.
Defined.

(** ** Who may change an order, and what a payment needs *)

Lemma canUpdate_mayUpdate user order status ps :
  canUpdate user order status ps = true ↔ mayUpdate user order status ps.
Proof.
  unfold canUpdate, mayUpdate. rewrite !orb_true_iff, !andb_true_iff.
  rewrite !String.eqb_eq, existsb_exists.
  split.
  - intros [[H|[H (item & Hin & Hs)]]|[[H1 H2] H3]]; [by left| |by right; right].
    right; left. split; [done|]. unfold suppliesItem in Hs.
    destruct (ps !! oi_productId item) as [p|] eqn:Hp; [|done].
    exists item, p. apply String.eqb_eq in Hs.
    split; [by apply list_elem_of_In|done].
  - intros [H|[[H (item & p & Hin & Hp & Hs)]|(H1 & H2 & H3)]];
      [by left; left| |by right].
    left; right. split; [done|]. exists item.
    split; [by apply list_elem_of_In|].
    unfold suppliesItem. rewrite Hp. by apply String.eqb_eq.
Qed.

(** X7.  The status update is refused with [Forbidden], and changes
    nothing, exactly when the caller and the order exist and the caller is
    neither an administrator, nor a supplier of one of the order's
    products, nor the customer owning the order and asking for
    [cancelled].  So a caller of any other role (a distributor or a
    retailer, say) can never change an order, not even cancel their own,
    and a customer can never touch another customer's order nor set any
    status but [cancelled]. *)
Theorem updateOrderStatus_forbidden :
  ∀ uid req now db user order,
    users db !! uid = Some user →
    getOrder (orders db) (sr_orderId req) = Some order →
    (updateOrderStatus uid req now db = (db, Failure Forbidden)
     ↔ ¬ mayUpdate user order (sr_status req) (products db))
    ∧ (u_role user ≠ "admin" → u_role user ≠ "supplier" →
       u_role user ≠ "customer" →
       updateOrderStatus uid req now db = (db, Failure Forbidden))
    ∧ (u_role user = "customer" →
       o_userId order ≠ u_id user ∨ sr_status req ≠ "cancelled" →
       updateOrderStatus uid req now db = (db, Failure Forbidden)).
Proof.
  intros uid req now db user order Hu Ho.
  assert (Hno : ¬ mayUpdate user order (sr_status req) (products db) →
                updateOrderStatus uid req now db = (db, Failure Forbidden)).
  { intros Hn. unfold updateOrderStatus, verifyToken. rewrite Hu, Ho.
    destruct (canUpdate user order (sr_status req) (products db)) eqn:Hc;
      [|done].
    by apply canUpdate_mayUpdate in Hc. }
  split; [split; [|exact Hno]|split].
  - intros H Hm. apply canUpdate_mayUpdate in Hm.
    unfold updateOrderStatus, verifyToken in H. rewrite Hu, Ho, Hm in H.
    simpl in H. destruct (o_timeline order); discriminate.
  - intros H1 H2 H3. apply Hno.
    intros [?|[[? _]|[? _]]]; congruence.
  - intros Hr Hcase. apply Hno.
    intros [?|[[? _]|(_ & ? & ?)]]; [congruence|congruence|].
    destruct Hcase; congruence.
Qed.

Lemma updateOrderStatus_forbidden_witness :
  ∃ db1 o,
    createOrder "dist1" oneIphone 1 shopDb = (db1, Success o)
    ∧ updateOrderStatus "dist1" (mkStatusReq (o_id o) "cancelled" false None)
                        2 db1 = (db1, Failure Forbidden).
Proof.
  do 2 eexists. split; [vm_compute; reflexivity|].
  eapply (proj1 (proj2 (updateOrderStatus_forbidden "dist1"
                          (mkStatusReq 0 "cancelled" false None) 2 _
                          (registered "dist1" "distributor" None) _ _ _))).
  - vm_compute. discriminate.
  - vm_compute. discriminate.
  - vm_compute. discriminate.
  Unshelve.
  + exact (match snd (createOrder "dist1" oneIphone 1 shopDb) with
           | Success o => o
           | Failure _ => mkOrder 0 "" [] (mkAmount 0 0 0) None "" None None
                            None "" "" None None None None 0 None
           end).
  + vm_compute; reflexivity.
  + vm_compute; reflexivity.
Defined.

(** X8.  A payment is accepted exactly when the caller is known, owns the
    order, the order is not yet marked paid and it has a timeline.  The
    current status of the order plays no part: a cancelled, refunded or
    delivered order is paid like a pending one. *)
Theorem payOrder_accepted_iff :
  ∀ uid req now db,
    (∃ db' o pts, payOrder uid req now db = (db', Success (o, pts)))
    ↔ (∃ user order tl,
          users db !! uid = Some user
          ∧ getOrder (orders db) (pr_orderId req) = Some order
          ∧ o_userId order = u_id user
          ∧ o_paymentStatus order ≠ "paid"
          ∧ o_timeline order = Some tl).
Proof.
  intros uid req now db. split.
  - intros (db' & o & pts & H).
    apply payOrder_success in H
      as (user & order & tl & Hu & Ho & Hown & Hunpaid & Htl & _).
    by exists user, order, tl.
  - intros (user & order & tl & Hu & Ho & Hown & Hunpaid & Htl).
    unfold payOrder, verifyToken. rewrite Hu, Ho.
    destruct (String.eqb_spec (o_userId order) (u_id user)); [|done].
    destruct (String.eqb_spec (o_paymentStatus order) "paid"); [done|].
    simpl. rewrite Htl. by eexists _, _, _.
Qed.

Lemma pointsOf_add_wallet us r ru c k :
  us !! r = Some ru →
  pointsOf (<[r := add_wallet ru c]> us) k = pointsOf us k.
Proof.
  intros Hr. unfold pointsOf. rewrite lookup_insert. case_decide; [|done].
  subst k. by rewrite Hr.
Qed.

Lemma distributeCommission_points us buyer total k :
  pointsOf (distributeCommission us buyer total) k = pointsOf us k.
Proof.
  unfold distributeCommission.
  destruct (truthy (referrerId (u_profile buyer))) as [r1|]; [|done].
  destruct (us !! r1) as [ru1|] eqn:E1; [|done].
  destruct (truthy (referrerId (u_profile ru1))) as [r2|];
    [|by rewrite pointsOf_add_wallet].
  destruct (<[r1:=_]> us !! r2) as [ru2|] eqn:E2;
    [|by rewrite pointsOf_add_wallet].
  destruct (truthy (referrerId (u_profile ru2))) as [r3|];
    [|by rewrite !pointsOf_add_wallet].
  destruct (<[r2:=_]> _ !! r3) as [ru3|] eqn:E3;
    by rewrite !pointsOf_add_wallet.
Qed.

(** X9.  An accepted payment credits the buyer with
    [floor(amount.total / 100)] points -- the number the response reports --
    and changes the points of nobody else, referrers included; the order
    comes back with status and payment status [paid] and its other
    contents unchanged. *)
Theorem payOrder_points :
  ∀ uid req now db db' o pts,
    payOrder uid req now db = (db', Success (o, pts)) →
    pts = Qfloor (amt_total (o_amount o) * (1 # 100))
    ∧ (inject_Z pts <= amt_total (o_amount o) * (1 # 100) < inject_Z (pts + 1))%Q
    ∧ (∃ n, pointsOf (users db) uid = Some n
            ∧ pointsOf (users db') uid = Some (n + pts))
    ∧ (∀ k, k ≠ uid → pointsOf (users db') k = pointsOf (users db) k)
    ∧ o_status o = "paid" ∧ o_paymentStatus o = "paid"
    ∧ ∃ order, getOrder (orders db) (pr_orderId req) = Some order
               ∧ sameCore order o.
Proof.
  intros uid req now db db' o pts H.
  apply payOrder_success in H
    as (buyer & order & tl & Hu & Ho & Hown & Hunpaid & Htl & -> & -> & Hus & Hos).
  split; [done|]. split.
  { unfold pointsEarned. split; [apply Qfloor_le|apply Qlt_floor]. }
  split; [|split; [|split; [done|split; [done|]]]].
  - exists (points (u_profile buyer)). unfold pointsOf at 1. rewrite Hu.
    split; [done|]. rewrite Hus, distributeCommission_points.
    unfold pointsOf. by rewrite lookup_insert_eq.
  - intros k Hk. rewrite Hus, distributeCommission_points.
    unfold pointsOf. by rewrite lookup_insert_ne.
  - by exists order.
Qed.

Lemma payOrder_points_witness :
  ∃ db1 db2 o o2 pts,
    createOrder "cust1" twoIphones 1 shopDb = (db1, Success o)
    ∧ payOrder "cust1" (mkPayReq 0 "online") 3 db1 = (db2, Success (o2, pts))
    ∧ pointsOf (users db1) "cust1" = Some 100
    ∧ pointsOf (users db2) "cust1" = Some 279
    ∧ (pts = Qfloor (amt_total (o_amount o2) * (1 # 100))
       ∧ (inject_Z pts <= amt_total (o_amount o2) * (1 # 100)
          < inject_Z (pts + 1))%Q
       ∧ (∃ n, pointsOf (users db1) "cust1" = Some n
               ∧ pointsOf (users db2) "cust1" = Some (n + pts))
       ∧ (∀ k, k ≠ "cust1" → pointsOf (users db2) k = pointsOf (users db1) k)
       ∧ o_status o2 = "paid" ∧ o_paymentStatus o2 = "paid"
       ∧ ∃ order, getOrder (orders db1) (pr_orderId (mkPayReq 0 "online"))
                  = Some order
                  ∧ sameCore order o2).
Proof.
  do 5 eexists. split; [vm_compute; reflexivity|].
  split; [vm_compute; reflexivity|]. split; [vm_compute; reflexivity|].
  split; [vm_compute; reflexivity|].
  eapply (payOrder_points "cust1" (mkPayReq 0 "online") 3).
  vm_compute; reflexivity.
Defined.

Lemma payOrder_accepted_iff_witness :
  ∃ db1 db2 o o1,
    createOrder "cust1" twoIphones 1 shopDb = (db1, Success o)
    ∧ updateOrderStatus "cust1" (mkStatusReq 0 "cancelled" false None) 2 db1
      = (db2, Success o1)
    ∧ o_status o1 = "cancelled"
    ∧ ∃ db3 o2 pts,
        payOrder "cust1" (mkPayReq 0 "online") 3 db2 = (db3, Success (o2, pts)).
Proof.
  do 4 eexists. split; [vm_compute; reflexivity|].
  split; [vm_compute; reflexivity|]. split; [vm_compute; reflexivity|].
  apply (proj2 (payOrder_accepted_iff "cust1" (mkPayReq 0 "online") 3 _)).
  eexists _, _, _. split; [vm_compute; reflexivity|].
  split; [vm_compute; reflexivity|]. split; [vm_compute; reflexivity|].
  split; [vm_compute; discriminate|vm_compute; reflexivity].
Defined.
(** * Flash-sale accounts over runs *)

Lemma sumPurchased_record sale userId q :
  sumPurchased (recordPurchase sale userId (purchasedBy sale userId) q)
  = sumPurchased sale + q.
Proof.
  unfold sumPurchased, recordPurchase, purchasedBy. simpl.
  destruct (fs_participants sale !! userId) as [n|] eqn:Hn; simpl.
  - rewrite <- insert_delete_eq.
    rewrite map_fold_insert_L; [|intros; lia|by rewrite lookup_delete_eq].
    rewrite (map_fold_delete_L _ _ userId n (fs_participants sale));
      [lia|intros; lia|done].
  - rewrite map_fold_insert_L; [lia|intros; lia|done].
Qed.

Lemma purchaseFlashSale_sales uid req now db :
  flashSales (fst (purchaseFlashSale uid req now db)) = flashSales db
  ∨ ∃ user sale,
      users db !! uid = Some user
      ∧ flashSales db !! pq_saleId req = Some sale
      ∧ flashSales (fst (purchaseFlashSale uid req now db))
        = <[pq_saleId req :=
              recordPurchase sale (u_id user) (purchasedBy sale (u_id user))
                             (pq_quantity req)]> (flashSales db).
Proof.
  unfold purchaseFlashSale, verifyToken.
  destruct (users db !! uid) as [user|]; [|by left].
  destruct (flashSales db !! pq_saleId req) as [sale|]; [|by left].
  repeat (destruct (_ <? _); [by left|]).
  right. by exists user, sale.
Qed.

Lemma handle_sales r db :
  flashSales (handle r db) = flashSales db
  ∨ ∃ k user sale q,
      flashSales db !! k = Some sale
      ∧ flashSales (handle r db)
        = <[k := recordPurchase sale (u_id user) (purchasedBy sale (u_id user)) q]>
            (flashSales db).
Proof.
  destruct r as [uid req now|uid req now|uid req now|uid req now|uid req now];
    simpl.
  - left. apply createOrder_flashSales.
  - left. apply updateOrderStatus_flashSales.
  - left. apply payOrder_flashSales.
  - destruct (purchaseFlashSale_sales uid req now db)
      as [->|(user & sale & _ & Hs & ->)]; [by left|].
    right. by exists (pq_saleId req), user, sale, (pq_quantity req).
  - left. apply joinGroupBuying_flashSales.
Qed.

Lemma handle_soldIsSum r db : soldIsSum db → soldIsSum (handle r db).
Proof.
  intros Hdb. unfold soldIsSum.
  destruct (handle_sales r db) as [->|(k & user & sale & q & Hs & ->)]; [done|].
  intros k' sale' [[<- <-]|[_ H]]%lookup_insert_Some; [|by eapply Hdb].
  rewrite sumPurchased_record. simpl. rewrite (Hdb _ _ Hs). done.
Qed.

Lemma run_soldIsSum rs : ∀ db, soldIsSum db → soldIsSum (run rs db).
Proof.
  induction rs as [|r rs IH]; intros db H; [done|].
  apply IH. by apply handle_soldIsSum.
Qed.

(** X10.  Over any run of requests, the sold count of every flash sale stays
    equal to the sum of the quantities recorded for its buyers, so that sum
    never exceeds the inventory of the sale. *)
Theorem flashSale_sold_is_sum_of_purchases :
  ∀ rs db,
    salesInv db → soldIsSum db →
    ∀ k sale, flashSales (run rs db) !! k = Some sale →
              fs_soldCount sale = sumPurchased sale
              ∧ sumPurchased sale <= fs_inventory sale.
Proof.
  intros rs db Hinv Hsum k sale Hk.
  pose proof (run_soldIsSum rs db Hsum k sale Hk) as Hs.
  pose proof (run_salesInv rs db Hinv k sale Hk) as [Hle _].
  split; [done|lia].
Qed.

Lemma salesInv_saleDb : salesInv saleDb.
Proof.
  intros k sale H. unfold saleDb in H. simpl in H.
  apply lookup_insert_Some in H as [[_ <-]|[_ H]]; [|done].
  split; [vm_compute; discriminate|]. intros u n Hn. done.
Qed.

Lemma soldIsSum_saleDb : soldIsSum saleDb.
Proof.
  intros k sale H. unfold saleDb in H. simpl in H.
  apply lookup_insert_Some in H as [[_ <-]|[_ H]]; [|done].
  reflexivity.
Qed.

Lemma flashSale_sold_is_sum_of_purchases_witness :
  ∃ sale,
    flashSales (run [PurchaseFlashSale "cust1" (mkPurchaseReq "sale1" 1) 50]
                    saleDb) !! "sale1" = Some sale
    ∧ fs_soldCount sale = sumPurchased sale
    ∧ sumPurchased sale <= fs_inventory sale.
Proof.
  eexists. split; [vm_compute; reflexivity|].
  eapply (flashSale_sold_is_sum_of_purchases
            [PurchaseFlashSale "cust1" (mkPurchaseReq "sale1" 1) 50] saleDb
            salesInv_saleDb soldIsSum_saleDb "sale1").
  vm_compute; reflexivity.
Defined.

Lemma handle_saleTerms r db k sale :
  flashSales db !! k = Some sale →
  ∃ sale', flashSales (handle r db) !! k = Some sale'
           ∧ saleTerms sale' = saleTerms sale.
Proof.
  intros Hk.
  destruct (handle_sales r db) as [->|(k' & user & s & q & Hs & ->)];
    [by exists sale|].
  destruct (decide (k' = k)) as [->|Hne].
  - rewrite lookup_insert_eq. eexists. split; [done|].
    rewrite Hk in Hs. by injection Hs as ->.
  - rewrite lookup_insert_ne by done. by exists sale.
Qed.

(** X11.  No request removes a flash sale or rewrites its terms: product,
    prices, inventory cap, time window, per-user limit and status of every
    stored sale are after any run what they were before.  In particular the
    status written at creation is never updated. *)
Theorem flashSale_terms_are_kept :
  ∀ rs db k sale,
    flashSales db !! k = Some sale →
    ∃ sale', flashSales (run rs db) !! k = Some sale'
             ∧ saleTerms sale' = saleTerms sale.
Proof.
  induction rs as [|r rs IH]; intros db k sale Hk; [by exists sale|].
  destruct (handle_saleTerms r db k sale Hk) as (s1 & H1 & E1).
  destruct (IH (handle r db) k s1 H1) as (s2 & H2 & E2).
  exists s2. split; [done|]. by rewrite E2.
Qed.

Lemma flashSale_terms_are_kept_witness :
  ∃ sale',
    flashSales (run [PurchaseFlashSale "cust1" (mkPurchaseReq "sale1" 1) 50]
                    saleDb) !! "sale1" = Some sale'
    ∧ saleTerms sale' = saleTerms sale1.
Proof.
  apply (flashSale_terms_are_kept
           [PurchaseFlashSale "cust1" (mkPurchaseReq "sale1" 1) 50] saleDb
           "sale1" sale1).
  vm_compute; reflexivity.
Defined.

(** * Creating a flash sale *)

Lemma createFlashSale_success uid req newId db db' sale :
  createFlashSale uid req newId db = (db', Success sale) →
  ∃ user p,
    users db !! uid = Some user
    ∧ (u_role user = "admin" ∨ u_role user = "supplier")
    ∧ products db !! fq_productId req = Some p
    ∧ sale = mkFlashSale (fq_productId req) (fq_originalPrice req)
                         (fq_salePrice req) (fq_inventory req) 0
                         (fq_startTime req) (fq_endTime req)
                         (fq_limitPerUser req) ∅ "scheduled"
    ∧ flashSales db' = <[newId := sale]> (flashSales db)
    ∧ users db' = users db ∧ products db' = products db
    ∧ orders db' = orders db ∧ nextId db' = nextId db.
Proof.
  unfold createFlashSale, verifyToken, requireRole. intros H.
  destruct (users db !! uid) as [user|]; [|done].
  simpl in H. rewrite orb_false_r in H.
  destruct (String.eqb_spec (u_role user) "admin") as [Ha|Ha];
    [|destruct (String.eqb_spec (u_role user) "supplier") as [Hs|Hs]];
    simpl in H; try done.
  - destruct (products db !! fq_productId req) as [p|]; [|done].
    injection H as <- <-. exists user, p. by repeat split; auto.
  - destruct (products db !! fq_productId req) as [p|]; [|done].
    injection H as <- <-. exists user, p. by repeat split; auto.
Qed.

(** X12.  A sale stored by the creation route is open to any known user
    exactly as its request says: a purchase on it is accepted when, and only
    when, the instant lies in the time window and the quantity exceeds
    neither the inventory nor the per-user limit of the request.  Nothing
    else is checked: neither the status of the sale nor the sign of the
    quantity. *)
Theorem createFlashSale_then_purchase :
  ∀ uid req newId db db' sale buyer user q now,
    createFlashSale uid req newId db = (db', Success sale) →
    users db !! buyer = Some user →
    (∃ db'' o,
        purchaseFlashSale buyer (mkPurchaseReq newId q) now db'
        = (db'', Success o))
    ↔ (fq_startTime req <= now <= fq_endTime req
       ∧ q <= fq_inventory req
       ∧ q <= fq_limitPerUser req).
Proof.
  intros uid req newId db db' sale buyer user q now Hc Hb.
  apply createFlashSale_success in Hc
    as (creator & p & _ & _ & _ & -> & Hfs & Hus & _).
  rewrite (purchaseFlashSale_decision buyer (mkPurchaseReq newId q) now db' user
             (mkFlashSale (fq_productId req) (fq_originalPrice req)
                (fq_salePrice req) (fq_inventory req) 0 (fq_startTime req)
                (fq_endTime req) (fq_limitPerUser req) ∅ "scheduled"));
    [|by rewrite Hus|by rewrite Hfs; simpl; rewrite lookup_insert_eq].
  unfold purchasedBy. simpl. rewrite lookup_empty. simpl.
  destruct (Z.ltb_spec now (fq_startTime req)).
  { split; [by intros (? & ? & ?)|lia]. }
  destruct (Z.ltb_spec (fq_endTime req) now).
  { split; [by intros (? & ? & ?)|lia]. }
  destruct (Z.ltb_spec (fq_inventory req) (0 + q)).
  { split; [by intros (? & ? & ?)|lia]. }
  destruct (Z.ltb_spec (fq_limitPerUser req) (0 + q)).
  { split; [by intros (? & ? & ?)|lia]. }
  split; [lia|]. intros _. by eexists _, _.
Qed.

Lemma createFlashSale_then_purchase_witness :
  ∃ db' sale,
    createFlashSale "sup1" (mkFlashSaleReq "prod1" 9999 7999 5 0 100 1) "s9"
                    (withUser (registered "sup1" "supplier" None) shopDb)
    = (db', Success sale)
    ∧ ((∃ db'' o,
           purchaseFlashSale "cust1" (mkPurchaseReq "s9" 1) 50 db'
           = (db'', Success o))
       ↔ (fq_startTime (mkFlashSaleReq "prod1" 9999 7999 5 0 100 1) <= 50
          <= fq_endTime (mkFlashSaleReq "prod1" 9999 7999 5 0 100 1)
          ∧ 1 <= fq_inventory (mkFlashSaleReq "prod1" 9999 7999 5 0 100 1)
          ∧ 1 <= fq_limitPerUser (mkFlashSaleReq "prod1" 9999 7999 5 0 100 1))).
Proof.
  eexists _, _. split; [vm_compute; reflexivity|].
  eapply (createFlashSale_then_purchase "sup1"
            (mkFlashSaleReq "prod1" 9999 7999 5 0 100 1) "s9"
            (withUser (registered "sup1" "supplier" None) shopDb)
            _ _ "cust1").
  - vm_compute; reflexivity.
  - vm_compute; reflexivity.
Defined.
(** * Creating a group-buying activity *)

Lemma createGroupBuying_success uid req newId db db' activity :
  createGroupBuying uid req newId db = (db', Success activity) →
  ∃ user p,
    users db !! uid = Some user
    ∧ (u_role user = "admin" ∨ u_role user = "supplier")
    ∧ products db !! aq_productId req = Some p
    ∧ activity = mkActivity (aq_productId req) (aq_groupSize req)
                            (aq_originalPrice req) (aq_groupPrice req)
                            (aq_startTime req) (aq_endTime req)
                            (aq_maxGroups req) 0 0
    ∧ db' = mkDatabase (users db) (products db) (orders db) (coupons db)
                       (notifications db)
                       (<[newId := activity]> (groupBuyingActivities db))
                       (groupBuyingGroups db) (flashSales db) (nextId db).
Proof.
  unfold createGroupBuying, verifyToken, requireRole. intros H.
  destruct (users db !! uid) as [user|]; [|done].
  simpl in H. rewrite orb_false_r in H.
  destruct (String.eqb_spec (u_role user) "admin") as [Ha|Ha];
    [|destruct (String.eqb_spec (u_role user) "supplier") as [Hs|Hs]];
    simpl in H; try done.
  - destruct (products db !! aq_productId req) as [p|]; [|done].
    injection H as <- <-. exists user, p. by repeat split; auto.
  - destruct (products db !! aq_productId req) as [p|]; [|done].
    injection H as <- <-. exists user, p. by repeat split; auto.
Qed.

(** X13.  An activity stored by the creation route with a group size of at
    least one keeps the group bookkeeping sound: when the store satisfied
    the group invariant before, it satisfies it after the creation and
    after any run of requests that follows. *)
Theorem createGroupBuying_keeps_groups_sound :
  ∀ uid req newId db db' activity rs,
    createGroupBuying uid req newId db = (db', Success activity) →
    1 <= aq_groupSize req →
    groupsInv db →
    groupsInv (run rs db').
Proof.
  intros uid req newId db db' activity rs Hc Hsize (Hg & Hc1 & Hn & Ha).
  apply createGroupBuying_success in Hc as (user & p & _ & _ & _ & -> & ->).
  apply run_groupsInv. split; [|split; [|split]]; simpl; try done.
  intros aid a [[_ <-]|[_ Hl]]%lookup_insert_Some; [done|by eapply Ha].
Qed.

Lemma groupsInv_shopDb : groupsInv shopDb.
Proof.
  split; [|split; [|split]].
  - intros k g. simpl. by rewrite lookup_empty.
  - constructor.
  - constructor.
  - intros aid a. simpl. by rewrite lookup_empty.
Qed.

Lemma createGroupBuying_keeps_groups_sound_witness :
  ∃ db' a,
    createGroupBuying "supplier1" (mkActivityReq "prod1" 3 8999 7999 0 100 100)
                      "act9" shopDb = (db', Success a)
    ∧ groupsInv (run [JoinGroupBuy "cust1" (mkJoinReq "act9" None 1) 1] db').
Proof.
  eexists _, _. split; [vm_compute; reflexivity|].
  eapply (createGroupBuying_keeps_groups_sound "supplier1"
            (mkActivityReq "prod1" 3 8999 7999 0 100 100) "act9" shopDb).
  - vm_compute; reflexivity.
  - simpl; lia.
  - exact groupsInv_shopDb.
Defined.

(** * Members of a group *)

Lemma hasJoined_false g userId :
  hasJoined g userId = false → userId ∉ pt_userId <$> g_participants g.
Proof.
  unfold hasJoined. intros H Hin.
  apply list_elem_of_fmap in Hin as (p & -> & Hp).
  apply not_true_iff_false in H. apply H.
  apply existsb_exists. exists p. split; [by apply list_elem_of_In|].
  apply String.eqb_refl.
Qed.

Lemma joinGroupBuying_distinctJoiners uid req now db :
  distinctJoiners db → distinctJoiners (fst (joinGroupBuying uid req now db)).
Proof.
  intros Hd.
  destruct (joinGroupBuying_cases uid req now db)
    as [[-> _]|(user & activity & activity1 & gkey & group & next1 & Hu & Ha
                & _ & Hcase & Hj & ->)]; [done|].
  assert (Hgroup : NoDup (pt_userId <$> g_participants group)).
  { destruct Hcase as [(_ & Hg & _)|(_ & _ & -> & _)];
      [by eapply Hd|constructor]. }
  assert (Hnew : NoDup (pt_userId <$>
                          g_participants group
                          ++ [mkParticipant (u_id user) (u_username user)
                                            (jr_quantity req) now])).
  { rewrite fmap_app. apply NoDup_app. split; [done|]. split.
    - intros x Hx [->|[]%elem_of_nil]%elem_of_cons.
      by apply hasJoined_false in Hj.
    - simpl. apply NoDup_singleton. }
  rewrite joinGroup_eq, Hj. cbv zeta.
  destruct (_ <=? _); simpl; intros k g Hk; simpl in Hk;
    apply lookup_insert_Some in Hk as [[_ <-]|[_ Hk]]; simpl;
    first [done | by eapply Hd].
Qed.

Lemma handle_groups r db :
  (∃ uid req now, r = JoinGroupBuy uid req now)
  ∨ groupBuyingGroups (handle r db) = groupBuyingGroups db.
Proof.
  destruct r as [uid req now|uid req now|uid req now|uid req now|uid req now];
    simpl.
  - right. by destruct (createOrder_gframe uid req now db)
      as (? & ? & _ & _ & _ & _ & _ & ? & _).
  - right. apply updateOrderStatus_frame.
  - right. apply payOrder_frame.
  - right. apply purchaseFlashSale_frame.
  - left. eauto.
Qed.

Lemma handle_distinctJoiners r db :
  distinctJoiners db → distinctJoiners (handle r db).
Proof.
  intros Hd. destruct (handle_groups r db) as [(uid & req & now & ->)|Heq].
  - by apply joinGroupBuying_distinctJoiners.
  - unfold distinctJoiners. by rewrite Heq.
Qed.

(** X14.  No user is twice among the participants of a group: when the
    participants of every stored group are distinct users, they still are
    after any run of requests. *)
Theorem group_members_are_distinct :
  ∀ rs db, distinctJoiners db → distinctJoiners (run rs db).
Proof.
  induction rs as [|r rs IH]; intros db H; [done|].
  apply IH. by apply handle_distinctJoiners.
Qed.

Lemma distinctJoiners_groupDb : distinctJoiners groupDb.
Proof. intros k g. simpl. by rewrite lookup_empty. Qed.

Lemma group_members_are_distinct_witness :
  ∃ g,
    groupBuyingGroups
      (run (twoJoins ++ [JoinGroupBuy "cust2" (mkJoinReq "act1" (Some 0%nat) 1) 3])
           groupDb) !! 0%nat = Some g
    ∧ length (g_participants g) = 2%nat
    ∧ NoDup (pt_userId <$> g_participants g).
Proof.
  eexists. split; [vm_compute; reflexivity|]. split; [vm_compute; reflexivity|].
  eapply (group_members_are_distinct
            (twoJoins ++ [JoinGroupBuy "cust2" (mkJoinReq "act1" (Some 0%nat) 1) 3])
            groupDb distinctJoiners_groupDb 0%nat).
  vm_compute; reflexivity.
Defined.

(** * Orders kept by the store *)

Lemma timelineGrows_refl o : timelineGrows o o.
Proof. unfold timelineGrows. by destruct (o_timeline o). Qed.

Lemma orderKept_refl o : orderKept o o.
Proof. repeat split. apply timelineGrows_refl. Qed.

Lemma orderKept_trans o1 o2 o3 : orderKept o1 o2 → orderKept o2 o3 → orderKept o1 o3.
Proof.
  intros (Hc & Ht & Hd & Hg) (Hc' & Ht' & Hd' & Hg').
  repeat split; try congruence.
  unfold timelineGrows in *.
  destruct (o_timeline o1), (o_timeline o2), (o_timeline o3); try done.
  by etrans.
Qed.

Lemma updateFirst_lookup {A} (f : A → bool) (g : A → A) (l : list A) i x :
  l !! i = Some x →
  updateFirst f g l !! i = Some x
  ∨ (find f l = Some x ∧ updateFirst f g l !! i = Some (g x)).
Proof.
  revert i. induction l as [|y l IH]; intros i Hi; [done|]. simpl.
  destruct (f y) eqn:Hf.
  - destruct i as [|i]; simpl in *; [|by left].
    injection Hi as ->. by right.
  - destruct i as [|i]; simpl in *; [by left|]. by apply IH.
Qed.

Lemma putOrder_kept os id order o' i o :
  getOrder os id = Some order →
  o_id o' = id →
  orderKept order o' →
  os !! i = Some o →
  ∃ o2, putOrder os o' !! i = Some o2 ∧ orderKept o o2.
Proof.
  intros Hget Hid Hk Hi. unfold putOrder.
  destruct (updateFirst_lookup (λ o, Nat.eqb (o_id o) (o_id o')) (λ _, o')
              os i o Hi) as [H|[Hf H]].
  - exists o. split; [done|apply orderKept_refl].
  - exists o'. split; [done|].
    unfold getOrder in Hget. rewrite Hid, Hget in Hf. by injection Hf as <-.
Qed.

Lemma updateOrderStatus_kept uid req now db :
  orders (fst (updateOrderStatus uid req now db)) = orders db
  ∨ ∃ order o',
      getOrder (orders db) (sr_orderId req) = Some order
      ∧ o_id o' = sr_orderId req
      ∧ orderKept order o'
      ∧ orders (fst (updateOrderStatus uid req now db)) = putOrder (orders db) o'.
Proof.
  unfold updateOrderStatus.
  destruct (verifyToken uid db) as [user|]; [|by left].
  destruct (getOrder _ _) as [order|] eqn:Ho; [|by left].
  destruct (negb _); [by left|].
  pose proof (getOrder_id _ _ _ Ho) as Hid.
  simpl. destruct (o_timeline order) as [tl|] eqn:Htl; simpl.
  - right. eexists order, _. split; [done|]. split; [|split; [|reflexivity]].
    + by destruct ((sr_status req =? "shipped")%string && sr_shippingInfo req),
        (sr_status req =? "refunded")%string, (truthy (sr_refundReason req)).
    + unfold orderKept, timelineGrows. rewrite Htl.
      destruct ((sr_status req =? "shipped")%string && sr_shippingInfo req),
        (sr_status req =? "refunded")%string, (truthy (sr_refundReason req));
        simpl; repeat split; try done; by apply prefix_app_r.
  - right. eexists order, _. split; [done|]. split; [|split; [|reflexivity]].
    + done.
    + unfold orderKept, timelineGrows. simpl. rewrite Htl. by repeat split.
Qed.

Lemma payOrder_kept uid req now db :
  orders (fst (payOrder uid req now db)) = orders db
  ∨ ∃ order o',
      getOrder (orders db) (pr_orderId req) = Some order
      ∧ o_id o' = pr_orderId req
      ∧ orderKept order o'
      ∧ orders (fst (payOrder uid req now db)) = putOrder (orders db) o'.
Proof.
  unfold payOrder.
  destruct (verifyToken uid db) as [user|]; [|by left].
  destruct (getOrder _ _) as [order|] eqn:Ho; [|by left].
  destruct (negb _); [by left|].
  destruct (_ =? _)%string; [by left|].
  pose proof (getOrder_id _ _ _ Ho) as Hid.
  simpl. destruct (o_timeline order) as [tl|] eqn:Htl; simpl.
  - right. eexists order, _. split; [done|]. split; [|split; [|reflexivity]].
    + done.
    + unfold orderKept, timelineGrows. rewrite Htl. simpl.
      repeat split; try done; by apply prefix_app_r.
  - right. eexists order, _. split; [done|]. split; [|split; [|reflexivity]].
    + done.
    + unfold orderKept, timelineGrows. simpl. rewrite Htl. by repeat split.
Qed.

Lemma handle_orders r db :
  (∃ added, orders (handle r db) = orders db ++ added)
  ∨ ∃ id order o',
      getOrder (orders db) id = Some order
      ∧ o_id o' = id
      ∧ orderKept order o'
      ∧ orders (handle r db) = putOrder (orders db) o'.
Proof.
  destruct r as [uid req now|uid req now|uid req now|uid req now|uid req now];
    simpl.
  - left. destruct (createOrder uid req now db) as [db' [o|e]] eqn:H; simpl.
    + apply createOrder_success in H as (user & ps & t & ois & _ & _ & Hp).
      apply placeOrder_frame in Hp as (_ & _ & _ & -> & _). eauto.
    + apply createOrder_failure in H as (ps & -> & _). exists [].
      by rewrite app_nil_r.
  - destruct (updateOrderStatus_kept uid req now db)
      as [->|(order & o' & ?)]; [left; exists []; by rewrite app_nil_r|].
    right. by exists (sr_orderId req), order, o'.
  - destruct (payOrder_kept uid req now db)
      as [->|(order & o' & ?)]; [left; exists []; by rewrite app_nil_r|].
    right. by exists (pr_orderId req), order, o'.
  - left. destruct (purchaseFlashSale_frame uid req now db)
      as (_ & _ & _ & [->|(o & -> & _)]); [exists []; by rewrite app_nil_r|eauto].
  - left. destruct (joinGroupBuying uid req now db) as [db' r] eqn:H. simpl.
    apply joinGroupBuying_orders in H as (added & -> & _). eauto.
Qed.

Lemma handle_orderKept r db i o :
  orders db !! i = Some o →
  ∃ o', orders (handle r db) !! i = Some o' ∧ orderKept o o'.
Proof.
  intros Hi.
  destruct (handle_orders r db) as [[added ->]|(id & order & o' & Hg & Hid & Hk & ->)].
  - exists o. split; [|apply orderKept_refl].
    by apply lookup_app_l_Some.
  - by eapply putOrder_kept.
Qed.

(** X15.  The orders form a log that only grows: after any run of requests
    every stored order is still at its position, with the same id, buyer,
    lines, amount, type and creation instant, and its timeline has only been
    extended at the end. *)
Theorem orders_are_never_lost :
  ∀ rs db i o,
    orders db !! i = Some o →
    ∃ o', orders (run rs db) !! i = Some o' ∧ orderKept o o'.
Proof.
  induction rs as [|r rs IH]; intros db i o Hi.
  - exists o. split; [done|apply orderKept_refl].
  - destruct (handle_orderKept r db i o Hi) as (o1 & H1 & K1).
    destruct (IH (handle r db) i o1 H1) as (o2 & H2 & K2).
    exists o2. split; [done|]. by eapply orderKept_trans.
Qed.

Lemma orders_are_never_lost_witness :
  ∃ o,
    orders (run [CreateOrder "cust1" oneIphone 1] shopDb) !! 0%nat = Some o
    ∧ ∃ o',
        orders (run [UpdateStatus "cust1" (mkStatusReq 0 "cancelled" false None) 2;
                     PayOrder "cust1" (mkPayReq 0 "online") 3]
                    (run [CreateOrder "cust1" oneIphone 1] shopDb)) !! 0%nat
        = Some o'
        ∧ orderKept o o'.
Proof.
  eexists. split; [vm_compute; reflexivity|].
  eapply (orders_are_never_lost
            [UpdateStatus "cust1" (mkStatusReq 0 "cancelled" false None) 2;
             PayOrder "cust1" (mkPayReq 0 "online") 3]
            (run [CreateOrder "cust1" oneIphone 1] shopDb) 0%nat).
  vm_compute; reflexivity.
Defined.
(** * Listing orders *)

Lemma jsSlice_subseteq {A} (l : list A) s e x : x ∈ jsSlice l s e → x ∈ l.
Proof.
  unfold jsSlice. intros H.
  apply elem_of_take in H as (i & H & _).
  rewrite lookup_drop in H. by eapply list_elem_of_lookup_2.
Qed.

Lemma insertByDate_Permutation o l : insertByDate o l ≡ₚ o :: l.
Proof.
  induction l as [|x l IH]; simpl; [done|].
  destruct (_ <=? _); [done|]. rewrite IH. apply Permutation_swap.
Qed.

Lemma sortByDate_Permutation l : sortByDate l ≡ₚ l.
Proof.
  induction l as [|x l IH]; simpl; [done|].
  unfold sortByDate in *. simpl. rewrite insertByDate_Permutation. by f_equiv.
Qed.

Lemma filterBy_elem x f l o :
  o ∈ filterBy x f l → o ∈ l ∧ ∀ v, truthy x = Some v → f o = v.
Proof.
  unfold filterBy. destruct (truthy x) as [v|]; [|done].
  intros [Hin Hf]%list_elem_of_In%filter_In. split; [by apply list_elem_of_In|].
  intros v' [= <-]. by apply String.eqb_eq.
Qed.

Lemma listedOrders_elem user req db o :
  o ∈ listedOrders user req db →
  o ∈ orders db
  ∧ canSee user (products db) o = true
  ∧ (∀ s, truthy (lq_status req) = Some s → o_status o = s)
  ∧ (∀ t, truthy (lq_orderType req) = Some t → o_orderType o = t).
Proof.
  unfold listedOrders. rewrite sortByDate_Permutation.
  intros [[[Hin Hsee]%list_elem_of_In%filter_In Hst]%filterBy_elem Hty]%filterBy_elem.
  split; [by apply list_elem_of_In|done].
Qed.

(** X16.  Every order on a page of the order listing is a stored order that
    the caller may see and that passes the filters of the query; a caller
    who is neither administrator nor supplier gets own orders only. *)
Theorem listOrders_shows_only_visible_orders :
  ∀ uid req db page pg o,
    listOrders uid req db = Success (page, pg) →
    o ∈ page →
    ∃ user,
      users db !! uid = Some user
      ∧ o ∈ orders db
      ∧ canSee user (products db) o = true
      ∧ (∀ s, truthy (lq_status req) = Some s → o_status o = s)
      ∧ (∀ t, truthy (lq_orderType req) = Some t → o_orderType o = t)
      ∧ (u_role user ≠ "admin" → u_role user ≠ "supplier" →
         o_userId o = u_id user).
Proof.
  unfold listOrders, verifyToken, paginate. intros uid req db page pg o H Hin.
  destruct (users db !! uid) as [user|]; [|done].
  injection H as <- _. apply jsSlice_subseteq in Hin.
  apply listedOrders_elem in Hin as (Hin & Hsee & Hst & Hty).
  exists user. repeat split; try done.
  intros Ha Hs. unfold canSee in Hsee.
  destruct (String.eqb_spec (u_role user) "admin"); [done|].
  destruct (String.eqb_spec (u_role user) "supplier"); [done|].
  by apply String.eqb_eq.
Qed.

Lemma listOrders_shows_only_visible_orders_witness :
  ∃ page pg o,
    listOrders "cust1" (mkListReq 1 10 None None)
               (run [CreateOrder "cust1" oneIphone 1;
                     CreateOrder "dist1" twoIphones 2] shopDb)
    = Success (page, pg)
    ∧ page = [o]
    ∧ ∃ user,
        users (run [CreateOrder "cust1" oneIphone 1;
                    CreateOrder "dist1" twoIphones 2] shopDb) !! "cust1"
        = Some user
        ∧ o ∈ orders (run [CreateOrder "cust1" oneIphone 1;
                           CreateOrder "dist1" twoIphones 2] shopDb)
        ∧ canSee user
                 (products (run [CreateOrder "cust1" oneIphone 1;
                                 CreateOrder "dist1" twoIphones 2] shopDb)) o
          = true
        ∧ (∀ s, truthy (lq_status (mkListReq 1 10 None None)) = Some s →
                o_status o = s)
        ∧ (∀ t, truthy (lq_orderType (mkListReq 1 10 None None)) = Some t →
                o_orderType o = t)
        ∧ (u_role user ≠ "admin" → u_role user ≠ "supplier" →
           o_userId o = u_id user).
Proof.
  eexists _, _, _. split; [vm_compute; reflexivity|]. split; [reflexivity|].
  eapply (listOrders_shows_only_visible_orders "cust1"
            (mkListReq 1 10 None None)
            (run [CreateOrder "cust1" oneIphone 1;
                  CreateOrder "dist1" twoIphones 2] shopDb)).
  - vm_compute; reflexivity.
  - apply list_elem_of_here.
Defined.

Lemma insertByDate_sorted o l :
  StronglySorted (λ a b, o_createdAt b <= o_createdAt a) l →
  StronglySorted (λ a b, o_createdAt b <= o_createdAt a) (insertByDate o l).
Proof.
  induction 1 as [|x l Hs IH Hx]; simpl; [by repeat constructor|].
  destruct (Z.leb_spec (o_createdAt x) (o_createdAt o)).
  - constructor; [by constructor|]. constructor; [done|].
    eapply Forall_impl; [exact Hx|]. simpl. intros; lia.
  - constructor; [done|].
    rewrite insertByDate_Permutation. constructor; [lia|done].
Qed.

Lemma sortByDate_sorted l :
  StronglySorted (λ a b, o_createdAt b <= o_createdAt a) (sortByDate l).
Proof.
  induction l as [|x l IH]; [constructor|]. by apply insertByDate_sorted.
Qed.

(** X17.  Before pagination the listing holds exactly the stored orders
    that the caller may see and that pass the two filters, each as often as
    it is stored, ordered from the newest to the oldest. *)
Theorem listedOrders_sorted_and_complete :
  ∀ user req db,
    listedOrders user req db
    ≡ₚ filterBy (lq_orderType req) o_orderType
         (filterBy (lq_status req) o_status
            (List.filter (canSee user (products db)) (orders db)))
    ∧ StronglySorted (λ a b, o_createdAt b <= o_createdAt a)
                     (listedOrders user req db).
Proof.
  intros. split; [apply sortByDate_Permutation|apply sortByDate_sorted].
Qed.

(** * Pages *)

Lemma take_add_drop {A} (l : list A) a b :
  take (a + b) l = take a l ++ take b (drop a l).
Proof.
  revert l. induction a as [|a IH]; intros l; [done|].
  destruct l as [|x l]; simpl; [by rewrite take_nil|]. by rewrite IH.
Qed.

Lemma paginate_page {A} (l : list A) page limit :
  1 <= limit → 1 <= page →
  fst (paginate page limit l)
  = take (Z.to_nat limit) (drop (Z.to_nat (page - 1) * Z.to_nat limit) l).
Proof.
  intros Hl Hp. unfold paginate, jsSlice. simpl.
  assert (Hs : 0 <= (page - 1) * limit) by nia.
  destruct (Z.ltb_spec ((page - 1) * limit) 0); [lia|].
  destruct (Z.ltb_spec ((page - 1) * limit + limit) 0); [lia|].
  replace (Z.to_nat (page - 1) * Z.to_nat limit)%nat
    with (Z.to_nat ((page - 1) * limit)) by (rewrite Z2Nat.inj_mul; lia).
  set (s := (page - 1) * limit) in *.
  destruct (Z.le_gt_cases s (Z.of_nat (length l))).
  - rewrite (Z.min_l s) by lia.
    destruct (Z.le_gt_cases (s + limit) (Z.of_nat (length l))).
    + rewrite Z.min_l by lia. do 2 f_equal. lia.
    + rewrite Z.min_r by lia.
      rewrite !take_ge; [done|rewrite length_drop; lia..].
  - rewrite (Z.min_r s) by lia. rewrite Z.min_r by lia.
    rewrite Z.sub_diag. rewrite !drop_ge by lia. by rewrite !take_nil.
Qed.

Lemma concat_windows {A} (f : nat → list A) (l : list A) (lim n : nat) :
  (∀ p, f (S p) = take lim (drop (p * lim) l)) →
  concat (f <$> seq 1 n) = take (n * lim) l.
Proof.
  intros Hf. induction n as [|n IH]; [done|].
  rewrite seq_S, fmap_app, concat_app, IH. simpl. rewrite app_nil_r, Hf.
  rewrite <- take_add_drop. f_equal. lia.
Qed.

Lemma pages_concat {A} (l : list A) limit (n : nat) :
  1 <= limit →
  concat ((λ p : nat, fst (paginate (Z.of_nat p) limit l)) <$> seq 1 n)
  = take (n * Z.to_nat limit) l.
Proof.
  intros Hl. apply concat_windows. intros p.
  rewrite paginate_page by lia. do 3 f_equal. lia.
Qed.

Lemma jsSlice_length {A} (l : list A) s e :
  0 <= e - s → Z.of_nat (length (jsSlice l s e)) <= e - s.
Proof.
  intros H. unfold jsSlice. rewrite length_take, length_drop.
  destruct (Z.ltb_spec s 0), (Z.ltb_spec e 0); lia.
Qed.

(** X18.  Pages of a listing, for a limit of at least one.  The page count
    reported is the least number of pages that hold the whole listing; the
    pages 1, 2, ... up to that count, put one after the other, are the
    listing itself; every later page and page 0 are empty; and no page, for
    whatever page number, is longer than the limit. *)
Theorem pages_partition_the_listing :
  ∀ {A} (l : list A) limit,
    1 <= limit →
    ∃ n : nat,
      (∀ page, pg_pages (snd (paginate page limit l)) = Some (Z.of_nat n))
      ∧ (Z.of_nat n - 1) * limit < Z.of_nat (length l) <= Z.of_nat n * limit
      ∧ concat ((λ p : nat, fst (paginate (Z.of_nat p) limit l)) <$> seq 1 n) = l
      ∧ (∀ page, Z.of_nat n < page → fst (paginate page limit l) = [])
      ∧ fst (paginate 0 limit l) = []
      ∧ (∀ page, Z.of_nat (length (fst (paginate page limit l))) <= limit).
Proof.
  intros A l limit Hl.
  set (total := Z.of_nat (length l)).
  assert (Hdiv : 0 <= - (- total / limit)
                 ∧ (- (- total / limit) - 1) * limit < total
                   <= - (- total / limit) * limit).
  { pose proof (Z.div_mod (- total) limit ltac:(lia)) as Hdm.
    pose proof (Z.mod_pos_bound (- total) limit ltac:(lia)) as Hmod.
    subst total. nia. }
  destruct Hdiv as (Hn0 & Hlo & Hhi).
  exists (Z.to_nat (- (- total / limit))).
  rewrite Z2Nat.id by done.
  split; [|split; [|split; [|split; [|split]]]].
  - intros page. unfold paginate, ceilDiv. simpl.
    destruct (Z.eqb_spec limit 0); [lia|]. done.
  - done.
  - rewrite pages_concat by done. apply take_ge. fold total in Hhi |- *.
    apply Nat2Z.inj_le. rewrite Nat2Z.inj_mul, !Z2Nat.id by lia. exact Hhi.
  - intros page Hpage. rewrite paginate_page by lia.
    rewrite drop_ge; [by rewrite take_nil|].
    apply Nat2Z.inj_le. rewrite Nat2Z.inj_mul, !Z2Nat.id by lia.
    fold total. nia.
  - unfold paginate, jsSlice. simpl.
    replace ((0 - 1) * limit) with (- limit) by lia.
    replace (- limit + limit) with 0 by lia.
    destruct (Z.ltb_spec (- limit) 0); [|lia]. simpl.
    rewrite Z.min_l by lia.
    replace (Z.to_nat (0 - Z.max (Z.of_nat (length l) + - limit) 0)) with 0%nat
      by lia.
    done.
  - intros page. unfold paginate. simpl.
    pose proof (jsSlice_length l ((page - 1) * limit) ((page - 1) * limit + limit)).
    lia.
Qed.

Lemma pages_partition_the_listing_witness :
  ∃ n : nat,
    (∀ page, pg_pages (snd (paginate page 2 [1; 2; 3; 4; 5])) = Some (Z.of_nat n))
    ∧ (Z.of_nat n - 1) * 2 < Z.of_nat (length [1; 2; 3; 4; 5]) <= Z.of_nat n * 2
    ∧ concat ((λ p : nat, fst (paginate (Z.of_nat p) 2 [1; 2; 3; 4; 5]))
                <$> seq 1 n) = [1; 2; 3; 4; 5]
    ∧ (∀ page, Z.of_nat n < page → fst (paginate page 2 [1; 2; 3; 4; 5]) = [])
    ∧ fst (paginate 0 2 [1; 2; 3; 4; 5]) = []
    ∧ (∀ page, Z.of_nat (length (fst (paginate page 2 [1; 2; 3; 4; 5]))) <= 2).
Proof.
  apply (pages_partition_the_listing [1; 2; 3; 4; 5] 2). lia.
Defined.

(** * Listing and detail *)

Lemma getOrder_unique os o :
  NoDup (o_id <$> os) → o ∈ os → getOrder os (o_id o) = Some o.
Proof.
  unfold getOrder. induction os as [|x os IH]; intros Hnd Hin.
  - by apply elem_of_nil in Hin.
  - simpl in *. apply NoDup_cons in Hnd as [Hx Hnd].
    destruct (Nat.eqb_spec (o_id x) (o_id o)) as [Heq|Hne].
    + apply elem_of_cons in Hin as [->|Hin]; [done|].
      exfalso. apply Hx. rewrite Heq. by apply list_elem_of_fmap_2.
    + apply elem_of_cons in Hin as [->|Hin]; [done|]. by apply IH.
Qed.

(** X19.  With one stored order per id, every order on a page of the
    listing can be opened: the detail route, asked by the same caller for
    the id of that order, answers with that very order. *)
Theorem listed_orders_can_be_opened :
  ∀ uid req db page pg o,
    NoDup (o_id <$> orders db) →
    listOrders uid req db = Success (page, pg) →
    o ∈ page →
    getOrderDetail uid (o_id o) db = Success o.
Proof.
  unfold listOrders, getOrderDetail, verifyToken, paginate.
  intros uid req db page pg o Hnd H Hin.
  destruct (users db !! uid) as [user|]; [|done].
  injection H as <- _. apply jsSlice_subseteq in Hin.
  apply listedOrders_elem in Hin as (Hin & Hsee & _).
  rewrite (getOrder_unique _ _ Hnd Hin).
  unfold canSee in Hsee.
  destruct (u_role user =? "admin")%string; [done|]. simpl.
  destruct (o_userId o =? u_id user)%string; [done|]. simpl.
  destruct (u_role user =? "supplier")%string; [|done].
  by rewrite Hsee.
Qed.

Lemma listed_orders_can_be_opened_witness :
  ∃ page pg o,
    NoDup (o_id <$> orders (run [CreateOrder "cust1" oneIphone 1;
                                 CreateOrder "dist1" twoIphones 2] shopDb))
    ∧ listOrders "supplier1" (mkListReq 1 10 None None)
                 (run [CreateOrder "cust1" oneIphone 1;
                       CreateOrder "dist1" twoIphones 2] shopDb)
      = Success (page, pg)
    ∧ page !! 0%nat = Some o
    ∧ o_userId o = "dist1"
    ∧ getOrderDetail "supplier1" (o_id o)
                     (run [CreateOrder "cust1" oneIphone 1;
                           CreateOrder "dist1" twoIphones 2] shopDb)
      = Success o.
Proof.
  assert (Hnd : NoDup (o_id <$> orders (run [CreateOrder "cust1" oneIphone 1;
                                 CreateOrder "dist1" twoIphones 2] shopDb))).
  { vm_compute. apply NoDup_cons. split; [|apply NoDup_singleton].
    intros [=]%list_elem_of_singleton. }
  eexists _, _, _. split; [exact Hnd|].
  split; [vm_compute; reflexivity|]. split; [vm_compute; reflexivity|].
  split; [vm_compute; reflexivity|].
  eapply (listed_orders_can_be_opened "supplier1" (mkListReq 1 10 None None)
            _ _ _ _ Hnd).
  - vm_compute; reflexivity.
  - vm_compute. apply list_elem_of_here.
Defined.

(** * Statistics *)

Lemma status_buckets l :
  (countStatus "pending" l + countStatus "paid" l + countStatus "shipped" l
   + countStatus "delivered" l + countStatus "cancelled" l <= length l)%nat.
Proof.
  unfold countStatus. induction l as [|o l IH]; simpl; [lia|].
  destruct (String.eqb_spec (o_status o) "pending") as [E|];
    [rewrite ?E; simpl; lia|].
  destruct (String.eqb_spec (o_status o) "paid") as [E|];
    [rewrite ?E; simpl; lia|].
  destruct (String.eqb_spec (o_status o) "shipped") as [E|];
    [rewrite ?E; simpl; lia|].
  destruct (String.eqb_spec (o_status o) "delivered") as [E|];
    [rewrite ?E; simpl; lia|].
  destruct (String.eqb_spec (o_status o) "cancelled") as [E|]; simpl; lia.
Qed.

Lemma type_buckets l :
  (countType "online" l + countType "offline" l + countType "live" l
   <= length l)%nat.
Proof.
  unfold countType. induction l as [|o l IH]; simpl; [lia|].
  destruct (String.eqb_spec (o_orderType o) "online") as [E|];
    [rewrite ?E; simpl; lia|].
  destruct (String.eqb_spec (o_orderType o) "offline") as [E|];
    [rewrite ?E; simpl; lia|].
  destruct (String.eqb_spec (o_orderType o) "live") as [E|]; simpl; lia.
Qed.

Lemma revenueOf_sum l a :
  (fold_left (λ sum order, sum + amt_total (o_amount order)) l a
   == a + foldr (λ order sum, amt_total (o_amount order) + sum) 0 l)%Q.
Proof.
  revert a. induction l as [|o l IH]; intros a; simpl; [ring|].
  rewrite IH. ring.
Qed.

(** X20.  The order statistics are answered to administrators and
    suppliers only.  The five status counters, and the three order-type
    counters, never add up to more than the number of orders counted
    (orders in another status, such as refunded ones, and flash-sale and
    group orders fall in no bucket); the revenue is the sum of the totals
    of all the orders counted, whatever their status; and the average,
    times the number of orders, is the revenue. *)
Theorem orderStats_buckets :
  ∀ uid req db st,
    orderStats uid req db = Success st →
    ∃ user,
      users db !! uid = Some user
      ∧ (u_role user = "admin" ∨ u_role user = "supplier")
      ∧ totalOrders st = length (statsOrders user req db)
      ∧ (pendingOrders st + paidOrders st + shippedOrders st
         + deliveredOrders st + cancelledOrders st <= totalOrders st)%nat
      ∧ (onlineOrders st + offlineOrders st + liveOrders st
         <= totalOrders st)%nat
      ∧ (totalRevenue st
         == foldr (λ order sum, amt_total (o_amount order) + sum) 0
                  (statsOrders user req db))%Q
      ∧ (averageOrderValue st * inject_Z (Z.of_nat (totalOrders st))
         == totalRevenue st)%Q.
Proof.
  unfold orderStats, verifyToken, requireRole. intros uid req db st H.
  destruct (users db !! uid) as [user|]; [|done].
  simpl in H. rewrite orb_false_r in H.
  assert (Hrole : u_role user = "admin" ∨ u_role user = "supplier").
  { destruct (String.eqb_spec (u_role user) "admin"); [by left|].
    destruct (String.eqb_spec (u_role user) "supplier"); [by right|done]. }
  destruct ((u_role user =? "admin")%string || (u_role user =? "supplier")%string);
    [|done].
  injection H as <-. exists user. unfold statsOf. simpl.
  split; [done|]. split; [done|]. split; [done|].
  split; [apply status_buckets|]. split; [apply type_buckets|].
  split.
  - unfold revenueOf. rewrite revenueOf_sum. ring.
  - destruct (statsOrders user req db) as [|o l] eqn:E.
    + simpl. unfold revenueOf. simpl. ring.
    + replace (0 <? length (o :: l))%nat with true
        by (symmetry; apply Nat.ltb_lt; simpl; lia).
      field. intros Hz. unfold Qeq in Hz. simpl in Hz. lia.
Qed.

Lemma orderStats_buckets_witness :
  ∃ st,
    orderStats "admin1" (mkStatsReq None None)
               (run [CreateOrder "cust1" oneIphone 1;
                     CreateOrder "dist1" twoIphones 2;
                     UpdateStatus "admin1" (mkStatusReq 0 "refunded" false None) 3]
                    shopDb) = Success st
    ∧ totalOrders st = 2%nat ∧ pendingOrders st = 1%nat
    ∧ cancelledOrders st = 0%nat
    ∧ ∃ user,
        users (run [CreateOrder "cust1" oneIphone 1;
                    CreateOrder "dist1" twoIphones 2;
                    UpdateStatus "admin1" (mkStatusReq 0 "refunded" false None) 3]
                   shopDb) !! "admin1" = Some user
        ∧ (u_role user = "admin" ∨ u_role user = "supplier")
        ∧ totalOrders st
          = length (statsOrders user (mkStatsReq None None)
                      (run [CreateOrder "cust1" oneIphone 1;
                            CreateOrder "dist1" twoIphones 2;
                            UpdateStatus "admin1"
                              (mkStatusReq 0 "refunded" false None) 3]
                           shopDb))
        ∧ (pendingOrders st + paidOrders st + shippedOrders st
           + deliveredOrders st + cancelledOrders st <= totalOrders st)%nat
        ∧ (onlineOrders st + offlineOrders st + liveOrders st
           <= totalOrders st)%nat
        ∧ (totalRevenue st
           == foldr (λ order sum, amt_total (o_amount order) + sum) 0
                (statsOrders user (mkStatsReq None None)
                   (run [CreateOrder "cust1" oneIphone 1;
                         CreateOrder "dist1" twoIphones 2;
                         UpdateStatus "admin1"
                           (mkStatusReq 0 "refunded" false None) 3]
                        shopDb)))%Q
        ∧ (averageOrderValue st * inject_Z (Z.of_nat (totalOrders st))
           == totalRevenue st)%Q.
Proof.
  eexists. split; [vm_compute; reflexivity|].
  split; [vm_compute; reflexivity|]. split; [vm_compute; reflexivity|].
  split; [vm_compute; reflexivity|].
  eapply (orderStats_buckets "admin1" (mkStatsReq None None)
            (run [CreateOrder "cust1" oneIphone 1;
                  CreateOrder "dist1" twoIphones 2;
                  UpdateStatus "admin1" (mkStatusReq 0 "refunded" false None) 3]
                 shopDb)).
  vm_compute; reflexivity.
Defined.
(** * Pick-up verification *)

Lemma requireRole_two a b user :
  requireRole [a; b] user = true ↔ u_role user = a ∨ u_role user = b.
Proof.
  unfold requireRole. simpl. rewrite orb_false_r, orb_true_iff.
  by rewrite !String.eqb_eq.
Qed.

Lemma verifyOrder_accepted idText uid orderId code now st st' o' :
  verifyOrder idText uid orderId code now st = (st', Accepted o') →
  ∃ user order tl,
    users (base st) !! uid = Some user
    ∧ (u_role user = "admin" ∨ u_role user = "retailer")
    ∧ getOrder (orders (base st)) orderId = Some order
    ∧ o_orderType order = "offline"
    ∧ o_status order ≠ "delivered"
    ∧ code = expectedCode idText order
    ∧ o_timeline order = Some tl
    ∧ o' = setTimeline (setDelivered order)
                       (tl ++ [mkTimelineEntry "delivered" now])
    ∧ st' = mkStore (set_orders (base st) (putOrder (orders (base st)) o'))
                    (pointsMallItems st) (pointsExchanges st)
                    (<[orderId := mkVerification (u_id user) now code]>
                       (verifications st)).
Proof.
  unfold verifyOrder, verifyToken. intros H.
  destruct (users (base st) !! uid) as [user|]; [|done].
  destruct (requireRole _ user) eqn:Hr; [|done]. simpl in H.
  apply requireRole_two in Hr.
  destruct (getOrder _ _) as [order|]; [|done].
  destruct (String.eqb_spec (o_orderType order) "offline"); [|done].
  destruct (String.eqb_spec (o_status order) "delivered"); [done|].
  destruct (String.eqb_spec code (expectedCode idText order)); [|done].
  simpl in H. destruct (o_timeline order) as [tl|] eqn:Htl; [|done].
  injection H as <- <-. by exists user, order, tl.
Qed.

(** X21.  A pick-up verification is accepted exactly when the caller is an
    administrator or a retailer, the order exists, is an offline order, is
    not yet delivered, and the code is the expected one.  Neither the
    payment of the order nor any other status is looked at: an unpaid or a
    cancelled offline order is handed over like a paid one. *)
Theorem verifyOrder_accepted_iff :
  ∀ idText uid orderId code now st,
    (∃ st' o', verifyOrder idText uid orderId code now st = (st', Accepted o'))
    ↔ (∃ user order tl,
          users (base st) !! uid = Some user
          ∧ (u_role user = "admin" ∨ u_role user = "retailer")
          ∧ getOrder (orders (base st)) orderId = Some order
          ∧ o_orderType order = "offline"
          ∧ o_status order ≠ "delivered"
          ∧ code = expectedCode idText order
          ∧ o_timeline order = Some tl).
Proof.
  intros idText uid orderId code now st. split.
  - intros (st' & o' & H).
    apply verifyOrder_accepted in H
      as (user & order & tl & Hu & Hr & Ho & Ht & Hs & Hc & Htl & _).
    by exists user, order, tl.
  - intros (user & order & tl & Hu & Hr & Ho & Ht & Hs & Hc & Htl).
    unfold verifyOrder, verifyToken. rewrite Hu.
    apply requireRole_two in Hr. rewrite Hr, Ho. simpl.
    rewrite Ht. simpl.
    destruct (String.eqb_spec (o_status order) "delivered"); [done|].
    rewrite Hc, String.eqb_refl. simpl. rewrite Htl. by eexists _, _.
Qed.

Lemma verifyOrder_delivered idText uid orderId code now st order :
  getOrder (orders (base st)) orderId = Some order →
  o_status order = "delivered" →
  ∃ e, verifyOrder idText uid orderId code now st = (st, Refused e)
       ∧ (e = NotSignedIn ∨ e = RoleRefused ∨ e = NotPickUpOrder
          ∨ e = AlreadyVerified).
Proof.
  intros Ho Hst. unfold verifyOrder, verifyToken.
  destruct (users (base st) !! uid) as [user|]; [|eauto 6].
  destruct (negb _); [eauto 6|]. rewrite Ho, Hst. simpl.
  destruct (negb _); eauto 6.
Qed.

(** X22.  An accepted verification marks the stored order as delivered,
    extends its timeline by one entry, records who verified it, when and
    with which code, and touches neither products nor users: its payment
    status stays what it was, and no stock is confirmed.  On the store it
    leaves, a further verification of that order, by anybody and with any
    code, is refused and changes nothing.  The guard is the status alone:
    in whatever store the order is kept with status [delivered], its
    verification is refused and changes nothing; nothing is said of a
    store in which a status update has since rewritten that status. *)
Theorem verifyOrder_effect_and_once :
  ∀ idText uid orderId code now st st' o',
    verifyOrder idText uid orderId code now st = (st', Accepted o') →
    (∃ user order tl,
        users (base st) !! uid = Some user
        ∧ getOrder (orders (base st)) orderId = Some order
        ∧ o_timeline order = Some tl
        ∧ getOrder (orders (base st')) orderId = Some o'
        ∧ o_status o' = "delivered"
        ∧ o_paymentStatus o' = o_paymentStatus order
        ∧ sameCore order o'
        ∧ o_timeline o' = Some (tl ++ [mkTimelineEntry "delivered" now])
        ∧ verifications st' !! orderId
          = Some (mkVerification (u_id user) now code))
    ∧ products (base st') = products (base st)
    ∧ users (base st') = users (base st)
    ∧ (∀ uid2 code2 now2,
          ∃ e, verifyOrder idText uid2 orderId code2 now2 st' = (st', Refused e)
               ∧ (e = NotSignedIn ∨ e = RoleRefused ∨ e = AlreadyVerified))
    ∧ (∀ st2 o2 uid2 code2 now2,
          getOrder (orders (base st2)) orderId = Some o2 →
          o_status o2 = "delivered" →
          ∃ e, verifyOrder idText uid2 orderId code2 now2 st2 = (st2, Refused e)
               ∧ (e = NotSignedIn ∨ e = RoleRefused ∨ e = NotPickUpOrder
                  ∨ e = AlreadyVerified)).
Proof.
  intros idText uid orderId code now st st' o' H.
  apply verifyOrder_accepted in H
    as (user & order & tl & Hu & Hr & Ho & Ht & Hs & Hc & Htl & Ho' & ->).
  assert (Hget : getOrder (putOrder (orders (base st)) o') orderId = Some o').
  { eapply getOrder_putOrder; [exact Ho|]. rewrite Ho'. simpl.
    by eapply getOrder_id. }
  split; [|split; [done|split; [done|split]]].
  - exists user, order, tl. simpl. rewrite lookup_insert_eq.
    repeat split; try done; by rewrite Ho'.
  - intros uid2 code2 now2. unfold verifyOrder, verifyToken. simpl.
    destruct (users (base st) !! uid2) as [user2|]; [|eauto].
    assert (Hty : o_orderType o' = "offline") by by rewrite Ho'.
    assert (Hst : o_status o' = "delivered") by by rewrite Ho'.
    rewrite Hget, Hty, Hst. simpl. destruct (negb _); eauto.
  - intros st2 o2 uid2 code2 now2. apply verifyOrder_delivered.
Qed.

Lemma verifyOrder_accepted_iff_witness :
  ∃ st o,
    createOrder "cust1"
      (mkCreateOrderReq [mkItemReq "prod1" 1] None "offline" (Some "store1"%string))
      1 retailDb = (st, Success o)
    ∧ o_paymentStatus o = "unpaid"
    ∧ ∃ st' o',
        verifyOrder (λ _, "1b9d6bcd-bbfd-4b2d-9b5d-ab8dfbbd4bed") "shop1" 0
                    "BD4BED" 5 (mkStore st ∅ [] ∅) = (st', Accepted o').
Proof.
  eexists _, _. split; [vm_compute; reflexivity|].
  split; [vm_compute; reflexivity|].
  apply (proj2 (verifyOrder_accepted_iff
                  (λ _, "1b9d6bcd-bbfd-4b2d-9b5d-ab8dfbbd4bed") "shop1" 0%nat
                  "BD4BED" 5 _)).
  eexists _, _, _. split; [vm_compute; reflexivity|].
  split; [right; vm_compute; reflexivity|].
  split; [vm_compute; reflexivity|]. split; [vm_compute; reflexivity|].
  split; [vm_compute; discriminate|]. split; vm_compute; reflexivity.
Defined.

Lemma verifyOrder_effect_and_once_witness :
  ∃ st st' o',
    st = mkStore
           (run [CreateOrder "cust1"
                   (mkCreateOrderReq [mkItemReq "prod1" 1] None "offline"
                                     (Some "store1"%string)) 1] retailDb)
           ∅ [] ∅
    ∧ verifyOrder (λ _, "1b9d6bcd-bbfd-4b2d-9b5d-ab8dfbbd4bed") "shop1" 0
                  "BD4BED" 5 st = (st', Accepted o')
    ∧ products (base st') = products (base st)
    ∧ (∃ e, verifyOrder (λ _, "1b9d6bcd-bbfd-4b2d-9b5d-ab8dfbbd4bed") "admin1" 0
                        "BD4BED" 6 st' = (st', Refused e)
            ∧ (e = NotSignedIn ∨ e = RoleRefused ∨ e = AlreadyVerified))
    ∧ ∃ e, verifyOrder (λ _, "1b9d6bcd-bbfd-4b2d-9b5d-ab8dfbbd4bed") "admin1" 0
                       "BD4BED" 9
                       (set_base st'
                          (run [CreateOrder "dist1" oneIphone 7] (base st')))
           = (set_base st'
                (run [CreateOrder "dist1" oneIphone 7] (base st')),
              Refused e)
           ∧ (e = NotSignedIn ∨ e = RoleRefused ∨ e = NotPickUpOrder
              ∨ e = AlreadyVerified).
Proof.
  eexists _, _, _. split; [reflexivity|].
  split; [vm_compute; reflexivity|]. split; [vm_compute; reflexivity|].
  split.
  - eapply (verifyOrder_effect_and_once
              (λ _, "1b9d6bcd-bbfd-4b2d-9b5d-ab8dfbbd4bed") "shop1" 0%nat
              "BD4BED" 5
              (mkStore
               (run [CreateOrder "cust1"
                       (mkCreateOrderReq [mkItemReq "prod1" 1] None "offline"
                                         (Some "store1"%string)) 1] retailDb)
               ∅ [] ∅)).
    vm_compute; reflexivity.
  - eapply (verifyOrder_effect_and_once
              (λ _, "1b9d6bcd-bbfd-4b2d-9b5d-ab8dfbbd4bed") "shop1" 0%nat
              "BD4BED" 5
              (mkStore
               (run [CreateOrder "cust1"
                       (mkCreateOrderReq [mkItemReq "prod1" 1] None "offline"
                                         (Some "store1"%string)) 1] retailDb)
               ∅ [] ∅));
      vm_compute; reflexivity.
Defined.

Lemma upperAscii_idem c : upperAscii (upperAscii c) = upperAscii c.
Proof. by destruct c as [[] [] [] [] [] [] [] []]. Qed.

Lemma toUpperCase_idem s : toUpperCase (toUpperCase s) = toUpperCase s.
Proof.
  induction s as [|c s IH]; simpl; [done|]. by rewrite upperAscii_idem, IH.
Qed.

Lemma toUpperCase_length s : String.length (toUpperCase s) = String.length s.
Proof. induction s as [|c s IH]; simpl; [done|]. by rewrite IH. Qed.

Lemma substring_length_le n m s : (String.length (String.substring n m s) <= m)%nat.
Proof.
  revert n m. induction s as [|c s IH]; intros n m.
  - destruct n, m; simpl; lia.
  - destruct n as [|n]; simpl.
    + destruct m as [|m]; simpl; [lia|]. specialize (IH 0%nat m). lia.
    + apply IH.
Qed.

(** X23.  The code that opens an order is read off its id: the last six
    characters, in upper case.  So an accepted code has at most six
    characters and no lower-case letter in it, and whoever knows the id of
    the order knows its code. *)
Theorem verifyOrder_code_from_id :
  ∀ idText uid orderId code now st st' o',
    verifyOrder idText uid orderId code now st = (st', Accepted o') →
    code = toUpperCase (lastChars 6 (idText orderId))
    ∧ (String.length code <= 6)%nat
    ∧ toUpperCase code = code.
Proof.
  intros idText uid orderId code now st st' o' H.
  apply verifyOrder_accepted in H
    as (user & order & tl & _ & _ & Ho & _ & _ & -> & _).
  unfold expectedCode. rewrite (getOrder_id _ _ _ Ho).
  split; [done|]. split; [|apply toUpperCase_idem].
  rewrite toUpperCase_length. apply substring_length_le.
Qed.

Lemma verifyOrder_code_from_id_witness :
  ∃ st' o',
    verifyOrder (λ _, "1b9d6bcd-bbfd-4b2d-9b5d-ab8dfbbd4bed") "shop1" 0
                "BD4BED" 5
                (mkStore
                   (run [CreateOrder "cust1"
                           (mkCreateOrderReq [mkItemReq "prod1" 1] None "offline"
                                             (Some "store1"%string)) 1] retailDb)
                   ∅ [] ∅) = (st', Accepted o')
    ∧ "BD4BED"
      = toUpperCase (lastChars 6 ((λ _ : nat, "1b9d6bcd-bbfd-4b2d-9b5d-ab8dfbbd4bed") 0%nat))
    ∧ (String.length "BD4BED" <= 6)%nat
    ∧ toUpperCase "BD4BED" = "BD4BED".
Proof.
  eexists _, _. split; [vm_compute; reflexivity|].
  eapply (verifyOrder_code_from_id
            (λ _, "1b9d6bcd-bbfd-4b2d-9b5d-ab8dfbbd4bed") "shop1" 0%nat
            "BD4BED" 5
            (mkStore
               (run [CreateOrder "cust1"
                       (mkCreateOrderReq [mkItemReq "prod1" 1] None "offline"
                                         (Some "store1"%string)) 1] retailDb)
               ∅ [] ∅)).
  vm_compute; reflexivity.
Defined.
(** * Points mall *)

Lemma exchangePoints_accepted uid itemId q now st st' ex :
  exchangePoints uid itemId q now st = (st', Accepted ex) →
  ∃ user item,
    users (base st) !! uid = Some user
    ∧ pointsMallItems st !! itemId = Some item
    ∧ mi_pointsRequired item * q <= points (u_profile user)
    ∧ (Qle_bool (cashNeeded item q) 0 = true
       ∨ Qle_bool (cashNeeded item q) (wallet (u_profile user)) = true)
    ∧ q <= mi_inventory item
    ∧ ex = mkExchange (nextId (base st)) (u_id user) itemId q
                      (mi_pointsRequired item * q) (cashNeeded item q)
                      "pending" now
    ∧ st' = mkStore
              (mkDatabase
                 (<[uid := charge user (mi_pointsRequired item * q)
                                  (cashNeeded item q)]> (users (base st)))
                 (products (base st)) (orders (base st)) (coupons (base st))
                 (notifications (base st)) (groupBuyingActivities (base st))
                 (groupBuyingGroups (base st)) (flashSales (base st))
                 (S (nextId (base st))))
              (<[itemId := takeFromMall item q]> (pointsMallItems st))
              (pointsExchanges st ++ [ex])
              (verifications st).
Proof.
  unfold exchangePoints, verifyToken. intros H.
  destruct (users (base st) !! uid) as [user|]; [|done].
  destruct (pointsMallItems st !! itemId) as [item|]; [|done].
  destruct (Z.ltb_spec (points (u_profile user)) (mi_pointsRequired item * q));
    [done|].
  destruct (Qle_bool (cashNeeded item q) 0) eqn:Hc0; simpl in H.
  - destruct (Z.ltb_spec (mi_inventory item) q); [done|].
    injection H as <- <-. exists user, item. repeat split; try done; auto.
  - destruct (Qle_bool (cashNeeded item q) (wallet (u_profile user))) eqn:Hcw;
      simpl in H; [|done].
    destruct (Z.ltb_spec (mi_inventory item) q); [done|].
    injection H as <- <-. exists user, item. repeat split; try done; auto.
Qed.

(** X24.  An accepted exchange takes the points [pointsRequired * quantity]
    from the caller and the quantity from the inventory of the item, adds
    the quantity to the exchange count of the item, and appends its record.
    It leaves neither the points of the caller nor the inventory of the item
    negative, nor a wallet that was not negative; what leaves the inventory
    enters the exchange count; other users, products and orders are
    untouched. *)
Theorem exchangePoints_effect :
  ∀ uid itemId q now st st' ex,
    exchangePoints uid itemId q now st = (st', Accepted ex) →
    ∃ user item user' item',
      users (base st) !! uid = Some user
      ∧ pointsMallItems st !! itemId = Some item
      ∧ users (base st') !! uid = Some user'
      ∧ pointsMallItems st' !! itemId = Some item'
      ∧ points (u_profile user')
        = points (u_profile user) - mi_pointsRequired item * q
      ∧ 0 <= points (u_profile user')
      ∧ ((0 <= wallet (u_profile user))%Q → (0 <= wallet (u_profile user'))%Q)
      ∧ mi_inventory item' = mi_inventory item - q
      ∧ 0 <= mi_inventory item'
      ∧ mi_inventory item' + default 0 (mi_exchangeCount item')
        = mi_inventory item + default 0 (mi_exchangeCount item)
      ∧ ex_quantity ex = q
      ∧ ex_pointsUsed ex = mi_pointsRequired item * q
      ∧ pointsExchanges st' = pointsExchanges st ++ [ex]
      ∧ (∀ k, k ≠ uid → users (base st') !! k = users (base st) !! k)
      ∧ (∀ k, k ≠ itemId → pointsMallItems st' !! k = pointsMallItems st !! k)
      ∧ products (base st') = products (base st)
      ∧ orders (base st') = orders (base st).
Proof.
  intros uid itemId q now st st' ex H.
  apply exchangePoints_accepted in H
    as (user & item & Hu & Hi & Hp & Hc & Hq & Hex & ->).
  exists user, item, (charge user (mi_pointsRequired item * q) (cashNeeded item q)),
    (takeFromMall item q).
  simpl. rewrite !lookup_insert_eq.
  split; [done|]. split; [done|]. split; [done|]. split; [done|].
  split; [done|]. split; [lia|]. split.
  { intros Hw. destruct (Qle_bool (cashNeeded item q) 0) eqn:Hc0; [done|].
    destruct Hc as [Hc|Hc]; [done|]. apply Qle_bool_iff in Hc.
    unfold Qminus. rewrite <- Qle_minus_iff. exact Hc. }
  split; [done|]. split; [lia|]. split; [lia|].
  split; [by rewrite Hex|]. split; [by rewrite Hex|]. split; [done|].
  split; [by intros k Hk; rewrite lookup_insert_ne|].
  split; [by intros k Hk; rewrite lookup_insert_ne|]. done.
Qed.

Lemma exchangePoints_effect_witness :
  ∃ st' ex user item user' item',
    exchangePoints "cust1" "gift1" 3 7
      (mkStore shopDb (<["gift1" := mkMallItem 30 None 5 None "gift" "active"]> ∅)
               [] ∅) = (st', Accepted ex)
    ∧ users shopDb !! "cust1" = Some user
    ∧ users (base st') !! "cust1" = Some user'
    ∧ pointsMallItems st' !! "gift1" = Some item'
    ∧ item = mkMallItem 30 None 5 None "gift" "active"
    ∧ points (u_profile user')
      = points (u_profile user) - mi_pointsRequired item * 3
    ∧ points (u_profile user') = 10
    ∧ mi_inventory item' = 2
    ∧ mi_exchangeCount item' = Some 3.
Proof.
  eexists _, _, _, _, _, _. split; [vm_compute; reflexivity|].
  split; [vm_compute; reflexivity|]. split; [vm_compute; reflexivity|].
  split; [vm_compute; reflexivity|]. split; [reflexivity|].
  split; [|by vm_compute].
  edestruct (exchangePoints_effect "cust1" "gift1" 3 7
      (mkStore shopDb (<["gift1" := mkMallItem 30 None 5 None "gift" "active"]> ∅)
               [] ∅))
    as (u & i & u' & i' & Hu & Hi & Hu' & Hi' & Hp & _);
    [vm_compute; reflexivity|].
  vm_compute in Hu, Hi, Hu', Hi'.
  injection Hu as <-. injection Hi as <-. injection Hu' as <-.
  exact Hp.
Defined.

(** X25.  An exchange is accepted exactly when the caller is known, the
    item exists, the caller has the points, has the cash in the wallet when
    cash is due, and the inventory holds the quantity.  The status of the
    item and the sign of the quantity are not looked at.  A refused
    exchange leaves the store as it was. *)
Theorem exchangePoints_accepted_iff :
  ∀ uid itemId q now st,
    ((∃ st' ex, exchangePoints uid itemId q now st = (st', Accepted ex))
     ↔ (∃ user item,
           users (base st) !! uid = Some user
           ∧ pointsMallItems st !! itemId = Some item
           ∧ mi_pointsRequired item * q <= points (u_profile user)
           ∧ ((cashNeeded item q <= 0)%Q
              ∨ (cashNeeded item q <= wallet (u_profile user))%Q)
           ∧ q <= mi_inventory item))
    ∧ (∀ st' e, exchangePoints uid itemId q now st = (st', Refused e) →
                st' = st ∧ e ≠ Crashed).
Proof.
  intros uid itemId q now st. split; [split|].
  - intros (st' & ex & H).
    apply exchangePoints_accepted in H
      as (user & item & Hu & Hi & Hp & Hc & Hq & _).
    exists user, item. repeat split; try done.
    destruct Hc as [Hc|Hc]; apply Qle_bool_iff in Hc; auto.
  - intros (user & item & Hu & Hi & Hp & Hc & Hq).
    unfold exchangePoints, verifyToken. rewrite Hu, Hi.
    destruct (Z.ltb_spec (points (u_profile user)) (mi_pointsRequired item * q));
      [lia|].
    destruct (Z.ltb_spec (mi_inventory item) q); [lia|].
    destruct (Qle_bool (cashNeeded item q) 0) eqn:Hc0; simpl; [by eexists _, _|].
    destruct Hc as [Hc|Hc]; apply Qle_bool_iff in Hc; [congruence|].
    rewrite Hc. simpl. by eexists _, _.
  - unfold exchangePoints, verifyToken. intros st' e H.
    destruct (users (base st) !! uid) as [user|];
      [|by injection H as <- <-].
    destruct (pointsMallItems st !! itemId) as [item|];
      [|by injection H as <- <-].
    destruct (_ <? _); [by injection H as <- <-|].
    destruct (negb _ && negb _); [by injection H as <- <-|].
    destruct (_ <? _); [by injection H as <- <-|done].
Qed.

Lemma exchangePoints_accepted_iff_witness :
  (∃ st' ex,
      exchangePoints "cust1" "gift1" (-2) 7
        (mkStore shopDb
                 (<["gift1" := mkMallItem 30 None 5 None "gift" "inactive"]> ∅)
                 [] ∅) = (st', Accepted ex))
  ∧ ∃ st' e,
      exchangePoints "cust1" "gift1" 4 7
        (mkStore shopDb
                 (<["gift1" := mkMallItem 30 None 5 None "gift" "inactive"]> ∅)
                 [] ∅) = (st', Refused e)
      ∧ st' = mkStore shopDb
                (<["gift1" := mkMallItem 30 None 5 None "gift" "inactive"]> ∅)
                [] ∅
      ∧ e ≠ Crashed.
Proof.
  split.
  - apply (proj1 (exchangePoints_accepted_iff "cust1" "gift1" (-2) 7 _)).
    eexists _, _. split; [vm_compute; reflexivity|].
    split; [vm_compute; reflexivity|]. split; [vm_compute; discriminate|].
    split; [left; vm_compute; discriminate|vm_compute; discriminate].
  - eexists _, _. split; [vm_compute; reflexivity|].
    eapply (proj2 (exchangePoints_accepted_iff "cust1" "gift1" 4 7 _)).
    vm_compute; reflexivity.
Defined.


(** * The team of a referrer *)

Lemma truthy_key (us : gmap string User) k u :
  us !! "" = None → us !! k = Some u → truthy (Some k) = Some k.
Proof.
  intros Hno Hk. simpl. destruct (String.eqb_spec k ""); [congruence|done].
Qed.

Lemma truthy_Some rid r : truthy rid = Some r → rid = Some r.
Proof.
  destruct rid as [x|]; simpl; [|done]. by destruct (x =? "")%string.
Qed.

Lemma chain_referrerAt us target me :
  us !! "" = None → us !! target = Some me →
  ∀ n d rid,
    (n < d)%nat →
    referralChain d (refs us) rid !! n = Some target
    ↔ referrerAt us n rid target.
Proof.
  intros Hno Hme. induction n as [|n IH]; intros d rid Hd;
    (destruct d as [|d]; [lia|]); simpl.
  - split.
    + destruct (truthy rid) as [r|] eqn:Hr; [|done].
      apply truthy_Some in Hr as ->.
      destruct (refs us !! r); [|done]. by intros [= ->].
    + intros ->. rewrite (truthy_key us target me Hno Hme).
      unfold refs. rewrite lookup_fmap, Hme. done.
  - split.
    + destruct (truthy rid) as [r|] eqn:Hr; [|done].
      apply truthy_Some in Hr as ->.
      unfold refs at 1. rewrite lookup_fmap.
      destruct (us !! r) as [v|] eqn:Hv; [|done]. simpl.
      intros H. apply IH in H; [|lia]. by exists r, v.
    + intros (r & v & -> & Hv & H).
      rewrite (truthy_key us r v Hno Hv).
      unfold refs at 1. rewrite lookup_fmap, Hv. simpl.
      apply IH; [lia|done].
Qed.

Lemma allUsers_elem db u : u ∈ allUsers db ↔ ∃ k, users db !! k = Some u.
Proof.
  unfold allUsers. rewrite list_elem_of_fmap. split.
  - intros ([k x] & -> & H). exists k. by apply elem_of_map_to_list.
  - intros (k & H). exists (k, u). split; [done|]. by apply elem_of_map_to_list.
Qed.

Lemma referredBy_elem ids us u :
  u ∈ referredBy ids us
  ↔ u ∈ us ∧ ∃ r, referrerId (u_profile u) = Some r ∧ r ∈ ids.
Proof.
  unfold referredBy. rewrite list_elem_of_In, filter_In, <- list_elem_of_In.
  split; intros [Hin H]; (split; [done|]).
  - destruct (referrerId (u_profile u)) as [r|]; [|done].
    exists r. split; [done|].
    apply existsb_exists in H as (x & Hx & ->%String.eqb_eq).
    by apply list_elem_of_In.
  - destruct H as (r & -> & Hr). apply existsb_exists. exists r.
    split; [by apply list_elem_of_In|apply String.eqb_refl].
Qed.

Lemma level_step db (level : list User) n target :
  wellKeyed (users db) →
  (∀ v, v ∈ level
        ↔ v ∈ allUsers db
          ∧ referrerAt (users db) n (referrerId (u_profile v)) target) →
  ∀ u, u ∈ referredBy (map u_id level) (allUsers db)
       ↔ u ∈ allUsers db
         ∧ referrerAt (users db) (S n) (referrerId (u_profile u)) target.
Proof.
  intros Hwk Hlevel u. rewrite referredBy_elem. simpl.
  split; intros [Hu H]; (split; [done|]).
  - destruct H as (r & Hr & Hin).
    apply list_elem_of_fmap in Hin as (v & -> & Hv).
    apply Hlevel in Hv as [Hv Hat].
    apply allUsers_elem in Hv as (k & Hk).
    pose proof (Hwk _ _ Hk) as <-. by exists (u_id v), v.
  - destruct H as (r & v & Hr & Hv & Hat). exists r. split; [done|].
    pose proof (Hwk _ _ Hv) as <-.
    apply list_elem_of_fmap. exists v. split; [done|].
    apply Hlevel. split; [|done]. apply allUsers_elem. eauto.
Qed.

(** X27.  The team shown to a referrer matches the referral chain that the
    payment route walks.  In a store where every user is kept under the
    user's own id and no id is empty, a user is listed at level 1, 2 or 3 of
    the caller's team exactly when the caller is the first, second or third
    entry of the chain of referrers that starts at that user's
    [referrerId]. *)
Theorem myTeam_levels_follow_referral_chain :
  ∀ uid monthStart db report u,
    wellKeyed (users db) →
    users db !! "" = None →
    myTeam uid monthStart db = Success report →
    u ∈ allUsers db →
    let chain := referralChain 3 (refs (users db)) (referrerId (u_profile u)) in
    (u ∈ tm_level1 (tr_team report) ↔ chain !! 0%nat = Some uid)
    ∧ (u ∈ tm_level2 (tr_team report) ↔ chain !! 1%nat = Some uid)
    ∧ (u ∈ tm_level3 (tr_team report) ↔ chain !! 2%nat = Some uid).
Proof.
  intros uid monthStart db report u Hwk Hno H Hu chain.
  unfold myTeam, verifyToken in H.
  destruct (users db !! uid) as [me|] eqn:Hme; [|done].
  destruct (teamCommission _ _ _) as [total thisMonth].
  injection H as <-. simpl.
  pose proof (Hwk _ _ Hme) as Hid.
  assert (H1 : ∀ v, v ∈ referredBy [u_id me] (allUsers db)
                    ↔ v ∈ allUsers db
                      ∧ referrerAt (users db) 0 (referrerId (u_profile v)) uid).
  { intros v. rewrite referredBy_elem, Hid. simpl. split.
    - intros [Hv (r & Hr & ->%list_elem_of_singleton)]. done.
    - intros [Hv Hr]. split; [done|]. exists uid. split; [done|].
      apply list_elem_of_here. }
  pose proof (level_step db _ 0 uid Hwk H1) as H2.
  pose proof (level_step db _ 1 uid Hwk H2) as H3.
  unfold chain.
  rewrite !(chain_referrerAt (users db) uid me Hno Hme) by lia.
  rewrite (H1 u), (H2 u), (H3 u). tauto.
Qed.

Lemma wellKeyed_referralDb : wellKeyed (users referralDb).
Proof.
  change (map_Forall (λ k u, u_id u = k) (users referralDb)).
  apply map_Forall_to_list. vm_compute.
  repeat (apply Forall_cons; split; [reflexivity|]). apply Forall_nil_2.
Qed.

Lemma myTeam_levels_follow_referral_chain_witness :
  ∃ report,
    myTeam "ref2" 0 referralDb = Success report
    ∧ tr_level2Count report = 1%nat
    ∧ (registered "cust1" "customer" (Some "ref1"%string)
         ∈ tm_level2 (tr_team report)
       ↔ referralChain 3 (refs (users referralDb))
           (referrerId (u_profile (registered "cust1" "customer"
                                              (Some "ref1"%string))))
         !! 1%nat = Some "ref2"%string).
Proof.
  eexists. split; [vm_compute; reflexivity|]. split; [vm_compute; reflexivity|].
  refine (proj1 (proj2 (myTeam_levels_follow_referral_chain "ref2" 0 referralDb
                          _ (registered "cust1" "customer" (Some "ref1"%string))
                          wellKeyed_referralDb _ _ _))).
  - vm_compute; reflexivity.
  - vm_compute; reflexivity.
  - apply allUsers_elem. exists "cust1"%string. vm_compute; reflexivity.
Defined.
(** * Orders of promotions and the payment route *)

(** X28.  An order created by a flash-sale purchase cannot be paid in
    order: it has no timeline, so the payment of its owner ends in an
    internal error after the order has been marked paid.  No points are
    credited and no commission is paid for it, and a second attempt is
    refused because the order is already paid. *)
Theorem flashSale_order_payment_crashes :
  ∀ uid req now db db1 o method now2 now3,
    getOrder (orders db) (nextId db) = None →
    purchaseFlashSale uid req now db = (db1, Success o) →
    ∃ db2 o2,
      payOrder uid (mkPayReq (o_id o) method) now2 db1
      = (db2, Failure InternalError)
      ∧ getOrder (orders db2) (o_id o) = Some o2
      ∧ o_status o2 = "paid" ∧ o_paymentStatus o2 = "paid"
      ∧ users db2 = users db
      ∧ payOrder uid (mkPayReq (o_id o) method) now3 db2
        = (db2, Failure AlreadyPaid).
Proof.
  intros uid req now db db1 o method now2 now3 Hfresh H.
  apply purchaseFlashSale_success in H
    as (user & sale & Hu & _ & _ & _ & _ & Ho & Hos & _ & _ & Hus).
  assert (Hid : o_id o = nextId db) by by rewrite Ho.
  assert (Hget : getOrder (orders db1) (o_id o) = Some o).
  { rewrite Hos, Hid, getOrder_app_r by done. unfold getOrder. simpl.
    by rewrite Hid, Nat.eqb_refl. }
  assert (Hown : (o_userId o =? u_id user)%string = true).
  { rewrite Ho. simpl. apply String.eqb_refl. }
  assert (Hunpaid : o_paymentStatus o = "unpaid") by by rewrite Ho.
  assert (Htl : o_timeline o = None) by by rewrite Ho.
  set (o2 := markPaid o method now2).
  assert (Hget2 : getOrder (putOrder (orders db1) o2) (o_id o) = Some o2).
  { by eapply getOrder_putOrder. }
  exists (set_orders db1 (putOrder (orders db1) o2)), o2.
  split; [|split; [done|split; [done|split; [done|split; [done|]]]]].
  - unfold payOrder, verifyToken. simpl. rewrite Hus, Hu, Hget, Hown, Hunpaid.
    simpl. by rewrite Htl.
  - unfold payOrder, verifyToken. simpl. rewrite Hus, Hu, Hget2. simpl.
    by rewrite Hown.
Qed.

Lemma flashSale_order_payment_crashes_witness :
  ∃ db1 o,
    purchaseFlashSale "cust1" (mkPurchaseReq "sale1" 1) 50 saleDb
    = (db1, Success o)
    ∧ ∃ db2 o2,
        payOrder "cust1" (mkPayReq (o_id o) "online") 60 db1
        = (db2, Failure InternalError)
        ∧ getOrder (orders db2) (o_id o) = Some o2
        ∧ o_status o2 = "paid" ∧ o_paymentStatus o2 = "paid"
        ∧ users db2 = users saleDb
        ∧ payOrder "cust1" (mkPayReq (o_id o) "online") 70 db2
          = (db2, Failure AlreadyPaid).
Proof.
  eexists _, _. split; [vm_compute; reflexivity|].
  eapply (flashSale_order_payment_crashes "cust1" (mkPurchaseReq "sale1" 1)
            50 saleDb).
  - vm_compute; reflexivity.
  - vm_compute; reflexivity.
Defined.

(** * Reading back a created order *)

Lemma placeOrder_owner user req now db ps t ois db' o :
  placeOrder user req now db ps t ois = (db', o) →
  o_userId o = u_id user ∧ o_id o = nextId db
  ∧ orders db' = orders db ++ [o] ∧ users db' = users db.
Proof.
  unfold placeOrder. destruct (applyCoupon _ _ _) as [[d ac] cs].
  intros H; inversion H; subst; simpl. done.
Qed.

(** X29.  A created order can be read back at once: the detail route gives
    its owner the very order that the creation answered, and the order is
    in the owner's unfiltered listing, unless the owner is a supplier, whose
    listing holds the orders of the supplier's products instead. *)
Theorem created_order_can_be_read_back :
  ∀ uid req now db db' o page limit,
    getOrder (orders db) (nextId db) = None →
    createOrder uid req now db = (db', Success o) →
    getOrderDetail uid (o_id o) db' = Success o
    ∧ ∃ user,
        users db' !! uid = Some user
        ∧ (u_role user ≠ "supplier" →
           o ∈ listedOrders user (mkListReq page limit None None) db').
Proof.
  intros uid req now db db' o page limit Hfresh H.
  apply createOrder_success in H as (user & ps & t & ois & Hu & _ & Hp).
  apply placeOrder_owner in Hp as (Hown & Hid & Hos & Hus).
  assert (Hget : getOrder (orders db') (o_id o) = Some o).
  { rewrite Hos, Hid, getOrder_app_r by done. unfold getOrder. simpl.
    by rewrite Hid, Nat.eqb_refl. }
  split.
  - unfold getOrderDetail, verifyToken. rewrite Hus, Hu, Hget, Hown.
    rewrite String.eqb_refl. simpl. by rewrite andb_false_r.
  - exists user. split; [by rewrite Hus|]. intros Hrole.
    unfold listedOrders, filterBy. simpl. rewrite sortByDate_Permutation.
    apply list_elem_of_In, filter_In. split.
    + apply list_elem_of_In. rewrite Hos. apply elem_of_app. right.
      apply list_elem_of_here.
    + unfold canSee. destruct (u_role user =? "admin")%string; [done|].
      destruct (String.eqb_spec (u_role user) "supplier"); [done|].
      rewrite Hown. apply String.eqb_refl.
Qed.

Lemma created_order_can_be_read_back_witness :
  ∃ db' o,
    createOrder "cust1" oneIphone 1 shopDb = (db', Success o)
    ∧ getOrderDetail "cust1" (o_id o) db' = Success o
    ∧ ∃ user,
        users db' !! "cust1" = Some user
        ∧ (u_role user ≠ "supplier" →
           o ∈ listedOrders user (mkListReq 1 10 None None) db').
Proof.
  eexists _, _. split; [vm_compute; reflexivity|].
  eapply (created_order_can_be_read_back "cust1" oneIphone 1 shopDb).
  - vm_compute; reflexivity.
  - vm_compute; reflexivity.
Defined.
(** * Admission to a group *)

(** X30.  A join is accepted exactly when the caller is known, the activity
    named in the request exists, the instant lies in its time window and,
    when the request names a group, that group exists, is recruiting and
    does not hold the caller yet.  Nothing else is checked: not that the
    group belongs to the activity of the request, nor the expiry of the
    group, nor the cap on the number of groups of the activity. *)
Theorem joinGroupBuying_accepted_iff :
  ∀ uid req now db,
    (∃ db' g a, joinGroupBuying uid req now db = (db', Success (g, a)))
    ↔ (∃ user activity,
          users db !! uid = Some user
          ∧ groupBuyingActivities db !! jr_activityId req = Some activity
          ∧ a_startTime activity <= now <= a_endTime activity
          ∧ match jr_groupId req with
            | None => True
            | Some gid =>
              ∃ group, groupBuyingGroups db !! gid = Some group
                       ∧ g_status group = "recruiting"
                       ∧ hasJoined group (u_id user) = false
            end).
Proof.
  intros uid req now db. split.
  - intros (db' & g & a & H).
    destruct (joinGroupBuying_cases uid req now db)
      as [[_ [e He]]|(user & activity & activity1 & gkey & group & next1 & Hu
                      & Ha & Ht & Hcase & Hj & _)].
    { rewrite H in He. done. }
    exists user, activity. split; [done|]. split; [done|]. split; [done|].
    destruct Hcase as [(-> & Hg & Hst & _)|(-> & _)]; [|done].
    by exists group.
  - intros (user & activity & Hu & Ha & Ht & Hg).
    unfold joinGroupBuying, verifyToken. rewrite Hu, Ha.
    destruct (Z.ltb_spec now (a_startTime activity)); [lia|].
    destruct (Z.ltb_spec (a_endTime activity) now); [lia|]. simpl.
    destruct (jr_groupId req) as [gid|].
    + destruct Hg as (group & -> & -> & Hj). simpl.
      rewrite joinGroup_eq, Hj. cbv zeta.
      destruct (_ <=? _); by eexists _, _, _.
    + rewrite joinGroup_eq. simpl. cbv zeta.
      destruct (_ <=? _); by eexists _, _, _.
Qed.

Lemma joinGroupBuying_accepted_iff_witness :
  ∃ db1,
    db1 = run [JoinGroupBuy "cust1" (mkJoinReq "act1" None 1) 1;
               JoinGroupBuy "cust1" (mkJoinReq "act1" None 1) 2] groupDb
    ∧ length (orders db1) = 0%nat
    ∧ ∃ db' g a,
        joinGroupBuying "cust2" (mkJoinReq "act1" (Some 0%nat) 1) 3 db1
        = (db', Success (g, a)).
Proof.
  eexists. split; [reflexivity|]. split; [vm_compute; reflexivity|].
  apply (proj2 (joinGroupBuying_accepted_iff "cust2"
                  (mkJoinReq "act1" (Some 0%nat) 1) 3 _)).
  eexists _, _. split; [vm_compute; reflexivity|].
  split; [vm_compute; reflexivity|]. split; [vm_compute; split; discriminate|].
  eexists. split; [vm_compute; reflexivity|]. split; vm_compute; reflexivity.
Defined.
